(** * Bitbucket MCP bridge: a shallow embedding and its verified properties

    The development follows the layout of the repository:

    - [Js]       the JavaScript values and string built-ins the code relies on;
    - [Config]   [loadConfig] of [src/config.ts];
    - [Git]      [parseBitbucketRemote] of [src/git.ts], with the two regular
                 expressions written as backtracking matchers;
    - [Client]   [BitbucketError] and [BitbucketClient] of [src/bitbucket.ts];
    - [Cli]      the tool registry and the [CallToolRequest] handler of
                 [src/cli.ts].

    Modelling conventions.  A JavaScript string is represented by the bytes of
    its UTF-8 encoding (a [string] of Rocq), so the development speaks about
    well-formed text.  Numbers are the integers.  The text produced by
    [JSON.stringify] is represented by the JSON document it denotes.  Network
    traffic is explicit: every client method runs in the monad [M], which
    threads the list of calls issued so far and reads the replies, and the
    order in which they arrive, from a [World]. *)

From Stdlib Require Import ZArith Ascii String List Bool Lia.
From stdpp Require Import base option list gmap strings pretty.

Local Open Scope Z_scope.
Local Set Warnings "-register-all".

(* ================================================================== *)
(** * JavaScript values and built-ins *)
(* ================================================================== *)

Module Js.

(** Values that flow through the bridge: what [JSON.parse] produces, plus
    [undefined]. Object properties are kept in insertion order. *)
Inductive jsval : Type :=
| JUndefined
| JNull
| JBool (b : bool)
| JNum (n : Z)
| JStr (s : string)
| JArr (xs : list jsval)
| JObj (fields : list (string * jsval)).

Definition str_nonempty (s : string) : bool :=
  match s with EmptyString => false | String _ _ => true end.

(** [ToBoolean]. *)
Definition truthy (v : jsval) : bool :=
  match v with
  | JUndefined | JNull => false
  | JBool b => b
  | JNum n => negb (n =? 0)
  | JStr s => str_nonempty s
  | JArr _ | JObj _ => true
  end.

(** [a || b]. *)
Definition js_or (a b : jsval) : jsval := if truthy a then a else b.

Definition nullish (v : jsval) : bool :=
  match v with JUndefined | JNull => true | _ => false end.

Fixpoint assoc (k : string) (fs : list (string * jsval)) : option jsval :=
  match fs with
  | [] => None
  | (k', v) :: fs' => if String.eqb k k' then Some v else assoc k fs'
  end.

(** [v?.k] for the property names the code reads (none of them is a
    built-in property of strings, arrays or [Object.prototype]). *)
Definition get (v : jsval) (k : string) : jsval :=
  match v with
  | JObj fs => default JUndefined (assoc k fs)
  | _ => JUndefined
  end.

Fixpoint join_with (sep : string) (l : list string) : string :=
  match l with
  | [] => ""
  | [s] => s
  | s :: l' => s +:+ sep +:+ join_with sep l'
  end.

(** [ToString]; [Array.prototype.join] prints [null] and [undefined]
    elements as the empty string. *)
Fixpoint ToString (v : jsval) : string :=
  match v with
  | JUndefined => "undefined"
  | JNull => "null"
  | JBool true => "true"
  | JBool false => "false"
  | JNum n => pretty n
  | JStr s => s
  | JArr xs =>
      join_with ","
        (map (fun x => if nullish x then ""%string else ToString x) xs)
  | JObj _ => "[object Object]"
  end.

Definition join_elem (v : jsval) : string :=
  if nullish v then "" else ToString v.

(** [xs.join(sep)]. *)
Definition array_join (sep : string) (xs : list jsval) : string :=
  join_with sep (map join_elem xs).

(** The document denoted by [JSON.stringify v]: properties whose value is
    [undefined] are dropped, [undefined] array elements become [null], and
    [JSON.stringify undefined] is [undefined] (here [None]). *)
Fixpoint json_doc (v : jsval) : jsval :=
  match v with
  | JArr xs =>
      JArr (map (fun x => match x with JUndefined => JNull | _ => json_doc x end) xs)
  | JObj fs =>
      JObj ((fix go (l : list (string * jsval)) : list (string * jsval) :=
               match l with
               | [] => []
               | (k, JUndefined) :: l' => go l'
               | (k, x) :: l' => (k, json_doc x) :: go l'
               end) fs)
  | _ => v
  end.

Definition JSON_stringify (v : jsval) : option jsval :=
  match v with
  | JUndefined => None
  | _ => Some (json_doc v)
  end.

(** ** Strings *)

(** [s.includes(needle)]. *)
Fixpoint includes (s needle : string) : bool :=
  String.prefix needle s ||
  match s with
  | EmptyString => false
  | String _ s' => includes s' needle
  end.

(** [s.endsWith(suffix)]. *)
Definition endsWith (s suffix : string) : bool :=
  let n := String.length s in
  let m := String.length suffix in
  (m <=? n)%nat && String.eqb (substring (n - m) m s) suffix.

(** [s.slice(0, -k)]. *)
Definition slice_drop_last (k : nat) (s : string) : string :=
  substring 0 (String.length s - k) s.

Definition between (lo hi n : nat) : bool := ((lo <=? n) && (n <=? hi))%nat.

Definition is_alnum (c : ascii) : bool :=
  let n := nat_of_ascii c in
  between 65 90 n || between 97 122 n || between 48 57 n.

Definition char_in (c : ascii) (set : string) : bool :=
  existsb (Ascii.eqb c) (list_ascii_of_string set).

Definition hex_digit (n : nat) : ascii :=
  nth n (list_ascii_of_string "0123456789ABCDEF") "0"%char.

Definition percent (c : ascii) : string :=
  let n := nat_of_ascii c in
  String "%" (String (hex_digit (n / 16)) (String (hex_digit (n mod 16)) "")).

(** [encodeURIComponent]: every byte of the UTF-8 encoding outside
    [A-Za-z0-9-_.!~*'()] is written [%XX]. (The built-in throws [URIError]
    on a lone surrogate; such a string has no UTF-8 encoding and is outside
    this representation.) *)
Fixpoint encodeURIComponent (s : string) : string :=
  match s with
  | EmptyString => ""
  | String c s' =>
      (if is_alnum c || char_in c "-_.!~*'()" then String c "" else percent c)
      +:+ encodeURIComponent s'
  end.

(** [new URLSearchParams({k: v}).toString()] uses the form encoding. *)
Fixpoint form_urlencode (s : string) : string :=
  match s with
  | EmptyString => ""
  | String c s' =>
      (if is_alnum c || char_in c "*-._" then String c ""
       else if Ascii.eqb c " " then "+"
       else percent c)
      +:+ form_urlencode s'
  end.

End Js.
Import Js.

(* ================================================================== *)
(** * Errors, results and the network monad *)
(* ================================================================== *)

Module Effects.

(** The values of [BitbucketError.errorType]. *)
Inductive ErrorKind : Type :=
| AUTHENTICATION_ERROR | PERMISSION_ERROR | NOT_FOUND_ERROR | VALIDATION_ERROR
| CONFLICT_ERROR | RATE_LIMIT_ERROR | SERVER_ERROR | NETWORK_ERROR
| TIMEOUT_ERROR | FILE_NOT_FOUND | FILE_FETCH_ERROR | UNKNOWN_ERROR
| CONNECTION_TEST_FAILED.

Definition ErrorKind_name (k : ErrorKind) : string :=
  match k with
  | AUTHENTICATION_ERROR => "AUTHENTICATION_ERROR"
  | PERMISSION_ERROR => "PERMISSION_ERROR"
  | NOT_FOUND_ERROR => "NOT_FOUND_ERROR"
  | VALIDATION_ERROR => "VALIDATION_ERROR"
  | CONFLICT_ERROR => "CONFLICT_ERROR"
  | RATE_LIMIT_ERROR => "RATE_LIMIT_ERROR"
  | SERVER_ERROR => "SERVER_ERROR"
  | NETWORK_ERROR => "NETWORK_ERROR"
  | TIMEOUT_ERROR => "TIMEOUT_ERROR"
  | FILE_NOT_FOUND => "FILE_NOT_FOUND"
  | FILE_FETCH_ERROR => "FILE_FETCH_ERROR"
  | UNKNOWN_ERROR => "UNKNOWN_ERROR"
  | CONNECTION_TEST_FAILED => "CONNECTION_TEST_FAILED"
  end.

(** [class BitbucketError extends Error]. *)
Record BitbucketError : Type := mkBitbucketError {
  message : string;
  statusCode : option Z;
  errorType : ErrorKind;
  details : jsval;
  suggestion : option string;
  isRetryable : bool;
}.

(** What a [throw] carries: a [BitbucketError], or another [Error] object
    ([Error], [TypeError], ...) with its name and message. *)
Inductive Thrown : Type :=
| ThrowBitbucket (e : BitbucketError)
| ThrowError (name msg : string).

Inductive Result (A : Type) : Type :=
| Ok (a : A)
| Throw (t : Thrown).
Arguments Ok {A} a.
Arguments Throw {A} t.

Inductive Method : Type := GET | POST | PUT | DELETE.

Definition Method_name (m : Method) : string :=
  match m with GET => "GET" | POST => "POST" | PUT => "PUT" | DELETE => "DELETE" end.

(** One network call, as a request interceptor sees it: a request through
    the axios instance (base URL of the instance, method, path, body) or a
    direct [fetch] of an absolute URL. *)
Inductive NetCall : Type :=
| AxiosCall (baseURL : string) (method : Method) (path : string) (body : option jsval)
| FetchCall (url : string).

(** How an axios request can fail.  A reply whose status is outside 2xx
    rejects with [error.response] set; axios gives such an error the code
    [ERR_BAD_REQUEST] (4xx) or [ERR_BAD_RESPONSE] (5xx).  Without a reply
    the error has only a code ([ENOTFOUND], [ETIMEDOUT], ...) and a message. *)
Inductive AxiosError : Type :=
| BadStatus (status : Z) (data : jsval) (msg : string)
| NoResponse (code : option string) (msg : string).

Inductive AxiosOutcome : Type :=
| AxiosResolved (status : Z) (data : jsval)
| AxiosRejected (err : AxiosError).

(** A [fetch] either yields a [Response] (any status; reading its text may
    fail) or rejects. *)
Inductive FetchOutcome : Type :=
| FetchResponse (status : Z) (text : option string)
| FetchRejected (msg : string).

(** The remote side: the reply to the [n]-th call of the session, and the
    instant at which that reply arrives. Only the order of the instants
    matters, and only for calls that are in flight together: the reply to a
    later call may arrive before the reply to an earlier one. *)
Record World : Type := mkWorld {
  axios_reply : nat -> NetCall -> AxiosOutcome;
  fetch_reply : nat -> NetCall -> FetchOutcome;
  settles : nat -> nat;
}.

Abbreviation Trace := (list NetCall).

(** Computations that may issue calls and may throw. *)
Definition M (A : Type) : Type := World -> Trace -> Result A * Trace.

Definition ret {A} (a : A) : M A := fun _ t => (Ok a, t).
Definition throw {A} (x : Thrown) : M A := fun _ t => (Throw x, t).
Definition bind {A B} (m : M A) (f : A -> M B) : M B :=
  fun w t =>
    match m w t with
    | (Ok a, t') => f a w t'
    | (Throw x, t') => (Throw x, t')
    end.
Definition try_catch {A} (m : M A) (handler : Thrown -> M A) : M A :=
  fun w t =>
    match m w t with
    | (Ok a, t') => (Ok a, t')
    | (Throw x, t') => handler x w t'
    end.
Definition lift {A} (r : Result A) : M A := fun _ t => (r, t).

Definition TypeError {A} (msg : string) : Result A := Throw (ThrowError "TypeError" msg).
Definition Error {A} (msg : string) : Result A := Throw (ThrowError "Error" msg).

#[global] Instance M_ret : MRet M := @ret.
#[global] Instance M_bind : MBind M := fun A B f m => bind m f.

End Effects.
Import Effects.


(* ================================================================== *)
(** * The configuration resolver ([src/config.ts]) *)
(* ================================================================== *)

Module Config.

Inductive AuthType : Type := basic | bearer.

(** [interface BitbucketConfig]. The values read from a JSON file are used
    unchecked (the object literal is cast), so the fields hold arbitrary
    values. *)
Record BitbucketConfig : Type := mkConfig {
  baseUrl : jsval;
  ATLASSIAN_USER_EMAIL : jsval;
  ATLASSIAN_API_TOKEN : jsval;
  authType : AuthType;
  defaultDestinationBranch : jsval;
}.

(** [process.env], after [dotenv] has merged the [.env] file into it. *)
Abbreviation Env := (gmap string string).

(** The entries of the working directory: an absent name does not exist; a
    present one holds the value [JSON.parse] gives for its content, or
    [None] when reading or parsing it throws. *)
Abbreviation Directory := (gmap string (option jsval)).

Definition CLOUD_API : string := "https://api.bitbucket.org/2.0".
Definition CLOUD_HOST : string := "api.bitbucket.org".

(** Truthiness of [process.env.X]. *)
Definition set (o : option string) : bool :=
  match o with Some s => str_nonempty s | None => false end.

(** [envUrl === 'bitbucket' ? CLOUD_API : (envUrl || CLOUD_API)]. *)
Definition env_baseUrl (envUrl : option string) : string :=
  match envUrl with
  | Some u =>
      if String.eqb u "bitbucket" then CLOUD_API
      else if str_nonempty u then u else CLOUD_API
  | None => CLOUD_API
  end.

Definition env_or (o : option string) (d : string) : string :=
  match o with Some s => if str_nonempty s then s else d | None => d end.

(** The immediately-invoked function that computes [fromEnv]. *)
Definition fromEnv (env : Env) (dir : Directory) : option BitbucketConfig :=
  let first :=
    if bool_decide (is_Some (dir !! ".env"%string)) then
      let envEmail := env !! "ATLASSIAN_USER_EMAIL"%string in
      let envToken := env !! "ATLASSIAN_API_TOKEN"%string in
      let envUrl := env !! "ATLASSIAN_SITE_URL"%string in
      if set envEmail && set envToken then
        let baseUrl := env_baseUrl envUrl in
        let authType := if includes baseUrl CLOUD_HOST then basic else bearer in
        let defaultDestinationBranch :=
          env_or (env !! "BITBUCKET_DEFAULT_DEST_BRANCH"%string) "main" in
        Some (mkConfig (JStr baseUrl) (JStr (default ""%string envEmail))
                (JStr (default ""%string envToken)) authType
                (JStr defaultDestinationBranch))
      else None
    else None in
  match first with
  | Some cfg => Some cfg
  | None =>
      if set (env !! "ATLASSIAN_API_TOKEN"%string)
         && set (env !! "ATLASSIAN_USER_EMAIL"%string) then
        let baseUrl := env_baseUrl (env !! "ATLASSIAN_SITE_URL"%string) in
        let authType := if includes baseUrl CLOUD_HOST then basic else bearer in
        let defaultDestinationBranch :=
          env_or (env !! "BITBUCKET_DEFAULT_DEST_BRANCH"%string) "main" in
        Some (mkConfig (JStr baseUrl)
                (JStr (default ""%string (env !! "ATLASSIAN_USER_EMAIL"%string)))
                (JStr (default ""%string (env !! "ATLASSIAN_API_TOKEN"%string)))
                authType (JStr defaultDestinationBranch))
      else None
  end.

Definition configPaths : list string :=
  ["mcp.config.json"; ".mcp.config.json"; ".bitbucket.mcp.json"]%string.

(** [baseUrl.includes('api.bitbucket.org')] on an unchecked value: strings
    and arrays have [includes]; anything else throws a [TypeError]. *)
Definition includes_host (baseUrl : jsval) : Result bool :=
  match baseUrl with
  | JStr s => Ok (includes s CLOUD_HOST)
  | JArr xs =>
      Ok (existsb (fun x => match x with
                            | JStr s => String.eqb s CLOUD_HOST
                            | _ => false
                            end) xs)
  | JUndefined =>
      TypeError "Cannot read properties of undefined (reading 'includes')"
  | JNull => TypeError "Cannot read properties of null (reading 'includes')"
  | _ => TypeError "baseUrl.includes is not a function"
  end.

(** The body of the [try] for one parsed file: [None] when the guard
    [raw && raw.bitbucket && raw.bitbucket.environments] fails. *)
Definition config_of_file (raw : jsval) : option (Result BitbucketConfig) :=
  if truthy raw && truthy (get raw "bitbucket")
     && truthy (get (get raw "bitbucket") "environments") then
    let e := get (get raw "bitbucket") "environments" in
    let baseUrl :=
      match get e "ATLASSIAN_SITE_URL" with
      | JStr u => if String.eqb u "bitbucket" then JStr CLOUD_API else JStr u
      | v => v
      end in
    Some match includes_host baseUrl with
         | Throw x => Throw x
         | Ok cloud =>
             let authType := if cloud then basic else bearer in
             let defaultDestinationBranch :=
               js_or (get e "BITBUCKET_DEFAULT_DEST_BRANCH")
                 (js_or (get (get raw "bitbucket") "defaultDestinationBranch")
                    (JStr "main")) in
             Ok (mkConfig baseUrl (get e "ATLASSIAN_USER_EMAIL")
                   (get e "ATLASSIAN_API_TOKEN") authType
                   defaultDestinationBranch)
         end
  else None.

(** The loop over [configPaths]: the first file that exists, parses, passes
    the guard and builds without throwing is returned; a throw inside the
    [try] moves on to the next path. *)
Fixpoint fromFiles (paths : list string) (dir : Directory) : option BitbucketConfig :=
  match paths with
  | [] => None
  | p :: paths' =>
      match dir !! p with
      | Some (Some raw) =>
          match config_of_file raw with
          | Some (Ok cfg) => Some cfg
          | _ => fromFiles paths' dir
          end
      | _ => fromFiles paths' dir
      end
  end.

Definition MISSING_CREDENTIALS : string :=
  "Missing credentials. Provide env vars ATLASSIAN_USER_EMAIL and ATLASSIAN_API_TOKEN or mcp.config.json with bitbucket.environments.".

Definition loadConfig (env : Env) (dir : Directory) : Result BitbucketConfig :=
  let fromEnv := fromEnv env dir in
  match fromFiles configPaths dir with
  | Some cfg => Ok cfg
  | None =>
      match fromEnv with
      | None => Error MISSING_CREDENTIALS
      | Some cfg => Ok cfg
      end
  end.

End Config.

(* ================================================================== *)
(** * The remote-descriptor parser ([src/git.ts]) *)
(* ================================================================== *)

(** Backtracking matchers: a matcher maps the input to the list of its
    ways to match a prefix, in the order a backtracking engine tries them,
    each with what it captured and the input left. *)
Module Regex.

Definition Matcher (A : Type) : Type := string -> list (A * string).

Definition lower (c : ascii) : ascii :=
  let n := nat_of_ascii c in
  if between 65 90 n then ascii_of_nat (n + 32) else c.

(** Two characters match under the [i] flag. *)
Definition char_ci (a b : ascii) : bool := Ascii.eqb (lower a) (lower b).

(** A literal, under the [i] flag. *)
Fixpoint lit (p : string) : Matcher unit :=
  fun s =>
    match p with
    | EmptyString => [(tt, s)]
    | String a p' =>
        match s with
        | String b s' => if char_ci a b then lit p' s' else []
        | EmptyString => []
        end
    end.

(** A character class is a test on the input at the current position. *)
Definition CharClass : Type := string -> bool.

(** [[^c]]. *)
Definition not_char (c : ascii) : CharClass :=
  fun s => match s with String b _ => negb (Ascii.eqb b c) | EmptyString => false end.

(** The input starts with a line terminator: LF, CR, U+2028 or U+2029. *)
Definition line_terminator_at (s : string) : bool :=
  String.prefix (String "010" "") s
  || String.prefix (String "013" "") s
  || String.prefix (String "226" (String "128" (String "168" ""))) s
  || String.prefix (String "226" (String "128" (String "169" ""))) s.

(** [.] (without the [s] flag). *)
Definition dot : CharClass :=
  fun s => match s with String _ _ => negb (line_terminator_at s) | EmptyString => false end.

(** [cls+]: longest match first. *)
Fixpoint plus_greedy (cls : CharClass) (s : string) : list (string * string) :=
  match s with
  | EmptyString => []
  | String c t =>
      if cls s then
        map (fun '(m, r) => (String c m, r)) (plus_greedy cls t) ++ [(String c "", t)]
      else []
  end.

(** [cls+?]: shortest match first. *)
Fixpoint plus_lazy (cls : CharClass) (s : string) : list (string * string) :=
  match s with
  | EmptyString => []
  | String c t =>
      if cls s then
        (String c "", t) :: map (fun '(m, r) => (String c m, r)) (plus_lazy cls t)
      else []
  end.

(** [(p)?]: with [p] first, then without. *)
Definition opt {A} (p : Matcher A) : Matcher (option A) :=
  fun s => map (fun '(a, r) => (Some a, r)) (p s) ++ [(None, s)].

(** [$]. *)
Definition eos : Matcher unit :=
  fun s => match s with EmptyString => [(tt, s)] | String _ _ => [] end.

(** [re.exec]: the first way to match is the match. *)
Definition exec {A} (alternatives : list A) : option A := head alternatives.

End Regex.

Module Git.
Import Regex.

Record RemoteDescriptor : Type := mkRemote {
  host : string;
  workspace : string;
  repoSlug : string;
}.

(** [/^git@([^:]+):([^/]+)\/(.+?)(\.git)?$/i], with groups 1 to 3. *)
Definition ssh_re (remoteUrl : string) : list (string * string * string) :=
  '(_, r) ← lit "git@" remoteUrl;
  '(g1, r) ← plus_greedy (not_char ":") r;
  '(_, r) ← lit ":" r;
  '(g2, r) ← plus_greedy (not_char "/") r;
  '(_, r) ← lit "/" r;
  '(g3, r) ← plus_lazy dot r;
  '(_, r) ← opt (lit ".git") r;
  '(_, _) ← eos r;
  [(g1, g2, g3)].

(** [/^https?:\/\/(?:[^@]+@)?([^\/]+)\/([^\/]+)\/(.+?)(?:\.git)?$/i]. *)
Definition https_re (remoteUrl : string) : list (string * string * string) :=
  '(_, r) ← lit "http" remoteUrl;
  '(_, r) ← opt (lit "s") r;
  '(_, r) ← lit "://" r;
  '(_, r) ← opt (fun r => '(_, r) ← plus_greedy (not_char "@") r; lit "@" r) r;
  '(g1, r) ← plus_greedy (not_char "/") r;
  '(_, r) ← lit "/" r;
  '(g2, r) ← plus_greedy (not_char "/") r;
  '(_, r) ← lit "/" r;
  '(g3, r) ← plus_lazy dot r;
  '(_, r) ← opt (lit ".git") r;
  '(_, _) ← eos r;
  [(g1, g2, g3)].

Definition parseBitbucketRemote (remoteUrl : string) : Result RemoteDescriptor :=
  match exec (ssh_re remoteUrl) with
  | Some (host, workspace, repo) =>
      let repo := if endsWith repo ".git" then slice_drop_last 4 repo else repo in
      Ok (mkRemote host workspace repo)
  | None =>
      match exec (https_re remoteUrl) with
      | Some (host, workspace, repo) => Ok (mkRemote host workspace repo)
      | None => Error ("Unsupported Bitbucket remote URL: " +:+ remoteUrl)
      end
  end.

(** ** The checkout *)

Section Checkout.

(** [path.dirname], and [fs.existsSync(path.join(dir, '.git'))] as a
    predicate on [dir]. *)
Variable dirname : string -> string.
Variable has_git : string -> bool.

(** [findRepoRoot(startDir)]: the loop, with a bound on the number of its
    iterations; [None] when the bound is reached. *)
Fixpoint findRepoRoot (fuel : nat) (dir : string) : option (Result string) :=
  match fuel with
  | O => None
  | S fuel' =>
      if has_git dir then Some (Ok dir)
      else
        let parent := dirname dir in
        if String.eqb parent dir then
          Some (Error "No git repository found from current directory upwards")
        else findRepoRoot fuel' parent
  end.

End Checkout.

End Git.

(* ================================================================== *)
(** * The dialect-aware repository client ([src/bitbucket.ts]) *)
(* ================================================================== *)

Module Client.
Export Config(AuthType, basic, bearer, CLOUD_API, CLOUD_HOST).

Record BitbucketClientOptions : Type := mkOptions {
  opt_email : string;
  opt_token : string;
  opt_baseUrl : option string;
  opt_authType : option AuthType;
}.

Record BitbucketClient : Type := mkClient {
  email : string;
  token : string;
  baseUrl : string;
  authType : AuthType;
  isCloud : bool;
}.

(** The constructor. [opts.baseUrl || CLOUD_API]: an absent or empty base
    URL falls back to the Cloud API. *)
Definition new_BitbucketClient (opts : BitbucketClientOptions) : BitbucketClient :=
  let baseUrl :=
    match opt_baseUrl opts with
    | Some u => if str_nonempty u then u else CLOUD_API
    | None => CLOUD_API
    end in
  {| email := opt_email opts;
     token := opt_token opts;
     baseUrl := baseUrl;
     authType :=
       match opt_authType opts with
       | Some a => a
       | None => if includes baseUrl CLOUD_HOST then basic else bearer
       end;
     isCloud := includes baseUrl CLOUD_HOST || String.eqb baseUrl CLOUD_API |}.

Record RequestInit : Type := mkInit {
  init_method : option Method;
  init_body : option jsval;
}.

Definition no_init : RequestInit := mkInit None None.

Definition error_status (err : AxiosError) : option Z :=
  match err with BadStatus st _ _ => Some st | NoResponse _ _ => None end.

Definition error_data (err : AxiosError) : jsval :=
  match err with BadStatus _ d _ => d | NoResponse _ _ => JUndefined end.

Definition error_code (err : AxiosError) : option string :=
  match err with
  | BadStatus st _ _ =>
      if (400 <=? st) && (st <? 500) then Some "ERR_BAD_REQUEST"%string
      else if (500 <=? st) && (st <? 600) then Some "ERR_BAD_RESPONSE"%string
      else None
  | NoResponse code _ => code
  end.

Definition error_message (err : AxiosError) : string :=
  match err with BadStatus _ _ m => m | NoResponse _ m => m end.

Definition opt_str (o : option string) : jsval :=
  match o with Some s => JStr s | None => JUndefined end.

Definition status_is (status : option Z) (n : Z) : bool :=
  match status with Some st => st =? n | None => false end.

Definition code_is (code : option string) (s : string) : bool :=
  match code with Some c => String.eqb c s | None => false end.

(** The [catch] block of [request]: the structured error built from the
    failure of the axios call. *)
Definition request_error (path : string) (method : Method) (err : AxiosError)
  : BitbucketError :=
  let status := error_status err in
  let responseData := error_data err in
  let code := error_code err in
  let std_details :=
    JObj [("path", JStr path); ("method", JStr (Method_name method));
          ("response", responseData)] in
  if status_is status 401 then
    mkBitbucketError "Authentication failed" (Some 401) AUTHENTICATION_ERROR
      std_details
      (Some "Check your email and app password/token. Ensure credentials are valid and have not expired."%string)
      false
  else if status_is status 403 then
    mkBitbucketError "Permission denied" (Some 403) PERMISSION_ERROR
      std_details
      (Some "Your credentials lack permission for this operation. Check repository access rights and workspace permissions."%string)
      false
  else if status_is status 404 then
    mkBitbucketError "Resource not found" (Some 404) NOT_FOUND_ERROR
      std_details
      (Some "Verify workspace name, repository slug, or resource ID. Check if the resource exists and is accessible."%string)
      false
  else if status_is status 400 then
    mkBitbucketError "Bad request" (Some 400) VALIDATION_ERROR
      std_details
      (Some ("Invalid request parameters. " +:+
             ToString (js_or (get (get responseData "error") "message")
                         (JStr "Check the request payload and parameters."))))
      false
  else if status_is status 409 then
    mkBitbucketError "Conflict" (Some 409) CONFLICT_ERROR
      std_details
      (Some "Resource already exists or conflicts with existing data. Try a different name or check for duplicates."%string)
      false
  else if status_is status 429 then
    mkBitbucketError "Rate limit exceeded" (Some 429) RATE_LIMIT_ERROR
      std_details
      (Some "Too many requests. Wait before retrying. Check rate limit headers for reset time."%string)
      true
  else if match status with Some st => negb (st =? 0) && (500 <=? st) | None => false end then
    mkBitbucketError "Bitbucket server error" status SERVER_ERROR
      std_details
      (Some "Bitbucket service is experiencing issues. Retry after a short delay."%string)
      true
  else if code_is code "ENOTFOUND" || code_is code "ECONNREFUSED" then
    mkBitbucketError "Network connection failed" None NETWORK_ERROR
      (JObj [("path", JStr path); ("method", JStr (Method_name method));
             ("code", opt_str code)])
      (Some "Check network connectivity and baseUrl configuration. Verify the Bitbucket server is reachable."%string)
      true
  else if code_is code "ETIMEDOUT" then
    mkBitbucketError "Request timeout" None TIMEOUT_ERROR
      (JObj [("path", JStr path); ("method", JStr (Method_name method))])
      (Some "Request took too long. Check network speed or try again."%string)
      true
  else
    mkBitbucketError
      (if str_nonempty (error_message err) then error_message err
       else "Unknown error occurred")
      status UNKNOWN_ERROR
      (JObj [("path", JStr path); ("method", JStr (Method_name method));
             ("response", responseData); ("originalError", opt_str code)])
      (Some "An unexpected error occurred. Check logs for details."%string)
      false.

(** [private async request(path, init)]: one axios call; the reply is the
    one the world gives to the call at the current position of the trace. *)
Definition request (c : BitbucketClient) (path : string) (init : RequestInit)
  : M jsval :=
  fun w t =>
    let method := default GET (init_method init) in
    let call := AxiosCall (baseUrl c) method path (init_body init) in
    match axios_reply w (length t) call with
    | AxiosResolved _ data => (Ok data, t ++ [call])
    | AxiosRejected err =>
        (Throw (ThrowBitbucket (request_error path method err)), t ++ [call])
    end.

(** [encodeURIComponent(v)] and [`${v}`] on an arbitrary argument. *)
Definition enc (v : jsval) : string := encodeURIComponent (ToString v).

(** [v.k]: reading a property of [undefined] or [null] throws. *)
Definition prop (v : jsval) (k : string) : Result jsval :=
  match v with
  | JUndefined =>
      TypeError ("Cannot read properties of undefined (reading '" +:+ k +:+ "')")
  | JNull =>
      TypeError ("Cannot read properties of null (reading '" +:+ k +:+ "')")
  | _ => Ok (get v k)
  end.

Definition post (body : jsval) : RequestInit :=
  mkInit (Some POST) (JSON_stringify body).
Definition put (body : jsval) : RequestInit :=
  mkInit (Some PUT) (JSON_stringify body).

Definition getRepo (c : BitbucketClient) (workspace repoSlug : jsval) : M jsval :=
  if isCloud c then
    request c ("/repositories/" +:+ enc workspace +:+ "/" +:+ enc repoSlug) no_init
  else
    request c ("/projects/" +:+ enc workspace +:+ "/repos/" +:+ enc repoSlug) no_init.

Definition listPullRequests (c : BitbucketClient) (workspace repoSlug state : jsval)
  : M jsval :=
  let state := match state with JUndefined => JStr "OPEN" | _ => state end in
  let params := "state=" +:+ form_urlencode (ToString state) in
  if isCloud c then
    request c ("/repositories/" +:+ enc workspace +:+ "/" +:+ enc repoSlug
               +:+ "/pullrequests?" +:+ params) no_init
  else
    request c ("/projects/" +:+ enc workspace +:+ "/repos/" +:+ enc repoSlug
               +:+ "/pull-requests?" +:+ params) no_init.

Definition createPullRequest (c : BitbucketClient) (workspace repoSlug args : jsval)
  : M jsval :=
  title ← lift (prop args "title");
  let sourceBranch := get args "sourceBranch" in
  let destBranch := get args "destBranch" in
  let description := js_or (get args "description") (JStr "") in
  if isCloud c then
    let body :=
      JObj [("title", title); ("description", description);
            ("source", JObj [("branch", JObj [("name", sourceBranch)])]);
            ("destination", JObj [("branch", JObj [("name", destBranch)])])] in
    request c ("/repositories/" +:+ enc workspace +:+ "/" +:+ enc repoSlug
               +:+ "/pullrequests") (post body)
  else
    let repository :=
      JObj [("slug", repoSlug); ("name", JNull);
            ("project", JObj [("key", workspace)])] in
    let body :=
      JObj [("title", title); ("description", description);
            ("state", JStr "OPEN"); ("open", JBool true); ("closed", JBool false);
            ("fromRef", JObj [("id", JStr ("refs/heads/" +:+ ToString sourceBranch));
                              ("repository", repository)]);
            ("toRef", JObj [("id", JStr ("refs/heads/" +:+ ToString destBranch));
                            ("repository", repository)]);
            ("locked", JBool false); ("reviewers", JArr [])] in
    request c ("/projects/" +:+ enc workspace +:+ "/repos/" +:+ enc repoSlug
               +:+ "/pull-requests") (post body).

Definition listBranches (c : BitbucketClient) (workspace repoSlug : jsval) : M jsval :=
  if isCloud c then
    request c ("/repositories/" +:+ enc workspace +:+ "/" +:+ enc repoSlug
               +:+ "/refs/branches") no_init
  else
    request c ("/projects/" +:+ enc workspace +:+ "/repos/" +:+ enc repoSlug
               +:+ "/branches") no_init.

Definition createBranch (c : BitbucketClient) (workspace repoSlug name targetHash : jsval)
  : M jsval :=
  let body := JObj [("name", name); ("target", JObj [("hash", targetHash)])] in
  if isCloud c then
    request c ("/repositories/" +:+ enc workspace +:+ "/" +:+ enc repoSlug
               +:+ "/refs/branches") (post body)
  else
    request c ("/projects/" +:+ enc workspace +:+ "/repos/" +:+ enc repoSlug
               +:+ "/branches") (post body).

Definition listWorkspaces (c : BitbucketClient) : M jsval :=
  if isCloud c then request c "/workspaces" no_init
  else request c "/projects" no_init.

Definition listRepositories (c : BitbucketClient) (workspace : jsval) : M jsval :=
  if isCloud c then request c ("/repositories/" +:+ enc workspace) no_init
  else request c ("/projects/" +:+ enc workspace +:+ "/repos") no_init.

Definition getPullRequest (c : BitbucketClient) (workspace repoSlug prId : jsval)
  : M jsval :=
  if isCloud c then
    request c ("/repositories/" +:+ enc workspace +:+ "/" +:+ enc repoSlug
               +:+ "/pullrequests/" +:+ ToString prId) no_init
  else
    request c ("/projects/" +:+ enc workspace +:+ "/repos/" +:+ enc repoSlug
               +:+ "/pull-requests/" +:+ ToString prId) no_init.

Definition getPullRequestDiff (c : BitbucketClient) (workspace repoSlug prId : jsval)
  : M jsval :=
  if isCloud c then
    request c ("/repositories/" +:+ enc workspace +:+ "/" +:+ enc repoSlug
               +:+ "/pullrequests/" +:+ ToString prId +:+ "/diff") no_init
  else
    request c ("/projects/" +:+ enc workspace +:+ "/repos/" +:+ enc repoSlug
               +:+ "/pull-requests/" +:+ ToString prId +:+ "/diff") no_init.

Definition getPullRequestChanges (c : BitbucketClient) (workspace repoSlug prId : jsval)
  : M jsval :=
  if isCloud c then
    request c ("/repositories/" +:+ enc workspace +:+ "/" +:+ enc repoSlug
               +:+ "/pullrequests/" +:+ ToString prId +:+ "/diffstat") no_init
  else
    request c ("/projects/" +:+ enc workspace +:+ "/repos/" +:+ enc repoSlug
               +:+ "/pull-requests/" +:+ ToString prId +:+ "/changes") no_init.

(** The first statement logs [text.length], which throws when [text] is
    [undefined] or [null]. *)
Definition addPullRequestComment (c : BitbucketClient)
    (workspace repoSlug prId text : jsval) : M jsval :=
  lift (prop text "length");;
  let body :=
    if isCloud c then JObj [("content", JObj [("raw", text)])]
    else JObj [("text", text)] in
  let path :=
    if isCloud c then
      "/repositories/" +:+ enc workspace +:+ "/" +:+ enc repoSlug
      +:+ "/pullrequests/" +:+ ToString prId +:+ "/comments"
    else
      "/projects/" +:+ enc workspace +:+ "/repos/" +:+ enc repoSlug
      +:+ "/pull-requests/" +:+ ToString prId +:+ "/comments" in
  request c path (post body).

(** [res.ok]. *)
Definition response_ok (status : Z) : bool := (200 <=? status) && (status <=? 299).

(** The structured error of the Cloud file fetch for a reply that is not ok. *)
Definition file_fetch_error (workspace repoSlug filePath commitHash : jsval)
    (status : Z) (errorText : string) : BitbucketError :=
  if status =? 404 then
    mkBitbucketError "File not found" (Some 404) FILE_NOT_FOUND
      (JObj [("workspace", workspace); ("repoSlug", repoSlug);
             ("filePath", filePath); ("commitHash", commitHash);
             ("response", JStr errorText)])
      (Some "Verify the file path and commit hash are correct. File may not exist at this commit."%string)
      false
  else if status =? 401 then
    mkBitbucketError "Authentication failed for file content" (Some 401)
      AUTHENTICATION_ERROR
      (JObj [("workspace", workspace); ("repoSlug", repoSlug);
             ("filePath", filePath); ("commitHash", commitHash)])
      (Some "Check authentication credentials."%string)
      false
  else
    mkBitbucketError ("Failed to fetch file content: HTTP " +:+ pretty status)
      (Some status) FILE_FETCH_ERROR
      (JObj [("workspace", workspace); ("repoSlug", repoSlug);
             ("filePath", filePath); ("commitHash", commitHash);
             ("response", JStr errorText)])
      (Some "Check file permissions and repository access."%string)
      (500 <=? status).

(** [fetch(url, {headers})]: a direct call, outside [request]. *)
Definition fetch (url : string) : M (Z * option string) :=
  fun w t =>
    let call := FetchCall url in
    match fetch_reply w (length t) call with
    | FetchResponse status text => (Ok (status, text), t ++ [call])
    | FetchRejected msg => (Throw (ThrowError "TypeError" msg), t ++ [call])
    end.

(** [lines.map(l => l.text)]. *)
Fixpoint map_text (ls : list jsval) : Result (list jsval) :=
  match ls with
  | [] => Ok []
  | l :: ls' =>
      match prop l "text" with
      | Throw x => Throw x
      | Ok v =>
          match map_text ls' with
          | Throw x => Throw x
          | Ok vs => Ok (v :: vs)
          end
      end
  end.

(** [response.lines?.map(l => l.text).join("\n") || ""]. *)
Definition lines_content (response : jsval) : Result jsval :=
  match prop response "lines" with
  | Throw x => Throw x
  | Ok lines =>
      match lines with
      | JUndefined | JNull => Ok (JStr "")
      | JArr ls =>
          match map_text ls with
          | Throw x => Throw x
          | Ok vs => Ok (js_or (JStr (array_join (String "010" "") vs)) (JStr ""))
          end
      | _ => TypeError "response.lines?.map is not a function"
      end
  end.

Definition getFileContent (c : BitbucketClient)
    (workspace repoSlug filePath commitHash : jsval) : M jsval :=
  if isCloud c then
    let url :=
      baseUrl c +:+ "/repositories/" +:+ enc workspace +:+ "/" +:+ enc repoSlug
      +:+ "/src/" +:+ enc commitHash +:+ "/" +:+ enc filePath in
    '(status, text) ← fetch url;
    if negb (response_ok status) then
      let errorText := default "Unable to read error response"%string text in
      throw (ThrowBitbucket
               (file_fetch_error workspace repoSlug filePath commitHash
                  status errorText))
    else
      match text with
      | Some content => ret (JStr content)
      | None => throw (ThrowError "TypeError" "Failed to read response body")
      end
  else
    response ← request c
      ("/projects/" +:+ enc workspace +:+ "/repos/" +:+ enc repoSlug
       +:+ "/browse/" +:+ enc filePath +:+ "?at=" +:+ enc commitHash) no_init;
    lift (lines_content response).

Record ConnectionResult : Type := mkConnectionResult {
  success : bool;
  error : option BitbucketError;
}.

Definition testConnection (c : BitbucketClient) : M ConnectionResult :=
  try_catch
    (listWorkspaces c;; ret (mkConnectionResult true None))
    (fun x =>
       match x with
       | ThrowBitbucket e => ret (mkConnectionResult false (Some e))
       | ThrowError _ msg =>
           ret (mkConnectionResult false
                  (Some (mkBitbucketError
                           (if str_nonempty msg then msg else "Connection test failed")
                           None CONNECTION_TEST_FAILED
                           (JObj [("originalError", JObj [])])
                           (Some "Verify baseUrl, credentials, and network connectivity."%string)
                           true)))
       end).

Definition listCommits (c : BitbucketClient) (workspace repoSlug spec : jsval)
  : M jsval :=
  if isCloud c then
    request c
      (if truthy spec then
         "/repositories/" +:+ enc workspace +:+ "/" +:+ enc repoSlug
         +:+ "/commits/" +:+ enc spec
       else
         "/repositories/" +:+ enc workspace +:+ "/" +:+ enc repoSlug +:+ "/commits")
      no_init
  else
    request c
      (if truthy spec then
         "/projects/" +:+ enc workspace +:+ "/repos/" +:+ enc repoSlug
         +:+ "/commits?until=" +:+ enc spec
       else
         "/projects/" +:+ enc workspace +:+ "/repos/" +:+ enc repoSlug +:+ "/commits")
      no_init.

Definition approvePullRequest (c : BitbucketClient) (workspace repoSlug prId : jsval)
  : M jsval :=
  if isCloud c then
    request c ("/repositories/" +:+ enc workspace +:+ "/" +:+ enc repoSlug
               +:+ "/pullrequests/" +:+ ToString prId +:+ "/approve")
      (mkInit (Some POST) None)
  else
    request c ("/projects/" +:+ enc workspace +:+ "/repos/" +:+ enc repoSlug
               +:+ "/pull-requests/" +:+ ToString prId +:+ "/approve")
      (mkInit (Some POST) None).

Definition declinePullRequest (c : BitbucketClient) (workspace repoSlug prId : jsval)
  : M jsval :=
  if isCloud c then
    request c ("/repositories/" +:+ enc workspace +:+ "/" +:+ enc repoSlug
               +:+ "/pullrequests/" +:+ ToString prId +:+ "/decline")
      (mkInit (Some POST) None)
  else
    request c ("/projects/" +:+ enc workspace +:+ "/repos/" +:+ enc repoSlug
               +:+ "/pull-requests/" +:+ ToString prId +:+ "/decline")
      (mkInit (Some POST) None).

(** [if (cond) body.k = v]: the property is appended when the guard holds. *)
Definition set_if (cond : bool) (k : string) (v : jsval)
    (fields : list (string * jsval)) : list (string * jsval) :=
  if cond then fields ++ [(k, v)] else fields.

Definition mergePullRequest (c : BitbucketClient)
    (workspace repoSlug prId options : jsval) : M jsval :=
  if isCloud c then
    let body := [] in
    let body :=
      set_if (match get options "closeSourceBranch" with JUndefined => false | _ => true end)
        "close_source_branch" (get options "closeSourceBranch") body in
    let body :=
      set_if (truthy (get options "mergeStrategy"))
        "merge_strategy" (get options "mergeStrategy") body in
    let body :=
      set_if (truthy (get options "message")) "message" (get options "message") body in
    request c ("/repositories/" +:+ enc workspace +:+ "/" +:+ enc repoSlug
               +:+ "/pullrequests/" +:+ ToString prId +:+ "/merge")
      (mkInit (Some POST)
         (match body with [] => None | _ => JSON_stringify (JObj body) end))
  else
    let body := [("version", JNum 0)] in
    let body :=
      set_if (truthy (get options "message")) "message" (get options "message") body in
    request c ("/projects/" +:+ enc workspace +:+ "/repos/" +:+ enc repoSlug
               +:+ "/pull-requests/" +:+ ToString prId +:+ "/merge")
      (post (JObj body)).

Definition updatePullRequest (c : BitbucketClient)
    (workspace repoSlug prId updates : jsval) : M jsval :=
  if isCloud c then
    title ← lift (prop updates "title");
    let body := [] in
    let body := set_if (truthy title) "title" title body in
    let body :=
      set_if (truthy (get updates "description"))
        "description" (get updates "description") body in
    request c ("/repositories/" +:+ enc workspace +:+ "/" +:+ enc repoSlug
               +:+ "/pullrequests/" +:+ ToString prId) (put (JObj body))
  else
    title ← lift (prop updates "title");
    let body := [("version", JNum 0)] in
    let body := set_if (truthy title) "title" title body in
    let body :=
      set_if (truthy (get updates "description"))
        "description" (get updates "description") body in
    request c ("/projects/" +:+ enc workspace +:+ "/repos/" +:+ enc repoSlug
               +:+ "/pull-requests/" +:+ ToString prId) (put (JObj body)).

(** [xs.map(x => f(x))] for an [async] function [f]: the calls are all
    started, in list order, before any reply arrives. Each promise is kept
    with the position of the trace at which its call was issued. *)
Fixpoint start_all (ms : list (M jsval))
  : World -> Trace -> list (nat * Result jsval) * Trace :=
  fun w t =>
    match ms with
    | [] => ([], t)
    | m :: ms' =>
        let '(r, t1) := m w t in
        let '(rs, t2) := start_all ms' w t1 in
        ((length t, r) :: rs, t2)
    end.

(** The rejected promise that settles first. (Two replies do not arrive at
    the same instant; on equal instants the earlier call is taken.) *)
Fixpoint first_rejection (w : World) (rs : list (nat * Result jsval))
  : option (nat * Thrown) :=
  match rs with
  | [] => None
  | (_, Ok _) :: rs' => first_rejection w rs'
  | (i, Throw x) :: rs' =>
      match first_rejection w rs' with
      | Some (j, y) => if (settles w j <? settles w i)%nat then Some (j, y) else Some (i, x)
      | None => Some (i, x)
      end
  end.

Fixpoint resolved_values (rs : list (nat * Result jsval)) : list jsval :=
  match rs with
  | [] => []
  | (_, Ok a) :: rs' => a :: resolved_values rs'
  | (_, Throw _) :: rs' => resolved_values rs'
  end.

(** [Promise.all] over promises that were all started: it rejects with the
    rejection that comes first in time, whatever its place in the list, and
    when no promise rejects it resolves with the values in list order. *)
Definition promise_all (ms : list (M jsval)) : M (list jsval) :=
  fun w t =>
    let '(rs, t') := start_all ms w t in
    match first_rejection w rs with
    | Some (_, x) => (Throw x, t')
    | None => (Ok (resolved_values rs), t')
    end.

Definition addPullRequestReviewers (c : BitbucketClient)
    (workspace repoSlug prId reviewers : jsval) : M jsval :=
  match reviewers with
  | JArr rs =>
      if isCloud c then
        let body :=
          JObj [("reviewers", JArr (map (fun uuid => JObj [("uuid", uuid)]) rs))] in
        request c ("/repositories/" +:+ enc workspace +:+ "/" +:+ enc repoSlug
                   +:+ "/pullrequests/" +:+ ToString prId) (put body)
      else
        results ← promise_all
          (map (fun username =>
                  request c
                    ("/projects/" +:+ enc workspace +:+ "/repos/" +:+ enc repoSlug
                     +:+ "/pull-requests/" +:+ ToString prId +:+ "/participants")
                    (post (JObj [("user", JObj [("name", username)]);
                                 ("role", JStr "REVIEWER")])))
             rs);
        ret (JArr results)
  | JUndefined | JNull => lift (prop reviewers "join");; ret JUndefined
  | _ => lift (TypeError "reviewers.join is not a function")
  end.

Definition listPullRequestComments (c : BitbucketClient)
    (workspace repoSlug prId : jsval) : M jsval :=
  if isCloud c then
    request c ("/repositories/" +:+ enc workspace +:+ "/" +:+ enc repoSlug
               +:+ "/pullrequests/" +:+ ToString prId +:+ "/comments") no_init
  else
    request c ("/projects/" +:+ enc workspace +:+ "/repos/" +:+ enc repoSlug
               +:+ "/pull-requests/" +:+ ToString prId +:+ "/activities") no_init.

Definition getCommit (c : BitbucketClient) (workspace repoSlug commitHash : jsval)
  : M jsval :=
  if isCloud c then
    request c ("/repositories/" +:+ enc workspace +:+ "/" +:+ enc repoSlug
               +:+ "/commit/" +:+ enc commitHash) no_init
  else
    request c ("/projects/" +:+ enc workspace +:+ "/repos/" +:+ enc repoSlug
               +:+ "/commits/" +:+ enc commitHash) no_init.

Definition getCommitDiff (c : BitbucketClient) (workspace repoSlug commitHash : jsval)
  : M jsval :=
  if isCloud c then
    request c ("/repositories/" +:+ enc workspace +:+ "/" +:+ enc repoSlug
               +:+ "/diff/" +:+ enc commitHash) no_init
  else
    request c ("/projects/" +:+ enc workspace +:+ "/repos/" +:+ enc repoSlug
               +:+ "/commits/" +:+ enc commitHash +:+ "/diff") no_init.

Definition compareBranches (c : BitbucketClient)
    (workspace repoSlug source destination : jsval) : M jsval :=
  if isCloud c then
    request c ("/repositories/" +:+ enc workspace +:+ "/" +:+ enc repoSlug
               +:+ "/diff/" +:+ enc destination +:+ ".." +:+ enc source) no_init
  else
    request c ("/projects/" +:+ enc workspace +:+ "/repos/" +:+ enc repoSlug
               +:+ "/compare/diff?from=" +:+ enc source
               +:+ "&to=" +:+ enc destination) no_init.

Definition addInlineCommentAfterReview (c : BitbucketClient)
    (workspace repoSlug prId filePath line text lineType : jsval) : M jsval :=
  let lineType := match lineType with JUndefined => JStr "ADDED" | _ => lineType end in
  if isCloud c then
    let body :=
      JObj [("content", JObj [("raw", text)]);
            ("inline", JObj [("path", filePath); ("to", line)])] in
    request c ("/repositories/" +:+ enc workspace +:+ "/" +:+ enc repoSlug
               +:+ "/pullrequests/" +:+ ToString prId +:+ "/comments") (post body)
  else
    let body :=
      JObj [("text", text);
            ("anchor", JObj [("line", line); ("lineType", lineType);
                             ("fileType", JStr "TO"); ("path", filePath)])] in
    request c ("/projects/" +:+ enc workspace +:+ "/repos/" +:+ enc repoSlug
               +:+ "/pull-requests/" +:+ ToString prId +:+ "/comments") (post body).

End Client.

(* ================================================================== *)
(** * The tool registry and the session entry point ([src/cli.ts]) *)
(* ================================================================== *)

Module Cli.
Import Client.

(** One text block of a result: literal text, or the text
    [JSON.stringify(data, null, 2)], represented by its document. *)
Inductive TextBlock : Type :=
| TextRaw (text : string)
| TextJson (doc : option jsval).

(** The result envelope; an absent [isError] is [false]. *)
Record ToolResult : Type := mkResult {
  content : list TextBlock;
  isError : bool;
}.

(** A tool: its name, the [required] list of its input schema, its handler. *)
Record ToolDef : Type := mkTool {
  name : string;
  required : list string;
  handler : jsval -> M ToolResult;
}.

Definition jsonOut (data : jsval) : list TextBlock := [TextJson (JSON_stringify data)].

Definition getDefaultWorkspace (args : jsval) : Result jsval :=
  let w := get args "workspace" in
  if negb (truthy w) then Error "workspace parameter is required" else Ok w.

Definition getDefaultRepoSlug (args : jsval) : Result jsval :=
  let r := get args "repoSlug" in
  if negb (truthy r) then Error "repoSlug parameter is required" else Ok r.

Section Tools.

(** [main] builds the registry from the client, the loaded configuration
    and the local checkout; [currentBranch] is what
    [getCurrentBranch(findRepoRoot())] returns, [None] when it throws. *)
Variable client : BitbucketClient.
Variable defaultDestinationBranch : jsval.
Variable currentBranch : option string.

Definition ok_json (data : jsval) : M ToolResult := ret (mkResult (jsonOut data) false).

Definition repo_info : ToolDef :=
  mkTool "repo_info" ["workspace"; "repoSlug"]%string (fun args =>
    w ← lift (getDefaultWorkspace args);
    r ← lift (getDefaultRepoSlug args);
    data ← getRepo client w r;
    ok_json data).

Definition pr_list : ToolDef :=
  mkTool "pr_list" ["workspace"; "repoSlug"]%string (fun args =>
    w ← lift (getDefaultWorkspace args);
    r ← lift (getDefaultRepoSlug args);
    let s := js_or (get args "state") (JStr "OPEN") in
    data ← listPullRequests client w r s;
    ok_json data).

Definition pr_create : ToolDef :=
  mkTool "pr_create" ["workspace"; "repoSlug"; "title"]%string (fun args =>
    w ← lift (getDefaultWorkspace args);
    r ← lift (getDefaultRepoSlug args);
    sourceBranch ←
      (if negb (truthy (get args "sourceBranch")) then
         match currentBranch with
         | Some b => ret (JStr b)
         | None =>
             lift (Error "sourceBranch is required or must be in a git repository")
         end
       else ret (get args "sourceBranch"));
    let destBranch := js_or (get args "destBranch") defaultDestinationBranch in
    data ← createPullRequest client w r
      (JObj [("title", get args "title"); ("sourceBranch", sourceBranch);
             ("destBranch", destBranch);
             ("description", js_or (get args "description") (JStr ""))]);
    ok_json data).

Definition branches_list : ToolDef :=
  mkTool "branches_list" ["workspace"; "repoSlug"]%string (fun args =>
    w ← lift (getDefaultWorkspace args);
    r ← lift (getDefaultRepoSlug args);
    data ← listBranches client w r;
    ok_json data).

Definition branch_create : ToolDef :=
  mkTool "branch_create" ["workspace"; "repoSlug"; "name"; "targetHash"]%string
    (fun args =>
    w ← lift (getDefaultWorkspace args);
    r ← lift (getDefaultRepoSlug args);
    data ← createBranch client w r (get args "name") (get args "targetHash");
    ok_json data).

Definition workspaces_list : ToolDef :=
  mkTool "workspaces_list" [] (fun args =>
    data ← listWorkspaces client;
    ok_json data).

Definition repos_list : ToolDef :=
  mkTool "repos_list" ["workspace"]%string (fun args =>
    data ← listRepositories client (get args "workspace");
    ok_json data).

Definition pr_get : ToolDef :=
  mkTool "pr_get" ["workspace"; "repoSlug"; "prId"]%string (fun args =>
    w ← lift (getDefaultWorkspace args);
    r ← lift (getDefaultRepoSlug args);
    data ← getPullRequest client w r (get args "prId");
    ok_json data).

Definition pr_diff : ToolDef :=
  mkTool "pr_diff" ["workspace"; "repoSlug"; "prId"]%string (fun args =>
    w ← lift (getDefaultWorkspace args);
    r ← lift (getDefaultRepoSlug args);
    data ← getPullRequestDiff client w r (get args "prId");
    ok_json data).

Definition pr_changes : ToolDef :=
  mkTool "pr_changes" ["workspace"; "repoSlug"; "prId"]%string (fun args =>
    w ← lift (getDefaultWorkspace args);
    r ← lift (getDefaultRepoSlug args);
    data ← getPullRequestChanges client w r (get args "prId");
    ok_json data).

Definition pr_comment_add : ToolDef :=
  mkTool "pr_comment_add" ["workspace"; "repoSlug"; "prId"; "text"]%string
    (fun args =>
    w ← lift (getDefaultWorkspace args);
    r ← lift (getDefaultRepoSlug args);
    data ← addPullRequestComment client w r (get args "prId") (get args "text");
    ok_json data).

Definition file_content : ToolDef :=
  mkTool "file_content" ["workspace"; "repoSlug"; "filePath"; "commitHash"]%string
    (fun args =>
    w ← lift (getDefaultWorkspace args);
    r ← lift (getDefaultRepoSlug args);
    data ← getFileContent client w r (get args "filePath") (get args "commitHash");
    ok_json data).

Definition opt_num (o : option Z) : jsval :=
  match o with Some n => JNum n | None => JUndefined end.

Definition connection_test : ToolDef :=
  mkTool "connection_test" [] (fun args =>
    result ← testConnection client;
    if success result then
      ret (mkResult [TextRaw "Connection successful"] false)
    else
      let errorInfo :=
        match error result with
        | Some e =>
            JObj [("error", JStr (message e));
                  ("errorType", JStr (ErrorKind_name (errorType e)));
                  ("statusCode", opt_num (statusCode e));
                  ("suggestion", opt_str (suggestion e));
                  ("isRetryable", JBool (isRetryable e))]
        | None => JObj [("error", JStr "Connection failed")]
        end in
      ret (mkResult [TextJson (JSON_stringify errorInfo)] true)).

Definition commits_list : ToolDef :=
  mkTool "commits_list" ["workspace"; "repoSlug"]%string (fun args =>
    w ← lift (getDefaultWorkspace args);
    r ← lift (getDefaultRepoSlug args);
    data ← listCommits client w r (get args "spec");
    ok_json data).

Definition pr_approve : ToolDef :=
  mkTool "pr_approve" ["workspace"; "repoSlug"; "prId"]%string (fun args =>
    w ← lift (getDefaultWorkspace args);
    r ← lift (getDefaultRepoSlug args);
    data ← approvePullRequest client w r (get args "prId");
    ok_json data).

Definition pr_decline : ToolDef :=
  mkTool "pr_decline" ["workspace"; "repoSlug"; "prId"]%string (fun args =>
    w ← lift (getDefaultWorkspace args);
    r ← lift (getDefaultRepoSlug args);
    data ← declinePullRequest client w r (get args "prId");
    ok_json data).

Definition pr_merge : ToolDef :=
  mkTool "pr_merge" ["workspace"; "repoSlug"; "prId"]%string (fun args =>
    w ← lift (getDefaultWorkspace args);
    r ← lift (getDefaultRepoSlug args);
    let options := [] in
    let options :=
      set_if (match get args "closeSourceBranch" with JUndefined => false | _ => true end)
        "closeSourceBranch" (get args "closeSourceBranch") options in
    let options :=
      set_if (truthy (get args "mergeStrategy"))
        "mergeStrategy" (get args "mergeStrategy") options in
    let options :=
      set_if (truthy (get args "message")) "message" (get args "message") options in
    data ← mergePullRequest client w r (get args "prId") (JObj options);
    ok_json data).

Definition pr_update : ToolDef :=
  mkTool "pr_update" ["workspace"; "repoSlug"; "prId"]%string (fun args =>
    w ← lift (getDefaultWorkspace args);
    r ← lift (getDefaultRepoSlug args);
    let updates := [] in
    let updates :=
      set_if (truthy (get args "title")) "title" (get args "title") updates in
    let updates :=
      set_if (truthy (get args "description"))
        "description" (get args "description") updates in
    data ← updatePullRequest client w r (get args "prId") (JObj updates);
    ok_json data).

Definition pr_reviewers_add : ToolDef :=
  mkTool "pr_reviewers_add" ["workspace"; "repoSlug"; "prId"; "reviewers"]%string
    (fun args =>
    w ← lift (getDefaultWorkspace args);
    r ← lift (getDefaultRepoSlug args);
    let reviewers := get args "reviewers" in
    match reviewers with
    | JArr (_ :: _) =>
        data ← addPullRequestReviewers client w r (get args "prId") reviewers;
        ok_json data
    | _ => lift (Error "reviewers must be a non-empty array of strings")
    end).

Definition pr_comments_list : ToolDef :=
  mkTool "pr_comments_list" ["workspace"; "repoSlug"; "prId"]%string (fun args =>
    w ← lift (getDefaultWorkspace args);
    r ← lift (getDefaultRepoSlug args);
    data ← listPullRequestComments client w r (get args "prId");
    ok_json data).

Definition commit_get : ToolDef :=
  mkTool "commit_get" ["workspace"; "repoSlug"; "commitHash"]%string (fun args =>
    w ← lift (getDefaultWorkspace args);
    r ← lift (getDefaultRepoSlug args);
    data ← getCommit client w r (get args "commitHash");
    ok_json data).

Definition commit_diff : ToolDef :=
  mkTool "commit_diff" ["workspace"; "repoSlug"; "commitHash"]%string (fun args =>
    w ← lift (getDefaultWorkspace args);
    r ← lift (getDefaultRepoSlug args);
    data ← getCommitDiff client w r (get args "commitHash");
    ok_json data).

Definition branch_compare : ToolDef :=
  mkTool "branch_compare" ["workspace"; "repoSlug"; "source"; "destination"]%string
    (fun args =>
    w ← lift (getDefaultWorkspace args);
    r ← lift (getDefaultRepoSlug args);
    data ← compareBranches client w r (get args "source") (get args "destination");
    ok_json data).

Definition pr_inline_comment_add : ToolDef :=
  mkTool "pr_inline_comment_add"
    ["workspace"; "repoSlug"; "prId"; "filePath"; "line"; "text"]%string
    (fun args =>
    w ← lift (getDefaultWorkspace args);
    r ← lift (getDefaultRepoSlug args);
    data ← addInlineCommentAfterReview client w r (get args "prId")
      (get args "filePath") (get args "line") (get args "text")
      (js_or (get args "lineType") (JStr "ADDED"));
    ok_json data).

(** The registry, in the order of the [addTool] calls. *)
Definition tools : list ToolDef :=
  [repo_info; pr_list; pr_create; branches_list; branch_create;
   workspaces_list; repos_list; pr_get; pr_diff; pr_changes; pr_comment_add;
   file_content; connection_test; commits_list; pr_approve; pr_decline;
   pr_merge; pr_update; pr_reviewers_add; pr_comments_list; commit_get;
   commit_diff; branch_compare; pr_inline_comment_add].

End Tools.

(** The request of an "invoke tool" call: [req.params.name] and
    [req.params.arguments]. *)
Record CallToolRequest : Type := mkRequest {
  req_name : string;
  req_arguments : jsval;
}.

(** The fields put in the failure envelope of a [BitbucketError]. *)
Definition errorInfo (e : BitbucketError) : jsval :=
  JObj [("error", JStr (message e));
        ("errorType", JStr (ErrorKind_name (errorType e)));
        ("statusCode", opt_num (statusCode e));
        ("suggestion", opt_str (suggestion e));
        ("isRetryable", JBool (isRetryable e));
        ("details", details e)].

(** [String(e?.message || e)] for an [Error] object: its message, or what
    [Error.prototype.toString] prints when the message is empty. *)
Definition error_text (name msg : string) : string :=
  if str_nonempty msg then msg else name.

(** The [CallToolRequestSchema] handler, over a registry. *)
Definition callTool (registry : list ToolDef) (req : CallToolRequest) : M ToolResult :=
  let name' := req_name req in
  let args := js_or (req_arguments req) (JObj []) in
  match find (fun t => String.eqb (name t) name') registry with
  | None => ret (mkResult [TextRaw ("Tool not found: " +:+ name')] true)
  | Some t =>
      try_catch (handler t args)
        (fun e =>
           match e with
           | ThrowBitbucket e =>
               ret (mkResult [TextJson (JSON_stringify (errorInfo e))] true)
           | ThrowError n msg => ret (mkResult [TextRaw (error_text n msg)] true)
           end)
  end.

End Cli.

(* ================================================================== *)
(** * main: the client of the session *)
(* ================================================================== *)

Module Main.
Import Config.

(** The client that [main] builds from the loaded configuration, when the
    configuration holds strings where its type says so. *)
Definition main_client (config : BitbucketConfig) : option Client.BitbucketClient :=
  match ATLASSIAN_USER_EMAIL config, ATLASSIAN_API_TOKEN config, baseUrl config with
  | JStr email, JStr token, JStr url =>
      Some (Client.new_BitbucketClient
              (Client.mkOptions email token (Some url) (Some (authType config))))
  | _, _, _ => None
  end.

End Main.

(* ================================================================== *)
(** * Statement vocabulary *)
(* ================================================================== *)

Module Spec.
Import Client.

(** The operations of the client, with their arguments, and the method
    each one names. [testConnection] has a result type of its own and is
    treated apart. *)
Inductive Operation : Type :=
| OpGetRepo (workspace repoSlug : jsval)
| OpListPullRequests (workspace repoSlug state : jsval)
| OpCreatePullRequest (workspace repoSlug args : jsval)
| OpListBranches (workspace repoSlug : jsval)
| OpCreateBranch (workspace repoSlug name targetHash : jsval)
| OpListWorkspaces
| OpListRepositories (workspace : jsval)
| OpGetPullRequest (workspace repoSlug prId : jsval)
| OpGetPullRequestDiff (workspace repoSlug prId : jsval)
| OpGetPullRequestChanges (workspace repoSlug prId : jsval)
| OpAddPullRequestComment (workspace repoSlug prId text : jsval)
| OpGetFileContent (workspace repoSlug filePath commitHash : jsval)
| OpListCommits (workspace repoSlug spec : jsval)
| OpApprovePullRequest (workspace repoSlug prId : jsval)
| OpDeclinePullRequest (workspace repoSlug prId : jsval)
| OpMergePullRequest (workspace repoSlug prId options : jsval)
| OpUpdatePullRequest (workspace repoSlug prId updates : jsval)
| OpAddPullRequestReviewers (workspace repoSlug prId reviewers : jsval)
| OpListPullRequestComments (workspace repoSlug prId : jsval)
| OpGetCommit (workspace repoSlug commitHash : jsval)
| OpGetCommitDiff (workspace repoSlug commitHash : jsval)
| OpCompareBranches (workspace repoSlug source destination : jsval)
| OpAddInlineComment (workspace repoSlug prId filePath line text lineType : jsval).

Definition perform (c : BitbucketClient) (op : Operation) : M jsval :=
  match op with
  | OpGetRepo w r => getRepo c w r
  | OpListPullRequests w r s => listPullRequests c w r s
  | OpCreatePullRequest w r a => createPullRequest c w r a
  | OpListBranches w r => listBranches c w r
  | OpCreateBranch w r n h => createBranch c w r n h
  | OpListWorkspaces => listWorkspaces c
  | OpListRepositories w => listRepositories c w
  | OpGetPullRequest w r p => getPullRequest c w r p
  | OpGetPullRequestDiff w r p => getPullRequestDiff c w r p
  | OpGetPullRequestChanges w r p => getPullRequestChanges c w r p
  | OpAddPullRequestComment w r p x => addPullRequestComment c w r p x
  | OpGetFileContent w r f h => getFileContent c w r f h
  | OpListCommits w r s => listCommits c w r s
  | OpApprovePullRequest w r p => approvePullRequest c w r p
  | OpDeclinePullRequest w r p => declinePullRequest c w r p
  | OpMergePullRequest w r p o => mergePullRequest c w r p o
  | OpUpdatePullRequest w r p u => updatePullRequest c w r p u
  | OpAddPullRequestReviewers w r p rs => addPullRequestReviewers c w r p rs
  | OpListPullRequestComments w r p => listPullRequestComments c w r p
  | OpGetCommit w r h => getCommit c w r h
  | OpGetCommitDiff w r h => getCommitDiff c w r h
  | OpCompareBranches w r s d => compareBranches c w r s d
  | OpAddInlineComment w r p f l x lt => addInlineCommentAfterReview c w r p f l x lt
  end.

(** The one operation that calls [fetch] instead of [request]. *)
Definition uses_fetch (c : BitbucketClient) (op : Operation) : bool :=
  match op with
  | OpGetFileContent _ _ _ _ => isCloud c
  | _ => false
  end.

(** The status-code table of the specification: the kind and the
    retryability it fixes for an HTTP failure status. *)
Definition status_table (status : Z) : ErrorKind * bool :=
  if status =? 401 then (AUTHENTICATION_ERROR, false)
  else if status =? 403 then (PERMISSION_ERROR, false)
  else if status =? 404 then (NOT_FOUND_ERROR, false)
  else if status =? 400 then (VALIDATION_ERROR, false)
  else if status =? 409 then (CONFLICT_ERROR, false)
  else if status =? 429 then (RATE_LIMIT_ERROR, true)
  else if 500 <=? status then (SERVER_ERROR, true)
  else (UNKNOWN_ERROR, false).

(** What the Cloud file fetch does instead. *)
Definition file_status_table (status : Z) : ErrorKind * bool :=
  if status =? 404 then (FILE_NOT_FOUND, false)
  else if status =? 401 then (AUTHENTICATION_ERROR, false)
  else (FILE_FETCH_ERROR, 500 <=? status).

(** Position [i] of the trace [t'] holds the call, among those issued after
    [t], whose failure comes first in time: the remote side answers it with
    a failure status, and every other call of the operation is resolved or
    gets its reply later. *)
Definition first_failure (w : World) (t t' : Trace) (i : nat) (status : Z) : Prop :=
  (length t <= i)%nat
  /\ (exists call data msg,
        t' !! i = Some call
        /\ axios_reply w i call = AxiosRejected (BadStatus status data msg))
  /\ (forall j call, (length t <= j)%nat -> j <> i -> t' !! j = Some call ->
        (exists s d, axios_reply w j call = AxiosResolved s d)
        \/ (settles w i < settles w j)%nat).

(** The result is a thrown [BitbucketError] that carries the status and has
    the kind and retryability of a table. *)
Definition thrown_by {A} (table : Z -> ErrorKind * bool) (r : Result A) (status : Z)
  : Prop :=
  exists e, r = Throw (ThrowBitbucket e)
            /\ statusCode e = Some status
            /\ (errorType e, isRetryable e) = table status.

(** A computation only adds calls to the trace, and the failure status
    that comes first among its calls makes it throw by the status-code
    table. *)
Definition Conforms {A} (m : M A) : Prop :=
  forall w t,
    (exists ext, snd (m w t) = t ++ ext)
    /\ forall i status,
         first_failure w t (snd (m w t)) i status ->
         thrown_by status_table (fst (m w t)) status.

(** An object literal with optional properties: absent ones are left out. *)
Definition field (k : string) (v : option jsval) : list (string * jsval) :=
  match v with Some x => [(k, x)] | None => [] end.

(** A value of the [options] type of [mergePullRequest]. *)
Definition merge_options (closeSourceBranch : option bool)
    (mergeStrategy message : option string) : jsval :=
  JObj (field "closeSourceBranch" (JBool <$> closeSourceBranch)
        ++ field "mergeStrategy" (JStr <$> mergeStrategy)
        ++ field "message" (JStr <$> message)).

(** A value of the [updates] type of [updatePullRequest]. *)
Definition update_fields (title description : option string) : jsval :=
  JObj (field "title" (JStr <$> title) ++ field "description" (JStr <$> description)).

(** The property sent for an optional string: present when the string is
    given and is not empty. *)
Definition sent (k : string) (v : option string) : list (string * jsval) :=
  match v with
  | Some s => if str_nonempty s then [(k, JStr s)] else []
  | None => []
  end.

(** The path of [getRepo] for a base URL, as the specification gives it. *)
Definition getRepo_path (url ws rs : string) : string :=
  if includes url CLOUD_HOST then
    "/repositories/" +:+ encodeURIComponent ws +:+ "/" +:+ encodeURIComponent rs
  else
    "/projects/" +:+ encodeURIComponent ws +:+ "/repos/" +:+ encodeURIComponent rs.

(** The path of [compareBranches] in each dialect, as the specification
    gives it. *)
Definition compare_path (cloud : bool) (ws rs source destination : string) : string :=
  if cloud then
    "/repositories/" +:+ encodeURIComponent ws +:+ "/" +:+ encodeURIComponent rs
    +:+ "/diff/" +:+ encodeURIComponent destination +:+ ".."
    +:+ encodeURIComponent source
  else
    "/projects/" +:+ encodeURIComponent ws +:+ "/repos/" +:+ encodeURIComponent rs
    +:+ "/compare/diff?from=" +:+ encodeURIComponent source
    +:+ "&to=" +:+ encodeURIComponent destination.

(** A percent-encoded segment is made of unreserved characters and [%]. *)
Definition uri_safe (s : string) : Prop :=
  forallb (fun ch => is_alnum ch || char_in ch "-_.!~*'()%")
    (list_ascii_of_string s) = true.

(** A Server-dialect client of the examples, and a Cloud one. *)
Definition server_client : BitbucketClient :=
  new_BitbucketClient
    (mkOptions "dev@example.com" "secret"
       (Some "https://git.example.com/rest/api/1.0"%string) None).

Definition cloud_client : BitbucketClient :=
  new_BitbucketClient (mkOptions "dev@example.com" "secret" None None).

(** A remote side that accepts every call with an empty reply. *)
Definition quiet_world : World :=
  mkWorld (fun _ _ => AxiosResolved 200 JNull)
    (fun _ _ => FetchResponse 200 (Some ""%string)) (fun n => n).


(** ** Configurations of the examples *)

Definition credentials_file (site : string) : jsval :=
  JObj [("bitbucket",
         JObj [("environments",
                JObj [("ATLASSIAN_SITE_URL", JStr site);
                      ("ATLASSIAN_USER_EMAIL", JStr "file@example.com");
                      ("ATLASSIAN_API_TOKEN", JStr "file-token")])])].

(** The environment of a checkout with a [.env] file that sets the Cloud
    credentials. *)
Definition dotenv_env : gmap string string :=
  list_to_map [("ATLASSIAN_SITE_URL", "bitbucket");
               ("ATLASSIAN_USER_EMAIL", "env@example.com");
               ("ATLASSIAN_API_TOKEN", "env-token")]%string.

(** A working directory with the [.env] file (not JSON) and a JSON
    configuration file for a Server installation. *)
Definition dotenv_and_json_dir : gmap string (option jsval) :=
  list_to_map
    [(".env"%string, None);
     ("mcp.config.json"%string,
      Some (credentials_file "https://git.example.com/rest/api/1.0"))].

(** An environment that spells out the Cloud API URL. *)
Definition cloud_url_env : gmap string string :=
  list_to_map [("ATLASSIAN_SITE_URL", "https://api.bitbucket.org/2.0");
               ("ATLASSIAN_USER_EMAIL", "env@example.com");
               ("ATLASSIAN_API_TOKEN", "env-token")]%string.

(** A remote side that answers every call with the same failure status. *)
Definition status_world (status : Z) : World :=
  mkWorld (fun _ _ => AxiosRejected (BadStatus status JNull "Request failed"))
    (fun _ _ => FetchResponse status (Some ""%string)) (fun n => n).



(** A remote side that answers the first call of a session with a 404 and
    every later one with a 500, the reply to the first call being the last
    to arrive. *)
Definition racing_world : World :=
  mkWorld
    (fun n _ =>
       AxiosRejected (BadStatus (if (n =? 0)%nat then 404 else 500) JNull "Request failed"))
    (fun _ _ => FetchRejected "fetch failed")
    (fun n => (10 - n)%nat).

(** The call that [request] issues, and the outcome of the request when
    that call is issued at position [n] of the trace. *)
Definition call_of (c : BitbucketClient) (path : string) (init : RequestInit) : NetCall :=
  AxiosCall (baseUrl c) (default GET (init_method init)) path (init_body init).

Definition reply_of (c : BitbucketClient) (w : World) (n : nat)
    (path : string) (init : RequestInit) : Result jsval :=
  match axios_reply w n (call_of c path init) with
  | AxiosResolved _ data => Ok data
  | AxiosRejected err =>
      Throw (ThrowBitbucket (request_error path (default GET (init_method init)) err))
  end.

End Spec.

(* ================================================================== *)
(** * Statement vocabulary for the remote-descriptor parser *)
(* ================================================================== *)

Module GitSpec.
Import Regex.

(** [s] is [p] up to letter case. *)
Fixpoint ci_eqb (p s : string) : bool :=
  match p, s with
  | EmptyString, EmptyString => true
  | String a p', String b s' => char_ci a b && ci_eqb p' s'
  | _, _ => false
  end.

(** The character [c] does not occur in [s]. *)
Definition lacks (c : ascii) (s : string) : bool :=
  forallb (fun b => negb (Ascii.eqb b c)) (list_ascii_of_string s).

(** No line terminator starts anywhere in [s]. *)
Fixpoint single_line (s : string) : bool :=
  match s with
  | EmptyString => true
  | String _ t => negb (line_terminator_at s) && single_line t
  end.

(** What may follow the repository part: nothing, or [.git] in any case. *)
Definition tail_ok (r : string) : bool :=
  match r with EmptyString => true | _ => ci_eqb ".git" r end.

(** The shortest non-empty prefix of [rest] after which only an optional
    [.git] is left: what the lazy group [(.+?)] ends up capturing. *)
Fixpoint lazy_slug (rest : string) : string :=
  match rest with
  | EmptyString => ""
  | String c t => if tail_ok t then String c "" else String c (lazy_slug t)
  end.

(** [http] or [https], in any case. *)
Definition scheme_ok (sch : string) : bool := ci_eqb "http" sch || ci_eqb "https" sch.

(** The SSH shape the code accepts: [git@<host>:<workspace>/<rest>]. *)
Definition ssh_shape (s : string) : Prop :=
  exists g host ws rest,
    s = g +:+ "@" +:+ host +:+ ":" +:+ ws +:+ "/" +:+ rest
    /\ ci_eqb "git" g = true
    /\ host <> ""%string /\ lacks ":" host = true
    /\ ws <> ""%string /\ lacks "/" ws = true
    /\ rest <> ""%string /\ single_line rest = true.

(** The HTTPS shape: [http(s)://[<user>@]<host>/<workspace>/<rest>]. *)
Definition https_shape (s : string) : Prop :=
  exists sch auth host ws rest,
    s = sch +:+ "://" +:+ auth +:+ host +:+ "/" +:+ ws +:+ "/" +:+ rest
    /\ scheme_ok sch = true
    /\ (auth = ""%string
        \/ exists user, auth = user +:+ "@" /\ user <> ""%string /\ lacks "@" user = true)
    /\ host <> ""%string /\ lacks "/" host = true
    /\ ws <> ""%string /\ lacks "/" ws = true
    /\ rest <> ""%string /\ single_line rest = true.

End GitSpec.

(* ================================================================== *)
(** * Notions used by the further properties *)
(* ================================================================== *)

Module ConfigSpec.
Import Config Spec.

(** A configuration file that [loadConfig] can use: it exists, parses, passes
    the guard and builds without throwing. *)
Definition usable (dir : Directory) (p : string) : Prop :=
  exists raw cfg, dir !! p = Some (Some raw) /\ config_of_file raw = Some (Ok cfg).

(** An environment with the credentials and a default branch, no site URL. *)
Definition env_shell : gmap string string :=
  list_to_map [("ATLASSIAN_USER_EMAIL", "env@example.com");
               ("ATLASSIAN_API_TOKEN", "env-token");
               ("BITBUCKET_DEFAULT_DEST_BRANCH", "develop")]%string.

(** A working directory whose three configuration files are all unusable:
    one does not parse, one has no [environments], one has no site URL. *)
Definition broken_dir : gmap string (option jsval) :=
  list_to_map
    [("mcp.config.json"%string, None);
     (".mcp.config.json"%string, Some (JObj [("bitbucket", JObj [])]));
     (".bitbucket.mcp.json"%string,
      Some (JObj [("bitbucket",
                   JObj [("environments",
                          JObj [("ATLASSIAN_USER_EMAIL", JStr "file@example.com")])])]))].

(** A configuration file whose site URL is the empty string. *)
Definition empty_site_dir : gmap string (option jsval) :=
  list_to_map [("mcp.config.json"%string, Some (credentials_file ""))].

End ConfigSpec.

Module ClientSpec.
Import Client Spec.

(** A path of the Cloud dialect, and one of the Server dialect. *)
Definition cloud_path (p : string) : bool :=
  String.prefix "/repositories/" p || String.eqb p "/workspaces".

Definition server_path (p : string) : bool :=
  String.prefix "/projects/" p || String.eqb p "/projects".

(** A call that a client may issue: through its own axios instance, on a
    path of its dialect, never a DELETE, with no body on a GET; or, for a
    Cloud client, a fetch below [/repositories/] of its base URL. *)
Definition own_call (c : BitbucketClient) (call : NetCall) : Prop :=
  match call with
  | AxiosCall b m p body =>
      b = baseUrl c
      /\ (if isCloud c then cloud_path p else server_path p) = true
      /\ m <> DELETE
      /\ (m = GET -> body = None)
  | FetchCall url =>
      isCloud c = true
      /\ String.prefix (baseUrl c +:+ "/repositories/") url = true
  end.

(** The number of calls an operation may issue: one, except for adding
    reviewers on the Server dialect, which issues one per reviewer. *)
Definition call_bound (c : BitbucketClient) (op : Operation) : nat :=
  match op with
  | OpAddPullRequestReviewers _ _ _ (JArr rs) =>
      if isCloud c then 1%nat else length rs
  | _ => 1%nat
  end.

(** A computation of the client that adds at most [n] calls, all of them
    its own, and that throws a [BitbucketError] only after a call, with a
    suggestion. *)
Definition Behaves (c : BitbucketClient) (n : nat) {A} (m : M A) : Prop :=
  forall w t,
    exists ext,
      snd (m w t) = t ++ ext
      /\ (length ext <= n)%nat
      /\ Forall (own_call c) ext
      /\ forall e, fst (m w t) = Throw (ThrowBitbucket e) ->
                   ext <> [] /\ is_Some (suggestion e).

(** The kinds that [request] marks as retryable. *)
Definition retryable_kind (k : ErrorKind) : bool :=
  match k with
  | RATE_LIMIT_ERROR | SERVER_ERROR | NETWORK_ERROR | TIMEOUT_ERROR => true
  | _ => false
  end.

(** The kind of a failure without a response, by its error code. *)
Definition no_response_kind (code : option string) : ErrorKind :=
  match code with
  | Some s =>
      if String.eqb s "ENOTFOUND" || String.eqb s "ECONNREFUSED" then NETWORK_ERROR
      else if String.eqb s "ETIMEDOUT" then TIMEOUT_ERROR
      else UNKNOWN_ERROR
  | None => UNKNOWN_ERROR
  end.

(** The participant request of one reviewer on the Server dialect. *)
Definition reviewer_call (c : BitbucketClient) (ws rs : string) (prId : Z)
    (username : string) : NetCall :=
  AxiosCall (baseUrl c) POST
    ("/projects/" +:+ encodeURIComponent ws +:+ "/repos/" +:+ encodeURIComponent rs
     +:+ "/pull-requests/" +:+ pretty prId +:+ "/participants")
    (Some (JObj [("user", JObj [("name", JStr username)]);
                 ("role", JStr "REVIEWER")])).

(** The value of a hexadecimal digit. *)
Definition hex_value (c : ascii) : option nat :=
  let n := nat_of_ascii c in
  if between 48 57 n then Some (n - 48)%nat
  else if between 65 70 n then Some (n - 55)%nat
  else if between 97 102 n then Some (n - 87)%nat
  else None.

(** The inverse of the percent-encoding, on bytes: every [%XX] is read back
    as one byte, and a [%] that starts no such triple is refused. *)
Fixpoint percent_decode (s : string) : option string :=
  match s with
  | EmptyString => Some EmptyString
  | String c rest =>
      if Ascii.eqb c "%" then
        match rest with
        | String h (String l rest') =>
            match hex_value h, hex_value l, percent_decode rest' with
            | Some a, Some b, Some r => Some (String (ascii_of_nat (16 * a + b)) r)
            | _, _, _ => None
            end
        | _ => None
        end
      else
        match percent_decode rest with
        | Some r => Some (String c r)
        | None => None
        end
  end.

End ClientSpec.

Module CliSpec.
Import Client Cli Spec.

(** The number of calls one invocation of a tool may issue. *)
Definition tool_bound (c : BitbucketClient) (tool : string) (args : jsval) : nat :=
  if String.eqb tool "pr_reviewers_add" && negb (isCloud c) then
    match get args "reviewers" with JArr rs => length rs | _ => 1%nat end
  else 1%nat.

(** A result that a tool returns by itself: the JSON text of some data, or
    the report of the connection test. *)
Definition tool_output (r : ToolResult) : Prop :=
  (exists data, r = mkResult (jsonOut data) false)
  \/ r = mkResult [TextRaw "Connection successful"] false
  \/ exists info, r = mkResult [TextJson (Some info)] true.

(** The arguments of a [pr_create] invocation: the required ones and the
    optional branches. *)
Definition pr_create_args (ws rs title : string) (sourceBranch destBranch : option string)
  : jsval :=
  JObj ([("workspace", JStr ws); ("repoSlug", JStr rs); ("title", JStr title)]
        ++ field "sourceBranch" (JStr <$> sourceBranch)
        ++ field "destBranch" (JStr <$> destBranch)).

(** [given || fallback] on an optional string. *)
Definition or_else (given : option string) (fallback : option string) : option string :=
  match given with
  | Some s => if str_nonempty s then Some s else fallback
  | None => fallback
  end.
(** The call of [createPullRequest] for a title, a source and a destination
    branch, with the empty description. *)
Definition pr_create_call (c : BitbucketClient) (ws rs title src dst : string) : NetCall :=
  if isCloud c then
    AxiosCall (baseUrl c) POST
      ("/repositories/" +:+ encodeURIComponent ws +:+ "/" +:+ encodeURIComponent rs
       +:+ "/pullrequests")
      (Some (JObj [("title", JStr title); ("description", JStr "");
                   ("source", JObj [("branch", JObj [("name", JStr src)])]);
                   ("destination", JObj [("branch", JObj [("name", JStr dst)])])]))
  else
    let repository :=
      JObj [("slug", JStr rs); ("name", JNull); ("project", JObj [("key", JStr ws)])] in
    AxiosCall (baseUrl c) POST
      ("/projects/" +:+ encodeURIComponent ws +:+ "/repos/" +:+ encodeURIComponent rs
       +:+ "/pull-requests")
      (Some (JObj [("title", JStr title); ("description", JStr "");
                   ("state", JStr "OPEN"); ("open", JBool true); ("closed", JBool false);
                   ("fromRef", JObj [("id", JStr ("refs/heads/" +:+ src));
                                     ("repository", repository)]);
                   ("toRef", JObj [("id", JStr ("refs/heads/" +:+ dst));
                                   ("repository", repository)]);
                   ("locked", JBool false); ("reviewers", JArr [])])).

End CliSpec.

Module CheckoutSpec.

(** The directories from [dir] upwards: [dir], its parent, and so on,
    [n + 1] of them. *)
Definition ancestors (dirname : string -> string) (n : nat) (dir : string) : list string :=
  map (fun k => Nat.iter k dirname dir) (seq 0 (S n)).

(** The parents in a small tree, the root being its own parent. *)
Definition home_dirname (dir : string) : string :=
  if String.eqb dir "/home/dev/repo/src" then "/home/dev/repo"
  else if String.eqb dir "/home/dev/repo" then "/home/dev"
  else if String.eqb dir "/home/dev" then "/home"
  else "/".

End CheckoutSpec.

(* ================================================================== *)
(** * Proof tools *)
(* ================================================================== *)

(** Unfolding of the operations of [M]. *)
Ltac unfold_m :=
  unfold mbind, M_bind, mret, M_ret, bind, ret, throw, lift, try_catch in *.

(** One step through a matcher: from a result of [l ≫= f] to an
    alternative of [l] and a result of [f] on it. *)
Tactic Notation "unbind" hyp(H) "as" simple_intropattern(p) ident(Hin) :=
  apply list_elem_of_bind in H as (p & H & Hin); cbv beta iota in H.

(* ================================================================== *)
(** * Facts about strings *)
(* ================================================================== *)

Module StringFacts.

Lemma cons_app (c : ascii) (s : string) : String c "" +:+ s = String c s.
Proof. reflexivity. Qed.

Lemma app_cons (c : ascii) (a b : string) : String c a +:+ b = String c (a +:+ b).
Proof. reflexivity. Qed.

Lemma append_assoc (a b c : string) : (a +:+ b) +:+ c = a +:+ b +:+ c.
Proof.
  induction a as [|ch a IH]; [reflexivity|].
  rewrite !app_cons, IH. reflexivity.
Qed.

Lemma append_nil_r (s : string) : s +:+ "" = s.
Proof. induction s as [|c s IH]; [reflexivity|]. rewrite app_cons, IH. reflexivity. Qed.

Lemma length_append (a b : string) :
  String.length (a +:+ b) = (String.length a + String.length b)%nat.
Proof.
  induction a as [|c a IH]; [reflexivity|]. rewrite app_cons. simpl. rewrite IH.
  reflexivity.
Qed.

End StringFacts.

(* ================================================================== *)
(** * Verified properties of the client *)
(* ================================================================== *)

Module ClientProps.
Import Client Spec StringFacts.


Lemma includes_prefix (s needle : string) :
  String.prefix needle s = true -> includes s needle = true.
Proof. intros H. destruct s; simpl in *; rewrite H; reflexivity. Qed.

(** The second disjunct of the constructor's [isCloud] adds nothing: the
    Cloud API URL contains the host marker. *)
Lemma isCloud_new (opts : BitbucketClientOptions) :
  isCloud (new_BitbucketClient opts)
  = includes (baseUrl (new_BitbucketClient opts)) CLOUD_HOST.
Proof.
  unfold new_BitbucketClient; simpl.
  set (b := match opt_baseUrl opts with
            | Some u => if str_nonempty u then u else CLOUD_API
            | None => CLOUD_API
            end).
  destruct (String.eqb b CLOUD_API) eqn:E.
  - apply String.eqb_eq in E. rewrite E. reflexivity.
  - apply orb_false_r.
Qed.

Lemma request_trace (c : BitbucketClient) path init (w : World) (t : Trace) :
  snd (request c path init w t)
  = t ++ [AxiosCall (baseUrl c) (default GET (init_method init)) path (init_body init)].
Proof. unfold request. destruct (axios_reply _ _ _); reflexivity. Qed.

(** C1. For every client built by the constructor and all strings [ws] and
    [rs], [getRepo(ws, rs)] adds exactly one call to the trace, a GET whose
    path is [/repositories/{ws}/{rs}] when the client's base URL contains
    [api.bitbucket.org] and [/projects/{ws}/repos/{rs}] otherwise, both
    segments percent-encoded. The dialect flag is the value computed from
    the base URL by the constructor, and a second call on the same client
    uses the same dialect. *)
Theorem getRepo_one_get_per_dialect
    (opts : BitbucketClientOptions) (ws rs ws' rs' : string)
    (w : World) (t : Trace) :
  let c := new_BitbucketClient opts in
  let call a b := AxiosCall (baseUrl c) GET (getRepo_path (baseUrl c) a b) None in
  isCloud c = includes (baseUrl c) CLOUD_HOST
  /\ snd (getRepo c (JStr ws) (JStr rs) w t) = t ++ [call ws rs]
  /\ snd (getRepo c (JStr ws') (JStr rs') w (snd (getRepo c (JStr ws) (JStr rs) w t)))
     = t ++ [call ws rs; call ws' rs'].
Proof.
  intros c call.
  assert (Hc : isCloud c = includes (baseUrl c) CLOUD_HOST) by apply isCloud_new.
  assert (H1 : forall a b t0,
             snd (getRepo c (JStr a) (JStr b) w t0) = t0 ++ [call a b]).
  { intros a b t0. unfold getRepo, call, getRepo_path. rewrite <- Hc.
    destruct (isCloud c); rewrite request_trace; reflexivity. }
  split; [exact Hc|]. split; [apply H1|].
  rewrite !H1, <- app_assoc. reflexivity.
Qed.

Example getRepo_cloud_example :
  snd (getRepo cloud_client (JStr "ws") (JStr "repo") quiet_world [])
  = [AxiosCall "https://api.bitbucket.org/2.0" GET "/repositories/ws/repo" None].
Proof. reflexivity. Qed.

Example getRepo_server_example :
  snd (getRepo server_client (JStr "ws") (JStr "my repo") quiet_world [])
  = [AxiosCall "https://git.example.com/rest/api/1.0" GET
       "/projects/ws/repos/my%20repo" None].
Proof. reflexivity. Qed.

Lemma percent_safe (c : ascii) : uri_safe (percent c).
Proof. destruct c as [[] [] [] [] [] [] [] []]; vm_compute; reflexivity. Qed.

Lemma uri_safe_app (a b : string) : uri_safe a -> uri_safe b -> uri_safe (a +:+ b).
Proof.
  unfold uri_safe. induction a as [|ch a IH]; simpl; intros Ha Hb; [exact Hb|].
  apply andb_true_iff in Ha as [H1 H2]. rewrite H1. simpl. auto.
Qed.

Lemma encodeURIComponent_safe (s : string) : uri_safe (encodeURIComponent s).
Proof.
  induction s as [|c s IH]; simpl; [reflexivity|].
  apply uri_safe_app; [|exact IH].
  destruct (is_alnum c || char_in c "-_.!~*'()") eqn:E; [|apply percent_safe].
  unfold uri_safe. simpl. rewrite andb_true_r.
  apply orb_true_iff in E as [E|E]; [rewrite E; reflexivity|].
  apply orb_true_iff; right.
  unfold char_in in *. simpl in *.
  repeat (destruct (Ascii.eqb c _); [reflexivity|]). discriminate.
Qed.

(** C8. For all branch names, [compareBranches] issues one GET: on the
    Cloud dialect of [.../diff/{destination}..{source}], the destination
    first; on the Server dialect of
    [.../compare/diff?from={source}&to={destination}]. The branch names are
    percent-encoded in both, so that none of their characters can act as a
    delimiter of the path or of the query. *)
Theorem compareBranches_request
    (c : BitbucketClient) (ws rs source destination : string)
    (w : World) (t : Trace) :
  snd (compareBranches c (JStr ws) (JStr rs) (JStr source) (JStr destination) w t)
  = t ++ [AxiosCall (baseUrl c) GET
            (compare_path (isCloud c) ws rs source destination) None]
  /\ uri_safe (encodeURIComponent source)
  /\ uri_safe (encodeURIComponent destination).
Proof.
  split; [|split; apply encodeURIComponent_safe].
  unfold compareBranches, compare_path.
  destruct (isCloud c); rewrite request_trace; reflexivity.
Qed.

Example compareBranches_cloud_example :
  snd (compareBranches cloud_client (JStr "ws") (JStr "repo")
         (JStr "feature/x") (JStr "main") quiet_world [])
  = [AxiosCall "https://api.bitbucket.org/2.0" GET
       "/repositories/ws/repo/diff/main..feature%2Fx" None].
Proof. reflexivity. Qed.

Example compareBranches_server_example :
  snd (compareBranches server_client (JStr "ws") (JStr "repo")
         (JStr "feature/x") (JStr "main") quiet_world [])
  = [AxiosCall "https://git.example.com/rest/api/1.0" GET
       "/projects/ws/repos/repo/compare/diff?from=feature%2Fx&to=main" None].
Proof. reflexivity. Qed.

(** C6 (as stated) fails: an empty message is a provided message, and the
    Server-dialect merge leaves it out of the body. *)
Lemma mergePullRequest_empty_message_not_sent :
  let options := merge_options None None (Some ""%string) in
  get options "message" = JStr ""
  /\ snd (mergePullRequest server_client (JStr "PRJ") (JStr "repo") (JNum 7)
            options quiet_world [])
     = [AxiosCall "https://git.example.com/rest/api/1.0" POST
          "/projects/PRJ/repos/repo/pull-requests/7/merge"
          (Some (JObj [("version", JNum 0)]))].
Proof. split; reflexivity. Qed.

(** C6 (amended). On the Server dialect, for every options value,
    [mergePullRequest] issues a single POST (no read of the current version
    comes first) whose body has [version] 0, has [message] exactly when
    [options.message] is a non-empty string, and has nothing of
    [closeSourceBranch] and [mergeStrategy]; absent options give the body
    [{version: 0}]. Likewise [updatePullRequest] issues a single PUT whose
    body has [version] 0 and the title and description that are non-empty
    strings. *)
Theorem server_merge_update_version_zero
    (c : BitbucketClient) (ws rs : string) (prId : Z)
    (closeSourceBranch : option bool) (mergeStrategy message : option string)
    (title description : option string) (w : World) (t : Trace) :
  isCloud c = false ->
  let pr := "/projects/" +:+ encodeURIComponent ws +:+ "/repos/"
            +:+ encodeURIComponent rs +:+ "/pull-requests/" +:+ pretty prId in
  snd (mergePullRequest c (JStr ws) (JStr rs) (JNum prId)
         (merge_options closeSourceBranch mergeStrategy message) w t)
  = t ++ [AxiosCall (baseUrl c) POST (pr +:+ "/merge")
            (Some (JObj (("version", JNum 0) :: sent "message" message)))]
  /\ snd (mergePullRequest c (JStr ws) (JStr rs) (JNum prId) JUndefined w t)
     = t ++ [AxiosCall (baseUrl c) POST (pr +:+ "/merge")
               (Some (JObj [("version", JNum 0)]))]
  /\ snd (updatePullRequest c (JStr ws) (JStr rs) (JNum prId)
            (update_fields title description) w t)
     = t ++ [AxiosCall (baseUrl c) PUT pr
               (Some (JObj (("version", JNum 0)
                            :: sent "title" title ++ sent "description" description)))].
Proof.
  intros Hs pr. unfold pr.
  repeat split.
  - unfold mergePullRequest. rewrite Hs, request_trace.
    destruct closeSourceBranch, mergeStrategy, message as [[|ch m]|];
      simpl; rewrite !append_assoc; reflexivity.
  - unfold mergePullRequest. rewrite Hs, request_trace.
    simpl; rewrite !append_assoc; reflexivity.
  - unfold updatePullRequest. rewrite Hs. unfold_m.
    destruct title as [[|ch1 m1]|], description as [[|ch2 m2]|];
      simpl; rewrite request_trace; reflexivity.
Qed.

Lemma server_merge_update_version_zero_witness :
  isCloud server_client = false
  /\ snd (mergePullRequest server_client (JStr "PRJ") (JStr "repo") (JNum 7)
            (merge_options (Some true) (Some "squash"%string) (Some "ship it"%string))
            quiet_world [])
     = [AxiosCall "https://git.example.com/rest/api/1.0" POST
          "/projects/PRJ/repos/repo/pull-requests/7/merge"
          (Some (JObj [("version", JNum 0); ("message", JStr "ship it")]))].
Proof.
  split; [reflexivity|].
  exact (proj1 (server_merge_update_version_zero server_client "PRJ" "repo" 7
                  (Some true) (Some "squash"%string) (Some "ship it"%string)
                  None None quiet_world [] eq_refl)).
Defined.







(** ** Error translation *)

Lemma request_error_table path method (st : Z) (d : jsval) (m : string) :
  let e := request_error path method (BadStatus st d m) in
  statusCode e = Some st /\ (errorType e, isRetryable e) = status_table st.
Proof.
  unfold request_error, status_table, status_is, error_status, error_code.
  cbv zeta.
  destruct (st =? 401) eqn:E1; [apply Z.eqb_eq in E1; subst; split; reflexivity|].
  destruct (st =? 403) eqn:E2; [apply Z.eqb_eq in E2; subst; split; reflexivity|].
  destruct (st =? 404) eqn:E3; [apply Z.eqb_eq in E3; subst; split; reflexivity|].
  destruct (st =? 400) eqn:E4; [apply Z.eqb_eq in E4; subst; split; reflexivity|].
  destruct (st =? 409) eqn:E5; [apply Z.eqb_eq in E5; subst; split; reflexivity|].
  destruct (st =? 429) eqn:E6; [apply Z.eqb_eq in E6; subst; split; reflexivity|].
  destruct (500 <=? st) eqn:E7.
  - destruct (st =? 0) eqn:E0; [apply Z.eqb_eq in E0; subst; discriminate|].
    split; reflexivity.
  - rewrite andb_false_r.
    destruct ((400 <=? st) && (st <? 500)); [split; reflexivity|].
    destruct ((500 <=? st) && (st <? 600)); split; reflexivity.
Qed.

Lemma conforms_pure {A} (r : Result A) : Conforms (lift r).
Proof.
  intros w t. split; [exists []; simpl; by rewrite app_nil_r|].
  intros i st (Hi & (call & d & m & Hl & _) & _). simpl in Hl.
  apply lookup_lt_Some in Hl. lia.
Qed.

Lemma conforms_ret {A} (a : A) : Conforms (ret a).
Proof. apply (conforms_pure (Ok a)). Qed.

Lemma conforms_request (c : BitbucketClient) path init : Conforms (request c path init).
Proof.
  intros w t. split; [eexists; apply request_trace|].
  intros i st (Hi & (call & d & m & Hl & Hr) & _).
  rewrite request_trace in Hl.
  assert (i = length t) as ->.
  { apply lookup_lt_Some in Hl. rewrite length_app in Hl. simpl in Hl. lia. }
  rewrite lookup_app_r, Nat.sub_diag in Hl by lia. simpl in Hl.
  injection Hl as <-. unfold request. rewrite Hr. simpl.
  eexists; split; [reflexivity|]. apply request_error_table.
Qed.

Lemma first_failure_split (w : World) (t ext1 ext2 : Trace) (i : nat) (st : Z) :
  first_failure w t ((t ++ ext1) ++ ext2) i st ->
  first_failure w t (t ++ ext1) i st
  \/ ((length (t ++ ext1) <= i)%nat
      /\ first_failure w (t ++ ext1) ((t ++ ext1) ++ ext2) i st).
Proof.
  intros (Hi & (call & d & m & Hl & Hr) & Hothers).
  destruct (decide (i < length (t ++ ext1))%nat) as [Hlt|Hge].
  - left. split; [exact Hi|]. split.
    + exists call, d, m. split; [|exact Hr].
      rewrite lookup_app_l in Hl by exact Hlt. exact Hl.
    + intros j cj Hj Hne Hlj. apply (Hothers j cj Hj Hne).
      rewrite lookup_app_l; [exact Hlj|]. apply lookup_lt_Some in Hlj. exact Hlj.
  - right. split; [lia|]. split; [lia|]. split.
    + exists call, d, m. auto.
    + intros j cj Hj Hne Hlj. apply (Hothers j cj); [|exact Hne|exact Hlj].
      rewrite length_app in Hj. lia.
Qed.

Lemma conforms_bind {A B} (m : M A) (k : A -> M B) :
  Conforms m -> (forall a, Conforms (k a)) -> Conforms (m ≫= k).
Proof.
  intros Hm Hk w t. unfold_m.
  destruct (Hm w t) as [[ext1 He1] Hf1].
  destruct (m w t) as [[a|x] t1] eqn:Em; simpl in He1, Hf1; subst t1.
  - destruct (Hk a w (t ++ ext1)) as [[ext2 He2] Hf2].
    split; [exists (ext1 ++ ext2); rewrite He2, app_assoc; reflexivity|].
    intros i st Hff. rewrite He2 in Hff.
    destruct (first_failure_split _ _ _ _ _ _ Hff) as [H1|[_ H2]].
    + destruct (Hf1 i st H1) as (e & He & _). discriminate.
    + apply (Hf2 i). rewrite He2. exact H2.
  - split; [exists ext1; reflexivity|]. simpl. intros i st Hff.
    destruct (Hf1 i st Hff) as (e & He & Hs). injection He as ->.
    exists e. split; [reflexivity|exact Hs].
Qed.

(** ** The concurrent requests *)

Lemma request_run (c : BitbucketClient) path init (w : World) (t : Trace) :
  request c path init w t
  = (reply_of c w (length t) path init, t ++ [call_of c path init]).
Proof.
  unfold request, reply_of, call_of. destruct (axios_reply _ _ _); reflexivity.
Qed.

Lemma lookup_map {A B} (f : A -> B) (l : list A) (k : nat) :
  map f l !! k = f <$> l !! k.
Proof.
  revert k. induction l as [|x l IH]; intros [|k]; cbn [map]; try reflexivity.
  apply IH.
Qed.

(** The promises of a list of requests: one per request, each with the
    position of its call and the outcome the world gives at that position. *)
Lemma start_all_requests {U} (c : BitbucketClient) (path : U -> string)
    (init : U -> RequestInit) (us : list U) (w : World) (t : Trace) :
  start_all (map (fun u => request c (path u) (init u)) us) w t
  = (imap (fun k u =>
             ((length t + k)%nat,
              reply_of c w (length t + k) (path u) (init u))) us,
     t ++ map (fun u => call_of c (path u) (init u)) us).
Proof.
  revert t. induction us as [|u us IH]; intros t; cbn [map start_all].
  - rewrite app_nil_r. reflexivity.
  - rewrite request_run, IH, imap_cons, Nat.add_0_r, <- app_assoc. cbn [app].
    f_equal. f_equal. apply imap_ext. intros k x _. cbn [compose].
    rewrite length_app. cbn [length].
    replace (length t + 1 + k)%nat with (length t + S k)%nat by lia. reflexivity.
Qed.

Lemma first_rejection_elem (w : World) (rs : list (nat * Result jsval)) j y :
  first_rejection w rs = Some (j, y) -> (j, Throw y) ∈ rs.
Proof.
  induction rs as [|[i [a|x]] rs IH]; cbn [first_rejection]; intros H.
  - discriminate.
  - apply elem_of_cons. right. apply IH, H.
  - destruct (first_rejection w rs) as [[j' y']|].
    + destruct (settles w j' <? settles w i)%nat; injection H as <- <-.
      * apply elem_of_cons. right. apply IH. reflexivity.
      * apply elem_of_cons. left. reflexivity.
    + injection H as <- <-. apply elem_of_cons. left. reflexivity.
Qed.

Lemma first_rejection_none (w : World) (rs : list (nat * Result jsval)) :
  (forall j r, (j, r) ∈ rs -> exists a, r = Ok a) ->
  first_rejection w rs = None /\ length (resolved_values rs) = length rs.
Proof.
  induction rs as [|[i [a|x]] rs IH]; intros H; cbn [first_rejection resolved_values].
  - split; reflexivity.
  - destruct IH as [-> Hl]; [intros j r Hin; apply (H j r), elem_of_cons; auto|].
    split; [reflexivity|]. cbn [length]. rewrite Hl. reflexivity.
  - destruct (H i (Throw x)) as [a Ha]; [apply elem_of_cons; auto|discriminate].
Qed.

(** A rejection wins when every other promise is fulfilled or settles
    later. *)
Lemma first_rejection_winner (w : World) (rs : list (nat * Result jsval)) i x :
  (i, Throw x) ∈ rs ->
  (forall j r, (j, r) ∈ rs -> j <> i ->
               (exists a, r = Ok a) \/ (settles w i < settles w j)%nat) ->
  exists x', first_rejection w rs = Some (i, x') /\ (i, Throw x') ∈ rs.
Proof.
  induction rs as [|[j0 [a|x0]] rs IH]; intros Hin Hothers; cbn [first_rejection].
  - inversion Hin.
  - apply elem_of_cons in Hin as [Hin|Hin]; [discriminate|].
    destruct (IH Hin) as (x' & -> & Hx').
    { intros j r Hj. apply Hothers, elem_of_cons. auto. }
    exists x'. split; [reflexivity|]. apply elem_of_cons. auto.
  - destruct (decide (j0 = i)) as [->|Hne].
    + exists x0. split; [|apply elem_of_cons; auto].
      destruct (first_rejection w rs) as [[j y]|] eqn:E; [|reflexivity].
      assert (Hlt : (settles w j <? settles w i)%nat = false).
      { apply Nat.ltb_ge. destruct (decide (j = i)) as [->|Hji]; [lia|].
        apply first_rejection_elem in E.
        destruct (Hothers j (Throw y)) as [[a Ha]|Hlt];
          [apply elem_of_cons; auto|exact Hji|discriminate|lia]. }
      rewrite Hlt. reflexivity.
    + apply elem_of_cons in Hin as [Hin|Hin]; [congruence|].
      destruct (IH Hin) as (x' & -> & Hx').
      { intros j r Hj. apply Hothers, elem_of_cons. auto. }
      exists x'. split; [|apply elem_of_cons; auto].
      assert (Hlt : (settles w i <? settles w j0)%nat = true).
      { apply Nat.ltb_lt.
        destruct (Hothers j0 (Throw x0)) as [[a Ha]|Hlt];
          [apply elem_of_cons; auto|exact Hne|discriminate|exact Hlt]. }
      rewrite Hlt. reflexivity.
Qed.

Lemma promises_elem {U} (c : BitbucketClient) (path : U -> string)
    (init : U -> RequestInit) (us : list U) (w : World) (n j : nat) (r : Result jsval) :
  (j, r) ∈ imap (fun k u => ((n + k)%nat, reply_of c w (n + k) (path u) (init u))) us ->
  exists k u, us !! k = Some u /\ j = (n + k)%nat
              /\ r = reply_of c w j (path u) (init u).
Proof.
  intros H. apply elem_of_lookup_imap_1 in H as (k & u & Heq & Hu).
  injection Heq as -> ->. eauto.
Qed.

Lemma promise_all_trace {U} (c : BitbucketClient) (path : U -> string)
    (init : U -> RequestInit) (us : list U) (w : World) (t : Trace) :
  snd (promise_all (map (fun u => request c (path u) (init u)) us) w t)
  = t ++ map (fun u => call_of c (path u) (init u)) us.
Proof.
  unfold promise_all. rewrite start_all_requests.
  destruct (first_rejection w _) as [[j y]|]; reflexivity.
Qed.

(** The error that [Promise.all] throws is the error of one of the
    requests. *)
Lemma promise_all_thrown {U} (c : BitbucketClient) (path : U -> string)
    (init : U -> RequestInit) (us : list U) (w : World) (t : Trace) (x : Thrown) :
  fst (promise_all (map (fun u => request c (path u) (init u)) us) w t) = Throw x ->
  exists k u, us !! k = Some u
              /\ reply_of c w (length t + k) (path u) (init u) = Throw x.
Proof.
  unfold promise_all. rewrite start_all_requests.
  destruct (first_rejection w _) as [[j y]|] eqn:E; [|discriminate].
  cbn [fst]. intros H. injection H as ->.
  apply first_rejection_elem, promises_elem in E as (k & u & Hu & -> & Hr). eauto.
Qed.

Lemma conforms_promise_all (c : BitbucketClient) (reqs : list (string * RequestInit)) :
  Conforms (promise_all (map (fun r => request c (fst r) (snd r)) reqs)).
Proof.
  intros w t. rewrite promise_all_trace. split; [eauto|].
  intros i st (Hi & (call & d & m & Hl & Hr) & Hothers).
  rewrite lookup_app_r, lookup_map in Hl by exact Hi.
  destruct (reqs !! (i - length t)%nat) as [[path init]|] eqn:Hu; [|discriminate].
  injection Hl as <-. cbn [fst snd] in Hr.
  set (x := ThrowBitbucket
              (request_error path (default GET (init_method init)) (BadStatus st d m))).
  assert (Hx : reply_of c w i path init = Throw x).
  { unfold reply_of. rewrite Hr. reflexivity. }
  unfold promise_all. rewrite start_all_requests.
  destruct (first_rejection_winner w
              (imap (fun k u => ((length t + k)%nat,
                                 reply_of c w (length t + k) (fst u) (snd u))) reqs)
              i x) as (x' & -> & Hx').
  - replace i with (length t + (i - length t))%nat at 1 by lia.
    rewrite <- Hx.
    replace i with (length t + (i - length t))%nat at 2 by lia.
    apply (elem_of_lookup_imap_2
             (fun k u => ((length t + k)%nat,
                          reply_of c w (length t + k) (fst u) (snd u)))
             reqs (path, init) (i - length t) Hu).
  - intros j r Hin Hne.
    apply promises_elem in Hin as (k & [p' i'] & Hk & -> & ->). cbn [fst snd].
    destruct (Hothers (length t + k)%nat (call_of c p' i')) as [(s & d' & Hres)|Hlt];
      [lia|exact Hne| | |right; exact Hlt].
    + rewrite lookup_app_r, lookup_map by lia.
      replace (length t + k - length t)%nat with k by lia. rewrite Hk. reflexivity.
    + left. exists d'. unfold reply_of. rewrite Hres. reflexivity.
  - apply promises_elem in Hx' as (k & [p' i'] & Hk & Hik & Hr').
    assert (k = (i - length t)%nat) as -> by lia.
    rewrite Hu in Hk. injection Hk as <- <-. cbn [fst snd] in Hr'.
    rewrite Hx in Hr'. injection Hr' as ->. unfold x.
    cbn [fst]. eexists. split; [reflexivity|]. apply request_error_table.
Qed.

Ltac conforms :=
  repeat first
    [ apply conforms_request
    | apply conforms_ret
    | apply conforms_pure
    | apply conforms_bind; [|intros ?]
    | match goal with
      | |- Conforms (if ?b then _ else _) => destruct b
      | |- Conforms (match ?x with _ => _ end) => destruct x
      end ].

Lemma perform_conforms (c : BitbucketClient) (op : Operation) :
  uses_fetch c op = false -> Conforms (perform c op).
Proof.
  intros Hf.
  destruct op; simpl in *;
    try (unfold getRepo, listPullRequests, createPullRequest, listBranches,
           createBranch, listWorkspaces, listRepositories, getPullRequest,
           getPullRequestDiff, getPullRequestChanges, addPullRequestComment,
           listCommits, approvePullRequest, declinePullRequest,
           mergePullRequest, updatePullRequest, listPullRequestComments,
           getCommit, getCommitDiff, compareBranches,
           addInlineCommentAfterReview;
         solve [conforms]).
  - unfold getFileContent. rewrite Hf. conforms.
  - unfold addPullRequestReviewers.
    destruct reviewers; try solve [conforms].
    destruct (isCloud c); [conforms|].
    apply conforms_bind; [|intros; apply conforms_ret].
    rewrite <- (map_map
      (fun username =>
         ("/projects/" +:+ enc workspace +:+ "/repos/" +:+ enc repoSlug
          +:+ "/pull-requests/" +:+ ToString prId +:+ "/participants",
          post (JObj [("user", JObj [("name", username)]);
                      ("role", JStr "REVIEWER")])))
      (fun r => request c (fst r) (snd r))).
    apply conforms_promise_all.
Qed.

(** C4 (as stated) fails on the Cloud file fetch: a 404 gives
    [FILE_NOT_FOUND], not [NOT_FOUND_ERROR], and a 429 gives a
    [FILE_FETCH_ERROR] that is not retryable. *)
Lemma cloud_file_fetch_off_table :
  let run st :=
    fst (getFileContent cloud_client (JStr "ws") (JStr "repo") (JStr "README.md")
           (JStr "abc123") (status_world st) []) in
  (exists e, run 404 = Throw (ThrowBitbucket e)
             /\ errorType e = FILE_NOT_FOUND /\ isRetryable e = false)
  /\ ~ thrown_by status_table (run 404) 404
  /\ (exists e, run 429 = Throw (ThrowBitbucket e)
                /\ errorType e = FILE_FETCH_ERROR /\ isRetryable e = false)
  /\ ~ thrown_by status_table (run 429) 429.
Proof.
  intros run. repeat split.
  - eexists. split; [reflexivity|]. split; reflexivity.
  - intros (e & He & _ & Ht). vm_compute in He. injection He as <-. discriminate.
  - eexists. split; [reflexivity|]. split; reflexivity.
  - intros (e & He & _ & Ht). vm_compute in He. injection He as <-. discriminate.
Qed.

(** C4 (amended). For every operation that goes through [request] (all
    but the Cloud file fetch), the HTTP failure status that comes first
    among its calls makes it throw a [BitbucketError] with that status and
    with the kind and retryability of the status-code table. Every
    operation issues one call, except adding reviewers on the Server
    dialect, whose requests are in flight together: there the failure whose
    reply arrives first is the one thrown, whatever its place in the list.
    The table: 401
    AUTHENTICATION_ERROR, 403 PERMISSION_ERROR, 404 NOT_FOUND_ERROR, 400
    VALIDATION_ERROR, 409 CONFLICT_ERROR (none retryable), 429
    RATE_LIMIT_ERROR and 500 or more SERVER_ERROR (retryable), anything else
    UNKNOWN_ERROR (not retryable). The Cloud file fetch has a table of its
    own: 404 FILE_NOT_FOUND, 401 AUTHENTICATION_ERROR, anything else
    FILE_FETCH_ERROR, retryable from 500 on. [testConnection] returns the
    error of the table instead of throwing it. *)
Theorem errors_follow_status_table (c : BitbucketClient) (w : World) (t : Trace) :
  (forall op i status,
      uses_fetch c op = false ->
      first_failure w t (snd (perform c op w t)) i status ->
      thrown_by status_table (fst (perform c op w t)) status)
  /\ (forall workspace repoSlug filePath commitHash status text,
        isCloud c = true ->
        fetch_reply w (length t)
          (FetchCall (baseUrl c +:+ "/repositories/" +:+ enc workspace +:+ "/"
                      +:+ enc repoSlug +:+ "/src/" +:+ enc commitHash +:+ "/"
                      +:+ enc filePath))
        = FetchResponse status text ->
        response_ok status = false ->
        thrown_by file_status_table
          (fst (getFileContent c workspace repoSlug filePath commitHash w t)) status)
  /\ (forall status data msg,
        axios_reply w (length t)
          (AxiosCall (baseUrl c) GET
             (if isCloud c then "/workspaces" else "/projects")%string None)
        = AxiosRejected (BadStatus status data msg) ->
        exists e,
          fst (testConnection c w t) = Ok (mkConnectionResult false (Some e))
          /\ statusCode e = Some status
          /\ (errorType e, isRetryable e) = status_table status).
Proof.
  repeat split.
  - intros op i st Hf Hff. exact (proj2 (perform_conforms c op Hf w t) i st Hff).
  - intros ws rs fp ch st text Hc Hr Hok.
    unfold getFileContent. rewrite Hc. unfold_m. unfold fetch. rewrite Hr. simpl.
    rewrite Hok. simpl. eexists. split; [reflexivity|].
    unfold file_fetch_error, file_status_table.
    destruct (st =? 404) eqn:E1; [apply Z.eqb_eq in E1; subst; split; reflexivity|].
    destruct (st =? 401) eqn:E2; [apply Z.eqb_eq in E2; subst; split; reflexivity|].
    split; reflexivity.
  - intros st d m Hr.
    unfold testConnection, listWorkspaces. unfold_m.
    assert (Hreq : forall p, p = (if isCloud c then "/workspaces" else "/projects")%string ->
              request c p no_init w t
              = (Throw (ThrowBitbucket (request_error p GET (BadStatus st d m))),
                 t ++ [AxiosCall (baseUrl c) GET p None])).
    { intros p ->. unfold request. simpl. rewrite Hr. reflexivity. }
    destruct (isCloud c); rewrite (Hreq _ eq_refl); simpl;
      (eexists; split; [reflexivity|apply request_error_table]).
Qed.

Lemma errors_follow_status_table_witness :
  thrown_by status_table
    (fst (perform server_client (OpGetRepo (JStr "ws") (JStr "repo"))
            (status_world 404) [])) 404
  /\ thrown_by status_table
       (fst (perform server_client
               (OpAddPullRequestReviewers (JStr "PRJ") (JStr "repo") (JNum 7)
                  (JArr [JStr "ann"; JStr "bob"]))
               racing_world [])) 500
  /\ status_table 404 = (NOT_FOUND_ERROR, false)
  /\ status_table 429 = (RATE_LIMIT_ERROR, true)
  /\ status_table 500 = (SERVER_ERROR, true).
Proof.
  split; [|split; [|repeat split]].
  - apply (proj1 (errors_follow_status_table server_client (status_world 404) [])
             (OpGetRepo (JStr "ws") (JStr "repo")) 0%nat 404).
    + reflexivity.
    + split; [simpl; lia|]. split.
      * eexists _, _, _. split; reflexivity.
      * intros [|j] cj Hj Hne Hl; [congruence|discriminate Hl].
  - apply (proj1 (errors_follow_status_table server_client racing_world [])
             (OpAddPullRequestReviewers (JStr "PRJ") (JStr "repo") (JNum 7)
                (JArr [JStr "ann"; JStr "bob"])) 1%nat 500).
    + reflexivity.
    + split; [simpl; lia|]. split.
      * eexists _, _, _. split; reflexivity.
      * intros [|[|j]] cj Hj Hne Hl;
          [right; vm_compute; lia|congruence|discriminate Hl].
Defined.


End ClientProps.

(* ================================================================== *)
(** * Verified properties of the tool registry and the session layer *)
(* ================================================================== *)

Module CliProps.
Import Client Cli Spec.

(** C5 (as stated) fails: [pr_get] declares [prId] as required, yet with
    [prId] missing the handler goes to the network, asking for the pull
    request [undefined]. *)
Lemma pr_get_without_prId_calls_network :
  let tool := pr_get cloud_client in
  let args := JObj [("workspace", JStr "ws"); ("repoSlug", JStr "repo")] in
  In "prId"%string (required tool)
  /\ get args "prId" = JUndefined
  /\ snd (handler tool args quiet_world [])
     = [AxiosCall "https://api.bitbucket.org/2.0" GET
          "/repositories/ws/repo/pullrequests/undefined" None].
Proof. split; [simpl; auto|]. split; reflexivity. Qed.

(** C5 (amended). Every tool that declares [repoSlug] as required checks
    [workspace] and [repoSlug] first: when one of them is missing (or
    falsy) the handler throws "... parameter is required" and issues no
    network call. [pr_reviewers_add] also rejects, before any call, a
    [reviewers] argument that is not a non-empty array. Invoking
    [pr_comment_add] with [workspace] and [repoSlug] present but no [text]
    fails before any HTTP request is issued: the client throws a
    [TypeError] when it reads [text.length]. *)
Theorem handlers_fail_before_network
    (client : BitbucketClient) (defaultDestinationBranch : jsval)
    (currentBranch : option string) (args : jsval) (w : World) (t : Trace) :
  (forall tool,
      In tool (tools client defaultDestinationBranch currentBranch) ->
      In "repoSlug"%string (required tool) ->
      (truthy (get args "workspace") = false ->
       handler tool args w t
       = (Throw (ThrowError "Error" "workspace parameter is required"), t))
      /\ (truthy (get args "workspace") = true ->
          truthy (get args "repoSlug") = false ->
          handler tool args w t
          = (Throw (ThrowError "Error" "repoSlug parameter is required"), t)))
  /\ (truthy (get args "workspace") = true ->
      truthy (get args "repoSlug") = true ->
      (forall x xs, get args "reviewers" <> JArr (x :: xs)) ->
      handler (pr_reviewers_add client) args w t
      = (Throw (ThrowError "Error" "reviewers must be a non-empty array of strings"), t))
  /\ (truthy (get args "workspace") = true ->
      truthy (get args "repoSlug") = true ->
      get args "text" = JUndefined ->
      handler (pr_comment_add client) args w t
      = (Throw (ThrowError "TypeError"
                  "Cannot read properties of undefined (reading 'length')"), t)).
Proof.
  repeat split.
  - intros Hw. simpl in H.
    repeat (destruct H as [<-|H]; [try (exfalso; simpl in H0; intuition discriminate);
                                   simpl; unfold_m; unfold getDefaultWorkspace;
                                   rewrite Hw; reflexivity|]).
    destruct H.
  - intros Hw Hr. simpl in H.
    repeat (destruct H as [<-|H]; [try (exfalso; simpl in H0; intuition discriminate);
                                   simpl; unfold_m;
                                   unfold getDefaultWorkspace, getDefaultRepoSlug;
                                   rewrite Hw, Hr; reflexivity|]).
    destruct H.
  - intros Hw Hr Hrev. simpl. unfold_m. unfold getDefaultWorkspace, getDefaultRepoSlug.
    rewrite Hw, Hr. simpl.
    destruct (get args "reviewers") as [| | | | |[|x xs]|] eqn:E; try reflexivity.
    exfalso. exact (Hrev x xs eq_refl).
  - intros Hw Hr Htext. simpl. unfold_m. unfold getDefaultWorkspace, getDefaultRepoSlug.
    rewrite Hw, Hr, Htext. reflexivity.
Qed.

Lemma handlers_fail_before_network_witness :
  handler (pr_comment_add cloud_client)
    (JObj [("workspace", JStr "ws"); ("repoSlug", JStr "repo"); ("prId", JNum 7)])
    quiet_world []
  = (Throw (ThrowError "TypeError"
              "Cannot read properties of undefined (reading 'length')"), [])
  /\ handler (repo_info cloud_client) (JObj [("workspace", JStr "ws")]) quiet_world []
     = (Throw (ThrowError "Error" "repoSlug parameter is required"), []).
Proof.
  split.
  - apply (proj2 (proj2 (handlers_fail_before_network cloud_client (JStr "main") None
                           (JObj [("workspace", JStr "ws"); ("repoSlug", JStr "repo");
                                  ("prId", JNum 7)]) quiet_world [])));
      reflexivity.
  - apply (proj1 (handlers_fail_before_network cloud_client (JStr "main") None
                    (JObj [("workspace", JStr "ws")]) quiet_world [])
             (repo_info cloud_client)).
    + simpl. auto.
    + simpl. auto.
    + reflexivity.
    + reflexivity.
Defined.

Lemma errorInfo_fields (e : BitbucketError) :
  let doc := json_doc (errorInfo e) in
  get doc "error" = JStr (message e)
  /\ get doc "errorType" = JStr (ErrorKind_name (errorType e))
  /\ get doc "statusCode" = opt_num (statusCode e)
  /\ get doc "suggestion" = opt_str (suggestion e)
  /\ get doc "isRetryable" = JBool (isRetryable e).
Proof.
  destruct e as [m [st|] k d [sg|] r]; destruct d; simpl; repeat split; reflexivity.
Qed.

(** C9. For every registry and every invoke-tool request, the session
    layer returns a completed result: no exception escapes. An unregistered
    name gives a failure envelope whose text names the tool, with no
    network call; a handler that throws a [BitbucketError] gives a failure
    envelope whose document carries its message, kind, status, suggestion
    and retryability; any other thrown error gives a failure envelope with
    its message; a handler that returns gives its own result. *)
Theorem callTool_never_throws
    (registry : list ToolDef) (req : CallToolRequest) (w : World) (t : Trace) :
  let args := js_or (req_arguments req) (JObj []) in
  exists result,
    fst (callTool registry req w t) = Ok result
    /\ match find (fun tool => String.eqb (name tool) (req_name req)) registry with
       | None =>
           result = mkResult [TextRaw ("Tool not found: " +:+ req_name req)] true
           /\ snd (callTool registry req w t) = t
       | Some tool =>
           snd (callTool registry req w t) = snd (handler tool args w t)
           /\ match fst (handler tool args w t) with
              | Ok r => result = r
              | Throw (ThrowBitbucket e) =>
                  exists doc,
                    result = mkResult [TextJson (Some doc)] true
                    /\ get doc "error" = JStr (message e)
                    /\ get doc "errorType" = JStr (ErrorKind_name (errorType e))
                    /\ get doc "statusCode" = opt_num (statusCode e)
                    /\ get doc "suggestion" = opt_str (suggestion e)
                    /\ get doc "isRetryable" = JBool (isRetryable e)
              | Throw (ThrowError n msg) =>
                  result = mkResult [TextRaw (if str_nonempty msg then msg else n)] true
              end
       end.
Proof.
  intros args. unfold callTool. fold args.
  destruct (find _ registry) as [tool|]; [|eexists; repeat split].
  unfold_m. destruct (handler tool args w t) as [[r|[e|n msg]] t'] eqn:E; simpl.
  - eexists; repeat split.
  - eexists; split; [reflexivity|]. split; [reflexivity|].
    eexists; split; [reflexivity|]. apply errorInfo_fields.
  - eexists; repeat split.
Qed.

Example callTool_unknown_tool :
  callTool (tools cloud_client (JStr "main") None)
    (mkRequest "repo_delete" JUndefined) quiet_world []
  = (Ok (mkResult [TextRaw "Tool not found: repo_delete"] true), []).
Proof. reflexivity. Qed.

Example callTool_not_found_envelope :
  callTool (tools cloud_client (JStr "main") None)
    (mkRequest "repo_info"
       (JObj [("workspace", JStr "ws"); ("repoSlug", JStr "gone")]))
    (status_world 404) []
  = (Ok (mkResult
           [TextJson
              (Some (JObj [("error", JStr "Resource not found");
                           ("errorType", JStr "NOT_FOUND_ERROR");
                           ("statusCode", JNum 404);
                           ("suggestion",
                            JStr "Verify workspace name, repository slug, or resource ID. Check if the resource exists and is accessible.");
                           ("isRetryable", JBool false);
                           ("details",
                            JObj [("path", JStr "/repositories/ws/gone");
                                  ("method", JStr "GET");
                                  ("response", JNull)])]))]
           true),
     [AxiosCall "https://api.bitbucket.org/2.0" GET "/repositories/ws/gone" None]).
Proof. reflexivity. Qed.

End CliProps.

(* ================================================================== *)
(** * Verified properties of the configuration resolver *)
(* ================================================================== *)

Module ConfigProps.
Import Config Spec.

(** The JSON file is consulted before the environment result is used. *)
Lemma loadConfig_file_first (env : Env) (dir : Directory) (cfg : BitbucketConfig) :
  fromFiles configPaths dir = Some cfg -> loadConfig env dir = Ok cfg.
Proof. intros H. unfold loadConfig. rewrite H. reflexivity. Qed.

(** C2: the code at the failing input. The [.env] file exists and the
    environment sets the user identity and the API credential, so the
    environment step has a configuration to give; [loadConfig] returns the
    values of the JSON file instead. *)
Theorem loadConfig_json_overrides_dotenv :
  is_Some (dotenv_and_json_dir !! ".env"%string)
  /\ set (dotenv_env !! "ATLASSIAN_USER_EMAIL"%string) = true
  /\ set (dotenv_env !! "ATLASSIAN_API_TOKEN"%string) = true
  /\ fromEnv dotenv_env dotenv_and_json_dir
     = Some (mkConfig (JStr "https://api.bitbucket.org/2.0")
               (JStr "env@example.com") (JStr "env-token") basic (JStr "main"))
  /\ loadConfig dotenv_env dotenv_and_json_dir
     = Ok (mkConfig (JStr "https://git.example.com/rest/api/1.0")
             (JStr "file@example.com") (JStr "file-token") bearer (JStr "main")).
Proof.
  split; [vm_compute; eauto|]. repeat split; vm_compute; reflexivity.
Qed.

Lemma fromEnv_credentials (env : Env) (dir : Directory) :
  set (env !! "ATLASSIAN_USER_EMAIL"%string) = true ->
  set (env !! "ATLASSIAN_API_TOKEN"%string) = true ->
  fromEnv env dir
  = Some (mkConfig
            (JStr (env_baseUrl (env !! "ATLASSIAN_SITE_URL"%string)))
            (JStr (default ""%string (env !! "ATLASSIAN_USER_EMAIL"%string)))
            (JStr (default ""%string (env !! "ATLASSIAN_API_TOKEN"%string)))
            (if includes (env_baseUrl (env !! "ATLASSIAN_SITE_URL"%string)) CLOUD_HOST
             then basic else bearer)
            (JStr (env_or (env !! "BITBUCKET_DEFAULT_DEST_BRANCH"%string) "main"))).
Proof.
  intros He Ht. unfold fromEnv.
  destruct (bool_decide _); rewrite He, Ht; reflexivity.
Qed.

Lemma env_baseUrl_verbatim (u : string) :
  u <> "bitbucket"%string -> u <> ""%string -> env_baseUrl (Some u) = u.
Proof.
  intros H1 H2. unfold env_baseUrl.
  apply String.eqb_neq in H1. rewrite H1.
  destruct u; [congruence|reflexivity].
Qed.

(** C7 (as stated) fails: the Cloud API URL given in full is a non-empty
    value other than [bitbucket]; it is kept verbatim, and the scheme is
    [basic], with no override anywhere. *)
Lemma cloud_url_verbatim_is_basic :
  let url := "https://api.bitbucket.org/2.0"%string in
  cloud_url_env !! "ATLASSIAN_SITE_URL"%string = Some url
  /\ url <> "bitbucket"%string /\ url <> ""%string
  /\ exists cfg,
       loadConfig cloud_url_env ∅ = Ok cfg
       /\ baseUrl cfg = JStr url
       /\ authType cfg = basic
       /\ authType cfg <> bearer.
Proof.
  split; [vm_compute; reflexivity|]. split; [discriminate|]. split; [discriminate|].
  eexists. split; [vm_compute; reflexivity|]. repeat split. discriminate.
Qed.

(** C7 (amended). When [ATLASSIAN_SITE_URL] is the literal [bitbucket],
    [loadConfig] resolves [baseUrl] to [https://api.bitbucket.org/2.0] with
    scheme [basic]; for every other non-empty value, [baseUrl] is that
    value verbatim and the scheme is [basic] when the value contains
    [api.bitbucket.org] and [bearer] otherwise. This holds for the value of
    the environment (when no JSON file is used) and for the value of the
    first JSON configuration file. The client takes an explicit scheme when
    it is given one and derives it in the same way otherwise. *)
Theorem loadConfig_site_url (env : Env) (dir : Directory) :
  (fromFiles configPaths dir = None ->
   set (env !! "ATLASSIAN_USER_EMAIL"%string) = true ->
   set (env !! "ATLASSIAN_API_TOKEN"%string) = true ->
   exists cfg,
     loadConfig env dir = Ok cfg
     /\ (env !! "ATLASSIAN_SITE_URL"%string = Some "bitbucket"%string ->
         baseUrl cfg = JStr "https://api.bitbucket.org/2.0" /\ authType cfg = basic)
     /\ (forall u, env !! "ATLASSIAN_SITE_URL"%string = Some u ->
                   u <> "bitbucket"%string -> u <> ""%string ->
                   baseUrl cfg = JStr u
                   /\ authType cfg = if includes u "api.bitbucket.org" then basic else bearer))
  /\ (forall raw u,
        dir !! "mcp.config.json"%string = Some (Some raw) ->
        truthy (get (get raw "bitbucket") "environments") = true ->
        get (get (get raw "bitbucket") "environments") "ATLASSIAN_SITE_URL" = JStr u ->
        exists cfg,
          loadConfig env dir = Ok cfg
          /\ (u = "bitbucket"%string ->
              baseUrl cfg = JStr "https://api.bitbucket.org/2.0" /\ authType cfg = basic)
          /\ (u <> "bitbucket"%string ->
              baseUrl cfg = JStr u
              /\ authType cfg = if includes u "api.bitbucket.org" then basic else bearer))
  /\ (forall opts a,
        Client.opt_authType opts = Some a ->
        Client.authType (Client.new_BitbucketClient opts) = a)
  /\ (forall opts,
        Client.opt_authType opts = None ->
        Client.authType (Client.new_BitbucketClient opts)
        = if includes (Client.baseUrl (Client.new_BitbucketClient opts)) "api.bitbucket.org"
          then basic else bearer).
Proof.
  split; [|split; [|split]].
  - intros Hf He Ht. unfold loadConfig. rewrite Hf, (fromEnv_credentials _ _ He Ht).
    eexists. split; [reflexivity|]. simpl. split.
    + intros ->. split; reflexivity.
    + intros u -> H1 H2. rewrite (env_baseUrl_verbatim u H1 H2). split; reflexivity.
  - intros raw u Hd Htr Hu.
    assert (Hg : truthy raw && truthy (get raw "bitbucket")
                 && truthy (get (get raw "bitbucket") "environments") = true).
    { rewrite Htr, andb_true_r.
      destruct raw; try discriminate.
      destruct (get (JObj fields) "bitbucket"); try discriminate. reflexivity. }
    assert (Hc : exists cfg,
               config_of_file raw = Some (Ok cfg)
               /\ baseUrl cfg = JStr (if String.eqb u "bitbucket" then CLOUD_API else u)
               /\ authType cfg
                  = if includes (if String.eqb u "bitbucket" then CLOUD_API else u) CLOUD_HOST
                    then basic else bearer).
    { unfold config_of_file. rewrite Hg, Hu.
      destruct (String.eqb u "bitbucket"); simpl; eexists; repeat split. }
    destruct Hc as (cfg & Hcfg & Hb & Ha).
    exists cfg. split.
    + apply loadConfig_file_first. simpl. rewrite Hd, Hcfg. reflexivity.
    + rewrite Hb, Ha. split.
      * intros ->. split; reflexivity.
      * intros Hne. apply String.eqb_neq in Hne. rewrite Hne. split; reflexivity.
  - intros opts a H. unfold Client.new_BitbucketClient. simpl. rewrite H. reflexivity.
  - intros opts H. unfold Client.new_BitbucketClient. simpl. rewrite H. reflexivity.
Qed.

Lemma loadConfig_site_url_witness :
  exists cfg,
    loadConfig dotenv_env ∅ = Ok cfg
    /\ baseUrl cfg = JStr "https://api.bitbucket.org/2.0" /\ authType cfg = basic.
Proof.
  destruct (proj1 (loadConfig_site_url dotenv_env ∅)) as (cfg & Hl & Hb & _).
  - reflexivity.
  - vm_compute. reflexivity.
  - vm_compute. reflexivity.
  - exists cfg. split; [exact Hl|]. apply Hb. vm_compute. reflexivity.
Defined.

End ConfigProps.

(* ================================================================== *)
(** * Verified properties of the remote-descriptor parser *)
(* ================================================================== *)

Module GitProps.
Import Regex Git GitSpec StringFacts.

Lemma bind_map {A B C} (f : A -> B) (g : B -> list C) (l : list A) :
  map f l ≫= g = l ≫= (fun x => g (f x)).
Proof. induction l as [|x l IH]; [reflexivity|]. cbn [map]. rewrite !bind_cons, IH. reflexivity. Qed.

Lemma char_ci_punct (c b : ascii) :
  c = ":"%char \/ c = "/"%char \/ c = "@"%char \/ c = "."%char ->
  char_ci c b = Ascii.eqb b c.
Proof.
  intros [->|[->|[->| ->]]]; destruct b as [[] [] [] [] [] [] [] []]; reflexivity.
Qed.

Lemma lit_char_ne {c b : ascii} (s : string) :
  c = ":"%char \/ c = "/"%char \/ c = "@"%char \/ c = "."%char ->
  b <> c -> lit (String c "") (String b s) = [].
Proof.
  intros Hc Hne. simpl. rewrite (char_ci_punct c b Hc).
  apply Ascii.eqb_neq in Hne. rewrite Hne. reflexivity.
Qed.

Lemma greedy_bind {R} (c : ascii) (h t : string) (F : string * string -> list R) :
  h <> ""%string -> lacks c h = true ->
  (forall m a r, a <> c -> F (m, String a r) = []) ->
  plus_greedy (not_char c) (h +:+ String c t) ≫= F = F (h, String c t).
Proof.
  revert F. induction h as [|a h IH]; intros F Hne Hl HF; [congruence|].
  unfold lacks in Hl. simpl in Hl. apply andb_true_iff in Hl as [Ha Hl].
  rewrite app_cons. simpl. rewrite Ha.
  rewrite bind_app, bind_singleton, bind_map.
  destruct h as [|b h].
  - simpl. rewrite Ascii.eqb_refl. simpl. reflexivity.
  - rewrite (IH (fun x => F (let '(m, r) := x in (String a m, r)))).
    + rewrite app_cons.
      simpl in Hl. apply andb_true_iff in Hl as [Hb _].
      rewrite (HF _ b); [apply app_nil_r|].
      intros ->. rewrite Ascii.eqb_refl in Hb. discriminate.
    + discriminate.
    + exact Hl.
    + intros m a' r Ha'. apply HF. exact Ha'.
Qed.

Lemma greedy_none {R} (c : ascii) (s : string) (F : string * string -> list R) :
  lacks c s = true ->
  (forall m, F (m, ""%string) = []) ->
  (forall m a r, a <> c -> F (m, String a r) = []) ->
  plus_greedy (not_char c) s ≫= F = [].
Proof.
  revert F. induction s as [|a s IH]; intros F Hl H0 HF; [reflexivity|].
  unfold lacks in Hl. simpl in Hl. apply andb_true_iff in Hl as [Ha Hl].
  simpl. rewrite Ha. rewrite bind_app, bind_singleton, bind_map.
  rewrite IH; [| exact Hl | intros; apply H0 | intros; apply HF; assumption].
  destruct s as [|b s]; [apply H0|].
  apply HF. simpl in Hl. apply andb_true_iff in Hl as [Hb _].
  intros ->. rewrite Ascii.eqb_refl in Hb. discriminate.
Qed.

Lemma lit_app (p q p' s : string) :
  ci_eqb p p' = true -> lit (p +:+ q) (p' +:+ s) = lit q s.
Proof.
  revert p'. induction p as [|a p IH]; intros [|b p'] H; try discriminate.
  - reflexivity.
  - simpl in H. apply andb_true_iff in H as [Hab H].
    rewrite !app_cons. simpl. rewrite Hab. apply IH. exact H.
Qed.

(** What is left after the lazy group: [(\.git)?$]. *)
Lemma tail_head {R} (x : R) (r : string) :
  head (opt (lit ".git") r ≫= (fun '(_, r) => eos r ≫= (fun '(_, _) => [x])))
  = if tail_ok r then Some x else None.
Proof.
  unfold opt. rewrite bind_app, bind_singleton, bind_map.
  destruct r as [|a [|b [|c [|d [|e r]]]]]; simpl;
    repeat (match goal with |- context [char_ci ?u ?v] => destruct (char_ci u v) end;
            simpl); reflexivity.
Qed.

Lemma lazy_head {R} (K : string -> R) (F : string * string -> list R) (rest : string) :
  rest <> ""%string -> single_line rest = true ->
  (forall m r, head (F (m, r)) = if tail_ok r then Some (K m) else None) ->
  head (plus_lazy dot rest ≫= F) = Some (K (lazy_slug rest)).
Proof.
  revert K F. induction rest as [|c t IH]; intros K F Hne Hs HF; [congruence|].
  simpl in Hs. apply andb_true_iff in Hs as [Hc Hs].
  cbn [plus_lazy dot]. rewrite Hc. rewrite bind_cons, head_app, HF, bind_map.
  cbn [lazy_slug]. destruct (tail_ok t) eqn:Et; [reflexivity|].
  destruct t as [|c' t']; [discriminate|].
  apply (IH (fun m => K (String c m))); [discriminate|exact Hs|].
  intros m r. apply HF.
Qed.

Lemma ci_eqb_length (p s : string) : ci_eqb p s = true -> String.length s = String.length p.
Proof.
  revert s. induction p as [|a p IH]; intros [|b s] H; try discriminate; [reflexivity|].
  simpl in H. apply andb_true_iff in H as [_ H]. simpl. f_equal. apply IH, H.
Qed.

Lemma tail_ok_length (r : string) :
  tail_ok r = true -> String.length r = 0%nat \/ String.length r = 4%nat.
Proof.
  destruct r; [left; reflexivity|]. intros H. right.
  apply (ci_eqb_length ".git" _ H).
Qed.

(** The lazy group stops before a final [.git] (in any case) ... *)
Lemma lazy_slug_dot_git (slug dg : string) :
  slug <> ""%string -> ci_eqb ".git" dg = true -> lazy_slug (slug +:+ dg) = slug.
Proof.
  intros Hne Hdg. induction slug as [|c s IH]; [congruence|].
  rewrite app_cons. cbn [lazy_slug].
  destruct s as [|c' s'].
  - change ("" +:+ dg)%string with dg.
    assert (tail_ok dg = true) as -> by (destruct dg; [reflexivity|exact Hdg]).
    reflexivity.
  - destruct (tail_ok (String c' s' +:+ dg)) eqn:E.
    + apply tail_ok_length in E. rewrite length_append in E.
      rewrite (ci_eqb_length _ _ Hdg) in E. simpl in E. lia.
    + rewrite IH; [reflexivity|discriminate].
Qed.

(** ... and takes everything otherwise. *)
Lemma lazy_slug_plain (rest : string) :
  (forall slug dg, slug <> ""%string -> ci_eqb ".git" dg = true -> rest <> slug +:+ dg) ->
  lazy_slug rest = rest.
Proof.
  induction rest as [|c t IH]; intros H; [reflexivity|].
  cbn [lazy_slug]. destruct (tail_ok t) eqn:E.
  - destruct t as [|c' t']; [reflexivity|].
    exfalso. apply (H (String c "") (String c' t')); [discriminate|exact E|reflexivity].
  - rewrite IH; [reflexivity|].
    intros slug dg Hne Hdg ->. apply (H (String c slug) dg); [discriminate|exact Hdg|].
    reflexivity.
Qed.

Lemma lit_prefix (p p' s : string) :
  ci_eqb p p' = true -> lit p (p' +:+ s) = [(tt, s)].
Proof.
  revert p'. induction p as [|a p IH]; intros [|b p'] H; try discriminate.
  - reflexivity.
  - simpl in H. apply andb_true_iff in H as [Hab H].
    rewrite app_cons. simpl. rewrite Hab. apply IH. exact H.
Qed.

Lemma lit_char (c : ascii) (s : string) :
  c = ":"%char \/ c = "/"%char \/ c = "@"%char \/ c = "."%char ->
  lit (String c "") (String c s) = [(tt, s)].
Proof.
  intros Hc. simpl. rewrite (char_ci_punct c c Hc), Ascii.eqb_refl. reflexivity.
Qed.

(** The part that the two expressions share after the host:
    [([^/]+)\/(.+?)(\.git)?$] with the host already captured. *)
Lemma path_head (host ws rest : string) :
  ws <> ""%string -> lacks "/" ws = true ->
  rest <> ""%string -> single_line rest = true ->
  head ('(g2, r) ← plus_greedy (not_char "/") (ws +:+ String "/" rest);
        '(_, r) ← lit "/" r;
        '(g3, r) ← plus_lazy dot r;
        '(_, r) ← opt (lit ".git") r;
        '(_, _) ← eos r;
        [(host, g2, g3)])
  = Some (host, ws, lazy_slug rest).
Proof.
  intros Hw Hlw Hr Hs.
  rewrite greedy_bind; [|exact Hw|exact Hlw|].
  2:{ intros m a r Ha. cbv beta iota. rewrite (lit_char_ne r); [reflexivity|auto 6|exact Ha]. }
  cbv beta iota. rewrite lit_char by auto 6. rewrite bind_singleton.
  apply (lazy_head (fun m => (host, ws, m))); [exact Hr|exact Hs|].
  intros m r. apply (tail_head (host, ws, m) r).
Qed.

Lemma ssh_re_shape (g host ws rest : string) :
  ci_eqb "git" g = true ->
  host <> ""%string -> lacks ":" host = true ->
  ws <> ""%string -> lacks "/" ws = true ->
  rest <> ""%string -> single_line rest = true ->
  exec (ssh_re (g +:+ "@" +:+ host +:+ ":" +:+ ws +:+ "/" +:+ rest))
  = Some (host, ws, lazy_slug rest).
Proof.
  intros Hg Hh Hlh Hw Hlw Hr Hs. unfold ssh_re, exec.
  change "git@"%string with ("git" +:+ "@")%string.
  rewrite (lit_app "git" "@" g _ Hg), !cons_app, lit_char by auto 6.
  rewrite bind_singleton. cbv beta iota.
  rewrite greedy_bind; [|exact Hh|exact Hlh|].
  2:{ intros m a r Ha. cbv beta iota. rewrite (lit_char_ne r); [reflexivity|auto 6|exact Ha]. }
  cbv beta iota. rewrite lit_char by auto 6. rewrite bind_singleton.
  apply path_head; assumption.
Qed.

Lemma lacks_app (c : ascii) (a b : string) :
  lacks c (a +:+ b) = lacks c a && lacks c b.
Proof.
  unfold lacks. induction a as [|x a IH]; [reflexivity|].
  rewrite app_cons. simpl. rewrite IH, andb_assoc. reflexivity.
Qed.

Lemma ci_eqb_app_inv (p q s : string) :
  ci_eqb (p +:+ q) s = true ->
  exists s1 s2, s = s1 +:+ s2 /\ ci_eqb p s1 = true /\ ci_eqb q s2 = true.
Proof.
  revert s. induction p as [|a p IH]; intros s H.
  - exists ""%string, s. auto.
  - rewrite app_cons in H. destruct s as [|b s]; [discriminate|].
    cbn [ci_eqb] in H. apply andb_true_iff in H as [Hab H].
    destruct (IH s H) as (s1 & s2 & -> & H1 & H2).
    exists (String b s1), s2. cbn [ci_eqb]. rewrite Hab, H1. auto.
Qed.

Lemma scheme_prefix {R} (sch X : string) (F : unit * string -> list R) :
  scheme_ok sch = true ->
  ('(_, r) ← lit "http" (sch +:+ "://" +:+ X);
   '(_, r) ← opt (lit "s") r;
   lit "://" r ≫= F)
  = F (tt, X).
Proof.
  intros H. apply orb_true_iff in H as [H|H].
  - rewrite (lit_prefix "http" sch _ H), bind_singleton. cbv beta iota.
    unfold opt. rewrite bind_app, bind_map, bind_singleton.
    change (lit "s" ("://" +:+ X)) with (@nil (unit * string)).
    rewrite (lit_prefix "://" "://" X eq_refl), bind_singleton. reflexivity.
  - change "https"%string with ("http" +:+ "s")%string in H.
    apply ci_eqb_app_inv in H as (s1 & s2 & -> & H1 & H2).
    rewrite append_assoc, (lit_prefix "http" s1 _ H1), bind_singleton. cbv beta iota.
    unfold opt. rewrite bind_app, bind_map, bind_singleton.
    rewrite (lit_prefix "s" s2 _ H2), bind_singleton. cbv beta iota.
    rewrite (lit_prefix "://" "://" X eq_refl), bind_singleton.
    destruct s2 as [|e [|e' s2]]; try discriminate.
    2:{ cbn [ci_eqb] in H2. rewrite andb_false_r in H2. discriminate. }
    cbn [ci_eqb] in H2. rewrite andb_true_r in H2.
    assert (Hne : e <> ":"%char) by (intros ->; discriminate).
    rewrite app_cons. change ("" +:+ "://" +:+ X)%string with (String ":" ("//" +:+ X)).
    assert (Hl : lit "://" (String e (String ":" ("//" +:+ X))) = []).
    { change "://"%string with (String ":" "//"). cbn [lit].
      rewrite (char_ci_punct ":" e) by auto 6.
      apply Ascii.eqb_neq in Hne. rewrite Hne. reflexivity. }
    rewrite Hl. apply app_nil_r.
Qed.

Lemma https_body_head (host ws rest : string) :
  host <> ""%string -> lacks "/" host = true ->
  ws <> ""%string -> lacks "/" ws = true ->
  rest <> ""%string -> single_line rest = true ->
  head ('(g1, r) ← plus_greedy (not_char "/") (host +:+ String "/" (ws +:+ String "/" rest));
        '(_, r) ← lit "/" r;
        '(g2, r) ← plus_greedy (not_char "/") r;
        '(_, r) ← lit "/" r;
        '(g3, r) ← plus_lazy dot r;
        '(_, r) ← opt (lit ".git") r;
        '(_, _) ← eos r;
        [(g1, g2, g3)])
  = Some (host, ws, lazy_slug rest).
Proof.
  intros Hh Hlh Hw Hlw Hr Hs.
  rewrite greedy_bind; [|exact Hh|exact Hlh|].
  2:{ intros m a r Ha. cbv beta iota. rewrite (lit_char_ne r); [reflexivity|auto 6|exact Ha]. }
  cbv beta iota. rewrite lit_char by auto 6. rewrite bind_singleton.
  apply path_head; assumption.
Qed.

Lemma https_re_plain (sch host ws rest : string) :
  scheme_ok sch = true ->
  host <> ""%string -> lacks "/" host = true -> lacks "@" host = true ->
  ws <> ""%string -> lacks "/" ws = true -> lacks "@" ws = true ->
  rest <> ""%string -> single_line rest = true -> lacks "@" rest = true ->
  exec (https_re (sch +:+ "://" +:+ host +:+ "/" +:+ ws +:+ "/" +:+ rest))
  = Some (host, ws, lazy_slug rest).
Proof.
  intros Hsch Hh Hlh Hah Hw Hlw Haw Hr Hs Har. unfold https_re, exec.
  rewrite scheme_prefix by exact Hsch. cbv beta iota.
  unfold opt. rewrite bind_app, bind_map, bind_singleton.
  rewrite (greedy_none "@").
  - cbv beta iota. rewrite !cons_app. apply https_body_head; assumption.
  - rewrite !lacks_app, Hah, Haw, Har. reflexivity.
  - reflexivity.
  - intros m a r Ha. cbv beta iota. apply lit_char_ne; [auto 6|exact Ha].
Qed.

Lemma https_re_user (sch user host ws rest : string) :
  scheme_ok sch = true ->
  user <> ""%string -> lacks "@" user = true ->
  host <> ""%string -> lacks "/" host = true ->
  ws <> ""%string -> lacks "/" ws = true ->
  rest <> ""%string -> single_line rest = true ->
  exec (https_re (sch +:+ "://" +:+ user +:+ "@" +:+ host +:+ "/" +:+ ws +:+ "/" +:+ rest))
  = Some (host, ws, lazy_slug rest).
Proof.
  intros Hsch Hu Hau Hh Hlh Hw Hlw Hr Hs. unfold https_re, exec.
  rewrite scheme_prefix by exact Hsch. cbv beta iota.
  unfold opt. rewrite bind_app, bind_map, bind_singleton, !cons_app.
  rewrite greedy_bind; [|exact Hu|exact Hau|].
  2:{ intros m a r Ha. cbv beta iota. apply lit_char_ne; [auto 6|exact Ha]. }
  cbv beta iota. rewrite lit_char by auto 6. rewrite bind_singleton. cbv beta iota.
  rewrite head_app, https_body_head by assumption. reflexivity.
Qed.

(** ** What a match says about the input *)

Lemma elem_of_map_cons (c : ascii) (m r : string) (l : list (string * string)) :
  (m, r) ∈ map (fun '(m, r) => (String c m, r)) l ->
  exists m', m = String c m' /\ (m', r) ∈ l.
Proof.
  induction l as [|[m0 r0] l IH]; simpl; intros H; [inversion H|].
  apply elem_of_cons in H as [H|H].
  - injection H as -> ->. exists m0. split; [reflexivity|]. apply elem_of_cons; auto.
  - destruct (IH H) as (m' & -> & Hin). exists m'. split; [reflexivity|].
    apply elem_of_cons; auto.
Qed.

Lemma elem_of_lit (p s r : string) (u : unit) :
  (u, r) ∈ lit p s -> exists p', s = p' +:+ r /\ ci_eqb p p' = true.
Proof.
  revert s. induction p as [|a p IH]; intros s H.
  - simpl in H. apply list_elem_of_singleton in H. injection H as _ ->.
    exists ""%string. auto.
  - destruct s as [|b s]; cbn [lit] in H; [inversion H|].
    destruct (char_ci a b) eqn:E; [|inversion H].
    destruct (IH s H) as (p' & -> & Hp). exists (String b p'). cbn [ci_eqb].
    rewrite E, Hp. auto.
Qed.

Lemma elem_of_plus_greedy (c : ascii) (s m r : string) :
  (m, r) ∈ plus_greedy (not_char c) s ->
  s = m +:+ r /\ m <> ""%string /\ lacks c m = true.
Proof.
  revert m. induction s as [|a s IH]; intros m H; [inversion H|].
  cbn [plus_greedy not_char] in H. destruct (negb (Ascii.eqb a c)) eqn:E; [|inversion H].
  apply elem_of_app in H as [H|H].
  - apply elem_of_map_cons in H as (m' & -> & H).
    destruct (IH m' H) as (-> & _ & Hl). split; [reflexivity|]. split; [discriminate|].
    unfold lacks in *. simpl. rewrite E. exact Hl.
  - apply list_elem_of_singleton in H. injection H as -> ->.
    split; [reflexivity|]. split; [discriminate|]. unfold lacks. simpl. rewrite E. reflexivity.
Qed.

Lemma elem_of_plus_lazy (s m r : string) :
  (m, r) ∈ plus_lazy dot s ->
  s = m +:+ r /\ m <> ""%string /\ (single_line r = true -> single_line s = true).
Proof.
  revert m. induction s as [|a s IH]; intros m H; [inversion H|].
  cbn [plus_lazy dot] in H.
  destruct (negb (line_terminator_at (String a s))) eqn:E; [|inversion H].
  apply elem_of_cons in H as [H|H].
  - injection H as -> ->. split; [reflexivity|]. split; [discriminate|].
    intros Hr. cbn [single_line]. rewrite E, Hr. reflexivity.
  - apply elem_of_map_cons in H as (m' & -> & H).
    destruct (IH m' H) as (Hs & _ & Hl). split; [rewrite Hs at 1; reflexivity|].
    split; [discriminate|]. intros Hr. cbn [single_line]. rewrite E, (Hl Hr). reflexivity.
Qed.

Lemma elem_of_opt {A} (p : Matcher A) (s r : string) (o : option A) :
  (o, r) ∈ opt p s -> (o = None /\ r = s) \/ exists a, o = Some a /\ (a, r) ∈ p s.
Proof.
  unfold opt. intros H. apply elem_of_app in H as [H|H].
  - right. induction (p s) as [|[a0 r0] l IH]; simpl in H; [inversion H|].
    apply elem_of_cons in H as [H|H].
    + injection H as -> ->. exists a0. split; [reflexivity|]. apply elem_of_cons; auto.
    + destruct (IH H) as (a & -> & Hin). exists a. split; [reflexivity|].
      apply elem_of_cons; auto.
  - left. apply list_elem_of_singleton in H. injection H as -> ->. auto.
Qed.

Lemma elem_of_eos (s r : string) (u : unit) : (u, r) ∈ eos s -> s = ""%string.
Proof. destruct s; simpl; intros H; [reflexivity|inversion H]. Qed.

Lemma ci_punct_exact (c : ascii) (p : string) :
  c = ":"%char \/ c = "/"%char \/ c = "@"%char \/ c = "."%char ->
  ci_eqb (String c "") p = true -> p = String c "".
Proof.
  intros Hc H. destruct p as [|b [|b' p]]; try discriminate.
  - cbn [ci_eqb] in H. rewrite andb_true_r, (char_ci_punct c b Hc) in H.
    apply Ascii.eqb_eq in H. subst. reflexivity.
  - cbn [ci_eqb] in H. rewrite andb_false_r in H. discriminate.
Qed.

Lemma not_line_terminator (x a : ascii) (s : string) :
  x = "."%char \/ x = "g"%char \/ x = "i"%char \/ x = "t"%char ->
  char_ci x a = true -> line_terminator_at (String a s) = false.
Proof.
  intros [->|[->|[->| ->]]] H;
    destruct a as [[] [] [] [] [] [] [] []]; vm_compute in H; try discriminate;
    reflexivity.
Qed.

Lemma ci_eqb_app (p q a b : string) :
  ci_eqb p a = true -> ci_eqb q b = true -> ci_eqb (p +:+ q) (a +:+ b) = true.
Proof.
  revert a. induction p as [|x p IH]; intros [|y a] Hp Hq; try discriminate; [exact Hq|].
  cbn [ci_eqb] in Hp. apply andb_true_iff in Hp as [Hxy Hp].
  rewrite !app_cons. cbn [ci_eqb]. rewrite Hxy. apply IH; assumption.
Qed.

Lemma single_line_dot_git (dg : string) : ci_eqb ".git" dg = true -> single_line dg = true.
Proof.
  intros H. destruct dg as [|a [|b [|c [|d [|e dg]]]]]; try discriminate;
    cbn [ci_eqb] in H; rewrite ?andb_false_r in H; try discriminate.
  rewrite andb_true_r in H.
  apply andb_true_iff in H as [Ha H]. apply andb_true_iff in H as [Hb H].
  apply andb_true_iff in H as [Hc Hd].
  cbn [single_line].
  rewrite (not_line_terminator "." a), (not_line_terminator "g" b),
    (not_line_terminator "i" c), (not_line_terminator "t" d) by auto 6.
  reflexivity.
Qed.

(** The tail [(.+?)(\.git)?$] of both expressions. *)
Lemma tail_sound {R} (K : string -> R) (x : R) (s : string) :
  x ∈ ('(g3, r) ← plus_lazy dot s;
       '(_, r) ← opt (lit ".git") r;
       '(_, _) ← eos r;
       [K g3]) ->
  s <> ""%string /\ single_line s = true.
Proof.
  intros H.
  unbind H as [g3 r1] H1. unbind H as [o r2] H2. unbind H as [u r3] H3.
  apply elem_of_plus_lazy in H1 as (-> & Hne & Hl).
  apply elem_of_eos in H3. subst r2.
  split; [destruct g3; [congruence|discriminate]|].
  apply Hl. apply elem_of_opt in H2 as [[_ Hr]|(a & _ & Hlit)]; [subst r1; reflexivity|].
  apply elem_of_lit in Hlit as (p' & -> & Hp). rewrite append_nil_r.
  apply single_line_dot_git, Hp.
Qed.

Lemma path_sound {R} (K : string -> string -> R) (x : R) (s : string) :
  x ∈ ('(g2, r) ← plus_greedy (not_char "/") s;
       '(_, r) ← lit "/" r;
       '(g3, r) ← plus_lazy dot r;
       '(_, r) ← opt (lit ".git") r;
       '(_, _) ← eos r;
       [K g2 g3]) ->
  exists ws rest,
    s = ws +:+ "/" +:+ rest
    /\ ws <> ""%string /\ lacks "/" ws = true
    /\ rest <> ""%string /\ single_line rest = true.
Proof.
  intros H. unbind H as [g2 r1] H1. unbind H as [u r2] H2.
  apply elem_of_plus_greedy in H1 as (-> & Hne & Hl).
  apply elem_of_lit in H2 as (p' & -> & Hp).
  apply ci_punct_exact in Hp; [subst p'|auto 6].
  apply (tail_sound (K g2)) in H as [Hr Hs].
  exists g2, r2. auto 8.
Qed.

Lemma ssh_re_sound (s : string) (x : string * string * string) :
  x ∈ ssh_re s -> ssh_shape s.
Proof.
  unfold ssh_re. intros H.
  unbind H as [u0 r0] H0. unbind H as [g1 r1] H1. unbind H as [u2 r2] H2.
  apply elem_of_lit in H0 as (p0 & -> & Hp).
  change "git@"%string with ("git" +:+ "@")%string in Hp.
  apply ci_eqb_app_inv in Hp as (g & at' & -> & Hg & Hat).
  apply ci_punct_exact in Hat; [subst at'|auto 6].
  apply elem_of_plus_greedy in H1 as (-> & Hh & Hlh).
  apply elem_of_lit in H2 as (p2 & -> & Hp).
  apply ci_punct_exact in Hp; [subst p2|auto 6].
  apply (path_sound (fun g2 g3 => (g1, g2, g3))) in H
    as (ws & rest & -> & Hw & Hlw & Hr & Hs).
  exists g, g1, ws, rest. rewrite !append_assoc. auto 10.
Qed.

Lemma ci_scheme_sep (p : string) : ci_eqb "://" p = true -> p = "://"%string.
Proof.
  intros H. change "://"%string with (":" +:+ "/" +:+ "/")%string in H.
  apply ci_eqb_app_inv in H as (a & r & -> & Ha & H).
  apply ci_eqb_app_inv in H as (b & c & -> & Hb & Hc).
  apply ci_punct_exact in Ha; [subst a|auto 6].
  apply ci_punct_exact in Hb; [subst b|auto 6].
  apply ci_punct_exact in Hc; [subst c|auto 6]. reflexivity.
Qed.

Lemma https_re_sound (s : string) (x : string * string * string) :
  x ∈ https_re s -> https_shape s.
Proof.
  unfold https_re. intros H.
  unbind H as [u0 r0] H0. unbind H as [o1 r1] H1. unbind H as [u2 r2] H2.
  unbind H as [o3 r3] H3. unbind H as [g1 r4] H4. unbind H as [u5 r5] H5.
  apply elem_of_lit in H0 as (p0 & -> & Hp0).
  apply elem_of_lit in H2 as (p2 & Hr1 & Hp2). apply ci_scheme_sep in Hp2. subst p2 r1.
  apply elem_of_plus_greedy in H4 as (Hr3 & Hh & Hlh). subst r3.
  apply elem_of_lit in H5 as (p5 & Hr4 & Hp5).
  apply ci_punct_exact in Hp5; [subst p5 r4|auto 6].
  apply (path_sound (fun g2 g3 => (g1, g2, g3))) in H
    as (ws & rest & Hr5 & Hw & Hlw & Hr & Hs). subst r5.
  assert (Hsch : exists sch, p0 +:+ r0 = sch +:+ "://" +:+ r2 /\ scheme_ok sch = true).
  { apply elem_of_opt in H1 as [[_ Heq]|(a & _ & Hlit)].
    - exists p0. split; [congruence|]. unfold scheme_ok. rewrite Hp0. reflexivity.
    - apply elem_of_lit in Hlit as (p1 & -> & Hp1). exists (p0 +:+ p1)%string.
      split; [rewrite append_assoc; reflexivity|].
      unfold scheme_ok. change "https"%string with ("http" +:+ "s")%string.
      rewrite (ci_eqb_app _ _ _ _ Hp0 Hp1). apply orb_true_r. }
  destruct Hsch as (sch & -> & Hsch).
  assert (Hauth : exists auth,
             r2 = auth +:+ g1 +:+ "/" +:+ ws +:+ "/" +:+ rest
             /\ (auth = ""%string
                 \/ exists user, auth = user +:+ "@" /\ user <> ""%string
                                 /\ lacks "@" user = true)).
  { apply elem_of_opt in H3 as [[_ Heq]|(a & _ & Hu)].
    - exists ""%string. split; [symmetry; exact Heq|]. auto.
    - unbind Hu as [user ru] Hu1. apply elem_of_plus_greedy in Hu1 as (-> & Hu1 & Hu2).
      apply elem_of_lit in Hu as (p' & -> & Hp).
      apply ci_punct_exact in Hp; [subst p'|auto 6].
      exists (user +:+ "@")%string. split; [rewrite !append_assoc; reflexivity|].
      right. exists user. auto. }
  destruct Hauth as (auth & -> & Hauth).
  exists sch, auth, g1, ws, rest. auto 12.
Qed.

Lemma ssh_re_http (sch X : string) : scheme_ok sch = true -> ssh_re (sch +:+ X) = [].
Proof.
  intros H.
  assert (Hh : exists a sch', sch = String a sch' /\ char_ci "h" a = true).
  { apply orb_true_iff in H as [H|H]; destruct sch as [|a sch']; try discriminate;
      cbn [ci_eqb] in H; apply andb_true_iff in H as [Ha _]; eauto. }
  destruct Hh as (a & sch' & -> & Ha).
  unfold ssh_re. rewrite app_cons. cbn [lit].
  assert (char_ci "g" a = false) as ->; [|reflexivity].
  unfold char_ci in *. apply Ascii.eqb_eq in Ha. rewrite <- Ha. reflexivity.
Qed.

Lemma https_re_matches (s : string) :
  https_shape s -> exists x, exec (https_re s) = Some x.
Proof.
  intros (sch & auth & host & ws & rest & -> & Hsch & Hauth & Hh & Hlh & Hw & Hlw & Hr & Hs).
  destruct Hauth as [->|(user & -> & Hu & Hlu)].
  - unfold https_re, exec.
    change ("" +:+ host +:+ "/" +:+ ws +:+ "/" +:+ rest)%string
      with (host +:+ "/" +:+ ws +:+ "/" +:+ rest)%string.
    rewrite scheme_prefix by exact Hsch. cbv beta iota.
    unfold opt. rewrite bind_app, bind_singleton, head_app. cbv beta iota.
    rewrite !cons_app, https_body_head by assumption.
    destruct (head _); eauto.
  - rewrite append_assoc. eexists. apply https_re_user; assumption.
Qed.

(** C3 (as stated) fails: a remote of the SSH shape whose user token is not
    [git] is refused. *)
Lemma parseBitbucketRemote_other_user_refused :
  parseBitbucketRemote "alice@bitbucket.org:myteam/my-repo.git"
  = Throw (ThrowError "Error"
             "Unsupported Bitbucket remote URL: alice@bitbucket.org:myteam/my-repo.git").
Proof. reflexivity. Qed.

(** C3 (amended). Let the host and the workspace be non-empty, the
    workspace without [/], and [rest] be non-empty and without a line
    terminator. For every remote of the SSH shape
    [git@<host>:<workspace>/<rest>], where the user token is [git] in any
    letter case and the host holds no [:], and for every remote of the
    HTTPS shape [http(s)://[<user>@]<host>/<workspace>/<rest>], where the
    host holds no [/], the user is non-empty without [@], and without a
    user no [@] occurs in host, workspace and [rest],
    [parseBitbucketRemote] returns the host, the workspace and a slug cut
    out of [rest]. The lazy group leaves out a final [.git] (in any letter
    case) when something comes before it and takes [rest] whole otherwise;
    on the HTTPS branch this is the slug. The SSH branch then cuts one more
    final [.git] (in lower case) off what is left: [repo.git.git] gives
    [repo], and [.git] gives the empty slug. A string has one of the two
    shapes exactly when it is parsed; any other string raises the
    unsupported-remote error. *)
Theorem parseBitbucketRemote_shapes :
  (forall g host ws rest,
      ci_eqb "git" g = true ->
      host <> ""%string -> lacks ":" host = true ->
      ws <> ""%string -> lacks "/" ws = true ->
      rest <> ""%string -> single_line rest = true ->
      parseBitbucketRemote (g +:+ "@" +:+ host +:+ ":" +:+ ws +:+ "/" +:+ rest)
      = Ok (mkRemote host ws
              (if endsWith (lazy_slug rest) ".git"
               then slice_drop_last 4 (lazy_slug rest) else lazy_slug rest)))
  /\ (forall sch host ws rest,
        scheme_ok sch = true ->
        host <> ""%string -> lacks "/" host = true -> lacks "@" host = true ->
        ws <> ""%string -> lacks "/" ws = true -> lacks "@" ws = true ->
        rest <> ""%string -> single_line rest = true -> lacks "@" rest = true ->
        parseBitbucketRemote (sch +:+ "://" +:+ host +:+ "/" +:+ ws +:+ "/" +:+ rest)
        = Ok (mkRemote host ws (lazy_slug rest)))
  /\ (forall sch user host ws rest,
        scheme_ok sch = true ->
        user <> ""%string -> lacks "@" user = true ->
        host <> ""%string -> lacks "/" host = true ->
        ws <> ""%string -> lacks "/" ws = true ->
        rest <> ""%string -> single_line rest = true ->
        parseBitbucketRemote
          (sch +:+ "://" +:+ user +:+ "@" +:+ host +:+ "/" +:+ ws +:+ "/" +:+ rest)
        = Ok (mkRemote host ws (lazy_slug rest)))
  /\ (forall slug dg,
        slug <> ""%string -> ci_eqb ".git" dg = true -> lazy_slug (slug +:+ dg) = slug)
  /\ (forall rest,
        (forall slug dg, slug <> ""%string -> ci_eqb ".git" dg = true ->
                         rest <> slug +:+ dg) ->
        lazy_slug rest = rest)
  /\ (forall s, ssh_shape s \/ https_shape s ->
                exists d, parseBitbucketRemote s = Ok d)
  /\ (forall s, ~ ssh_shape s -> ~ https_shape s ->
                parseBitbucketRemote s
                = Throw (ThrowError "Error" ("Unsupported Bitbucket remote URL: " +:+ s))).
Proof.
  split; [|split; [|split; [|split; [|split; [|split]]]]].
  - intros g host ws rest Hg Hh Hlh Hw Hlw Hr Hs. unfold parseBitbucketRemote.
    rewrite ssh_re_shape by assumption. reflexivity.
  - intros sch host ws rest Hsch Hh Hlh Hah Hw Hlw Haw Hr Hs Har.
    unfold parseBitbucketRemote. rewrite ssh_re_http by exact Hsch.
    cbn [exec head]. rewrite https_re_plain by assumption. reflexivity.
  - intros sch user host ws rest Hsch Hu Hlu Hh Hlh Hw Hlw Hr Hs.
    unfold parseBitbucketRemote. rewrite ssh_re_http by exact Hsch.
    cbn [exec head]. rewrite https_re_user by assumption. reflexivity.
  - exact lazy_slug_dot_git.
  - exact lazy_slug_plain.
  - intros s [Hssh|Hhttps]; unfold parseBitbucketRemote.
    + destruct Hssh as (g & host & ws & rest & -> & Hg & Hh & Hlh & Hw & Hlw & Hr & Hs).
      rewrite ssh_re_shape by assumption. eauto.
    + destruct (exec (ssh_re s)) as [[[h w] r]|]; [eauto|].
      destruct (https_re_matches s Hhttps) as ([[h w] r] & ->). eauto.
  - intros s Hssh Hhttps. unfold parseBitbucketRemote, exec.
    destruct (head (ssh_re s)) as [x|] eqn:E1.
    { exfalso. apply Hssh, (ssh_re_sound s x), head_Some_elem_of, E1. }
    destruct (head (https_re s)) as [x|] eqn:E2.
    { exfalso. apply Hhttps, (https_re_sound s x), head_Some_elem_of, E2. }
    reflexivity.
Qed.

Lemma parseBitbucketRemote_shapes_witness :
  parseBitbucketRemote "git@bitbucket.org:myteam/my-repo.git"
  = Ok (mkRemote "bitbucket.org" "myteam" "my-repo")
  /\ parseBitbucketRemote "https://bitbucket.org/myteam/my-repo.git"
     = Ok (mkRemote "bitbucket.org" "myteam" "my-repo")
  /\ parseBitbucketRemote "https://user@bitbucket.org/myteam/my-repo"
     = Ok (mkRemote "bitbucket.org" "myteam" "my-repo")
  /\ parseBitbucketRemote "git@bitbucket.org:myteam/my-repo.git.git"
     = Ok (mkRemote "bitbucket.org" "myteam" "my-repo")
  /\ parseBitbucketRemote "https://bitbucket.org/myteam/my-repo.git.git"
     = Ok (mkRemote "bitbucket.org" "myteam" "my-repo.git")
  /\ parseBitbucketRemote "git@bitbucket.org:myteam/.git"
     = Ok (mkRemote "bitbucket.org" "myteam" "").
Proof.
  destruct parseBitbucketRemote_shapes as (Hssh & Hplain & Huser & _).
  split; [|split; [|split; [|split; [|split]]]].
  - apply (Hssh "git" "bitbucket.org" "myteam" "my-repo.git")%string;
      (reflexivity || discriminate).
  - apply (Hplain "https" "bitbucket.org" "myteam" "my-repo.git")%string;
      (reflexivity || discriminate).
  - apply (Huser "https" "user" "bitbucket.org" "myteam" "my-repo")%string;
      (reflexivity || discriminate).
  - apply (Hssh "git" "bitbucket.org" "myteam" "my-repo.git.git")%string;
      (reflexivity || discriminate).
  - apply (Hplain "https" "bitbucket.org" "myteam" "my-repo.git.git")%string;
      (reflexivity || discriminate).
  - apply (Hssh "git" "bitbucket.org" "myteam" ".git")%string;
      (reflexivity || discriminate).
Defined.

Example parseBitbucketRemote_upper_case :
  parseBitbucketRemote "GIT@bitbucket.org:myteam/my-repo.GIT"
  = Ok (mkRemote "bitbucket.org" "myteam" "my-repo").
Proof. reflexivity. Qed.

Example parseBitbucketRemote_no_scheme :
  parseBitbucketRemote "bitbucket.org/myteam/my-repo"
  = Throw (ThrowError "Error"
             "Unsupported Bitbucket remote URL: bitbucket.org/myteam/my-repo").
Proof. reflexivity. Qed.

End GitProps.

(* ================================================================== *)
(** * Further properties of the configuration *)
(* ================================================================== *)

Module ConfigFacts.
Import Config Spec ConfigSpec Main.

Lemma fromFiles_cons_unusable (p : string) (ps : list string) (dir : Directory) :
  ~ usable dir p -> fromFiles (p :: ps) dir = fromFiles ps dir.
Proof.
  intros H. simpl. destruct (dir !! p) as [[raw|]|] eqn:E; try reflexivity.
  destruct (config_of_file raw) as [[cfg|x]|] eqn:Ec; try reflexivity.
  exfalso. apply H. exists raw, cfg. auto.
Qed.

Lemma fromFiles_agree (ps : list string) (dir dir' : Directory) :
  (forall p, p ∈ ps -> dir !! p = dir' !! p) -> fromFiles ps dir = fromFiles ps dir'.
Proof.
  induction ps as [|q ps IH]; intros H; [reflexivity|].
  cbn [fromFiles]. rewrite <- (H q) by (apply elem_of_cons; auto).
  rewrite IH; [reflexivity|]. intros p Hp. apply H. apply elem_of_cons; auto.
Qed.

Lemma fromFiles_delete (p : string) (ps : list string) (dir : Directory) :
  ~ usable dir p -> fromFiles ps (delete p dir) = fromFiles ps dir.
Proof.
  intros H. induction ps as [|q ps IH]; [reflexivity|].
  destruct (decide (p = q)) as [<-|Hne].
  - rewrite (fromFiles_cons_unusable p ps dir H). cbn [fromFiles].
    rewrite lookup_delete_eq. exact IH.
  - cbn [fromFiles]. rewrite lookup_delete_ne by exact Hne. rewrite IH. reflexivity.
Qed.

Lemma fromFiles_None (ps : list string) (dir : Directory) :
  fromFiles ps dir = None <-> forall p, p ∈ ps -> ~ usable dir p.
Proof.
  induction ps as [|q ps IH].
  - split; [intros _ p Hp; inversion Hp|reflexivity].
  - cbn [fromFiles]. split.
    + intros H p Hp (raw & cfg & Hl & Hc).
      apply elem_of_cons in Hp as [->|Hp].
      * rewrite Hl, Hc in H. discriminate.
      * assert (Hn : fromFiles ps dir = None).
        { destruct (dir !! q) as [[raw'|]|]; try exact H.
          destruct (config_of_file raw') as [[cfg'|x]|]; [discriminate|exact H|exact H]. }
        apply (proj1 IH Hn p Hp). exists raw, cfg. auto.
    + intros H.
      assert (Hq : ~ usable dir q) by (apply H, elem_of_cons; auto).
      pose proof (fromFiles_cons_unusable q ps dir Hq) as E. cbn [fromFiles] in E.
      rewrite E. apply IH. intros p Hp. apply H, elem_of_cons. auto.
Qed.

Lemma fromFiles_Some (ps : list string) (dir : Directory) :
  (exists p, p ∈ ps /\ usable dir p) -> exists cfg, fromFiles ps dir = Some cfg.
Proof.
  intros (p & Hp & Hu). destruct (fromFiles ps dir) as [cfg|] eqn:E; [eauto|].
  exfalso. exact (proj1 (fromFiles_None ps dir) E p Hp Hu).
Qed.

Lemma fromEnv_dir (env : Env) (dir dir' : Directory) : fromEnv env dir = fromEnv env dir'.
Proof.
  unfold fromEnv.
  destruct (bool_decide (is_Some (dir !! ".env"%string)));
    destruct (bool_decide (is_Some (dir' !! ".env"%string)));
    destruct (set (env !! "ATLASSIAN_USER_EMAIL"%string));
    destruct (set (env !! "ATLASSIAN_API_TOKEN"%string)); reflexivity.
Qed.

Lemma fromEnv_None (env : Env) (dir : Directory) :
  fromEnv env dir = None
  <-> set (env !! "ATLASSIAN_USER_EMAIL"%string) = false
      \/ set (env !! "ATLASSIAN_API_TOKEN"%string) = false.
Proof.
  unfold fromEnv.
  destruct (bool_decide (is_Some (dir !! ".env"%string)));
    destruct (set (env !! "ATLASSIAN_USER_EMAIL"%string));
    destruct (set (env !! "ATLASSIAN_API_TOKEN"%string)); simpl;
    split; intros H; try discriminate; try reflexivity; auto;
    destruct H; discriminate.
Qed.

Lemma configPaths_not_dotenv (p : string) : p ∈ configPaths -> p <> ".env"%string.
Proof.
  intros Hp ->. unfold configPaths in Hp.
  repeat (apply elem_of_cons in Hp as [Hp|Hp]; [discriminate|]). inversion Hp.
Qed.

(** X1. [loadConfig] throws the missing-credentials error exactly when none
    of the three configuration files can be used and the user identity and
    the API credential are not both set in the environment. *)
Theorem loadConfig_missing_credentials (env : Env) (dir : Directory) :
  loadConfig env dir = Error MISSING_CREDENTIALS
  <-> (forall p, p ∈ configPaths -> ~ usable dir p)
      /\ (set (env !! "ATLASSIAN_USER_EMAIL"%string) = false
          \/ set (env !! "ATLASSIAN_API_TOKEN"%string) = false).
Proof.
  unfold loadConfig. rewrite <- fromFiles_None, <- (fromEnv_None env dir).
  destruct (fromFiles configPaths dir) as [cfg|]; [split; [discriminate|intros [? _]; discriminate]|].
  destruct (fromEnv env dir) as [cfg|]; split; try discriminate; auto.
  intros [_ H]. discriminate.
Qed.

(** X2. A configuration file that cannot be used (it does not parse, it
    has no [bitbucket.environments], or building from it throws, as when
    [ATLASSIAN_SITE_URL] is missing) is skipped: the result is the one of
    the directory without that file. *)
Theorem loadConfig_skips_unusable_file (env : Env) (dir : Directory) (p : string) :
  ~ usable dir p -> loadConfig env (delete p dir) = loadConfig env dir.
Proof.
  intros H. unfold loadConfig.
  rewrite (fromFiles_delete p configPaths dir H), (fromEnv_dir env (delete p dir) dir).
  reflexivity.
Qed.

Lemma broken_dir_unusable (p : string) : ~ usable broken_dir p.
Proof.
  intros (raw & cfg & Hl & Hc).
  destruct (decide (p = "mcp.config.json"%string)) as [->|H1]; [vm_compute in Hl; discriminate|].
  destruct (decide (p = ".mcp.config.json"%string)) as [->|H2].
  { vm_compute in Hl. injection Hl as <-. vm_compute in Hc. discriminate. }
  destruct (decide (p = ".bitbucket.mcp.json"%string)) as [->|H3].
  { vm_compute in Hl. injection Hl as <-. vm_compute in Hc. discriminate. }
  unfold broken_dir in Hl. simpl in Hl.
  rewrite !lookup_insert_ne in Hl by congruence. rewrite lookup_empty in Hl. discriminate.
Qed.

Lemma loadConfig_skips_unusable_file_witness :
  loadConfig env_shell (delete ".bitbucket.mcp.json"%string broken_dir)
  = loadConfig env_shell broken_dir.
Proof.
  apply (loadConfig_skips_unusable_file env_shell broken_dir ".bitbucket.mcp.json").
  apply broken_dir_unusable.
Defined.

(** X3. Whether a [.env] file exists makes no difference to [loadConfig]. *)
Theorem loadConfig_ignores_dotenv_file (env : Env) (dir : Directory) (x : option jsval) :
  loadConfig env (<[".env"%string := x]> dir) = loadConfig env dir
  /\ loadConfig env (delete ".env"%string dir) = loadConfig env dir.
Proof.
  split; unfold loadConfig.
  - rewrite (fromFiles_agree configPaths _ dir), (fromEnv_dir env _ dir); [reflexivity|].
    intros p Hp. apply lookup_insert_ne. intros E.
    exact (configPaths_not_dotenv p Hp (eq_sym E)).
  - rewrite (fromFiles_agree configPaths _ dir), (fromEnv_dir env _ dir); [reflexivity|].
    intros p Hp. apply lookup_delete_ne. intros E.
    exact (configPaths_not_dotenv p Hp (eq_sym E)).
Qed.

(** X4. The two sources never mix: when one of the configuration files can
    be used the environment plays no part in the result, and when none can
    the directory plays none. *)
Theorem loadConfig_one_source (env env' : Env) (dir dir' : Directory) :
  ((exists p, p ∈ configPaths /\ usable dir p) ->
   loadConfig env dir = loadConfig env' dir)
  /\ ((forall p, p ∈ configPaths -> ~ usable dir p) ->
      (forall p, p ∈ configPaths -> ~ usable dir' p) ->
      loadConfig env dir = loadConfig env dir').
Proof.
  split.
  - intros H. destruct (fromFiles_Some _ _ H) as (cfg & Hc).
    unfold loadConfig. rewrite Hc. reflexivity.
  - intros H H'. apply fromFiles_None in H, H'. unfold loadConfig.
    rewrite H, H', (fromEnv_dir env dir dir'). reflexivity.
Qed.
Lemma loadConfig_one_source_witness :
  loadConfig dotenv_env dotenv_and_json_dir = loadConfig env_shell dotenv_and_json_dir
  /\ loadConfig env_shell broken_dir = loadConfig env_shell ∅.
Proof.
  destruct (loadConfig_one_source dotenv_env env_shell dotenv_and_json_dir broken_dir)
    as [H1 _].
  destruct (loadConfig_one_source env_shell env_shell broken_dir ∅) as [_ H2].
  split.
  - apply H1. exists "mcp.config.json"%string.
    split; [apply elem_of_cons; left; reflexivity|].
    unfold usable. eexists _, _. split; vm_compute; reflexivity.
  - apply H2; intros p _; [apply broken_dir_unusable|].
    intros (raw & cfg & Hl & _). rewrite lookup_empty in Hl. discriminate.
Defined.

Lemma fromFiles_inv (ps : list string) (dir : Directory) (cfg : BitbucketConfig) :
  fromFiles ps dir = Some cfg ->
  exists p raw, p ∈ ps /\ dir !! p = Some (Some raw) /\ config_of_file raw = Some (Ok cfg).
Proof.
  induction ps as [|q ps IH]; [discriminate|]. cbn [fromFiles]. intros H.
  assert (Hrec : fromFiles ps dir = Some cfg ->
                 exists p raw, p ∈ q :: ps /\ dir !! p = Some (Some raw)
                               /\ config_of_file raw = Some (Ok cfg)).
  { intros H'. destruct (IH H') as (p & raw & Hp & Hl & Hc).
    exists p, raw. split; [apply elem_of_cons; auto|auto]. }
  destruct (dir !! q) as [[raw|]|] eqn:E; [|auto|auto].
  destruct (config_of_file raw) as [[cfg'|x]|] eqn:Ec; [|auto|auto].
  injection H as ->. exists q, raw. split; [apply elem_of_cons; auto|auto].
Qed.

Lemma js_or_truthy (a b : jsval) : truthy b = true -> truthy (js_or a b) = true.
Proof. intros H. unfold js_or. destruct (truthy a) eqn:E; [exact E|exact H]. Qed.

Lemma env_or_nonempty (o : option string) (d : string) :
  str_nonempty d = true -> str_nonempty (env_or o d) = true.
Proof.
  intros H. unfold env_or. destruct o as [s|]; [|exact H].
  destruct (str_nonempty s) eqn:E; [exact E|exact H].
Qed.

Lemma loadConfig_sound (env : Env) (dir : Directory) (cfg : BitbucketConfig) :
  loadConfig env dir = Ok cfg ->
  includes_host (baseUrl cfg)
  = Ok (match authType cfg with basic => true | bearer => false end)
  /\ truthy (defaultDestinationBranch cfg) = true
  /\ ((forall p, p ∈ configPaths -> ~ usable dir p) ->
      truthy (ATLASSIAN_USER_EMAIL cfg) = true
      /\ truthy (ATLASSIAN_API_TOKEN cfg) = true).
Proof.
  unfold loadConfig. intros H.
  destruct (fromFiles configPaths dir) as [cfg'|] eqn:Ef.
  - injection H as ->. destruct (fromFiles_inv _ _ _ Ef) as (p & raw & Hp & Hl & Hc).
    split; [|split].
    + unfold config_of_file in Hc.
      destruct (truthy raw && _ && _); [|discriminate].
      destruct (includes_host _) as [cloud|x] eqn:Ei; [|discriminate].
      injection Hc as <-. cbn [baseUrl authType]. rewrite Ei. destruct cloud; reflexivity.
    + unfold config_of_file in Hc.
      destruct (truthy raw && _ && _); [|discriminate].
      destruct (includes_host _) as [cloud|x] eqn:Ei; [|discriminate].
      injection Hc as <-. cbn [defaultDestinationBranch].
      apply js_or_truthy, js_or_truthy. reflexivity.
    + intros Hno. exfalso. apply (Hno p Hp). exists raw, cfg. auto.
  - unfold fromEnv in H.
    destruct (bool_decide (is_Some (dir !! ".env"%string)));
      destruct (env !! "ATLASSIAN_USER_EMAIL"%string) as [[|c1 e]|];
      destruct (env !! "ATLASSIAN_API_TOKEN"%string) as [[|c2 k]|];
      try discriminate H; cbn [set str_nonempty andb] in H; injection H as <-;
      cbn [baseUrl authType defaultDestinationBranch ATLASSIAN_USER_EMAIL
             ATLASSIAN_API_TOKEN includes_host];
      (split; [destruct (includes _ CLOUD_HOST); reflexivity|]);
      (split; [apply (env_or_nonempty _ "main"); reflexivity|]);
      intros _; split; reflexivity.
Qed.

(** X5. Whatever the source, a configuration returned by [loadConfig] has
    the authentication type that goes with its base URL ([basic] exactly
    when the URL includes the Cloud host) and a default destination branch
    that is not falsy. Only a configuration taken from the environment is
    known to hold credentials: a file's are passed on unchecked. *)
Theorem loadConfig_invariants (env : Env) (dir : Directory) (cfg : BitbucketConfig) :
  loadConfig env dir = Ok cfg ->
  includes_host (baseUrl cfg)
  = Ok (match authType cfg with basic => true | bearer => false end)
  /\ truthy (defaultDestinationBranch cfg) = true
  /\ ((forall p, p ∈ configPaths -> ~ usable dir p) ->
      truthy (ATLASSIAN_USER_EMAIL cfg) = true
      /\ truthy (ATLASSIAN_API_TOKEN cfg) = true).
Proof.
  exact (loadConfig_sound env dir cfg).
Qed.

Lemma loadConfig_invariants_witness :
  exists cfg,
    loadConfig env_shell broken_dir = Ok cfg
    /\ authType cfg = basic
    /\ includes_host (baseUrl cfg) = Ok true
    /\ defaultDestinationBranch cfg = JStr "develop".
Proof.
  eexists. split; [vm_compute; reflexivity|].
  split; [reflexivity|]. split; [|reflexivity].
  exact (proj1 (loadConfig_invariants env_shell broken_dir _ eq_refl)).
Defined.

(** X20. The client that [main] builds speaks the dialect that goes with the
    authentication type of the loaded configuration: it is a Cloud client
    exactly when the type is [basic], and it keeps the configured base URL.
    This needs the base URL not to be empty: an empty site URL in a file
    gives [bearer] and the client then falls back to the Cloud API. *)
Theorem main_client_dialect (env : Env) (dir : Directory) (cfg : BitbucketConfig)
    (c : Client.BitbucketClient) :
  loadConfig env dir = Ok cfg ->
  main_client cfg = Some c ->
  baseUrl cfg <> JStr "" ->
  JStr (Client.baseUrl c) = baseUrl cfg
  /\ Client.authType c = authType cfg
  /\ (Client.isCloud c = true <-> authType cfg = basic).
Proof.
  intros Hl Hm Hne. destruct (loadConfig_sound env dir cfg Hl) as (Hi & _).
  unfold main_client in Hm.
  destruct (ATLASSIAN_USER_EMAIL cfg); try discriminate.
  destruct (ATLASSIAN_API_TOKEN cfg); try discriminate.
  destruct (baseUrl cfg) as [| | | |u| |] eqn:Eu; try discriminate.
  injection Hm as <-. rewrite ClientProps.isCloud_new.
  destruct u as [|a u]; [congruence|].
  cbn [Client.new_BitbucketClient Client.baseUrl Client.authType Client.opt_baseUrl
         Client.opt_authType str_nonempty].
  split; [reflexivity|]. split; [reflexivity|].
  cbn [includes_host] in Hi. revert Hi.
  generalize (includes (String a u) CLOUD_HOST). intros cloud Hi. injection Hi as ->.
  destruct (authType cfg); split; congruence.
Qed.

Lemma main_client_dialect_witness :
  exists c,
    main_client
      (mkConfig (JStr "https://git.example.com/rest/api/1.0") (JStr "file@example.com")
         (JStr "file-token") bearer (JStr "main")) = Some c
    /\ Client.authType c = bearer
    /\ (Client.isCloud c = true <-> bearer = basic).
Proof.
  eexists. split; [reflexivity|].
  refine (proj2 (main_client_dialect dotenv_env dotenv_and_json_dir
                   (mkConfig (JStr "https://git.example.com/rest/api/1.0")
                      (JStr "file@example.com") (JStr "file-token") bearer (JStr "main"))
                   _ eq_refl eq_refl _)).
  discriminate.
Defined.

Example empty_site_url_cloud_bearer :
  exists cfg c,
    loadConfig ∅ empty_site_dir = Ok cfg /\ main_client cfg = Some c
    /\ Client.isCloud c = true /\ Client.authType c = bearer.
Proof. eexists _, _. repeat split; vm_compute; reflexivity. Qed.

End ConfigFacts.

(* ================================================================== *)
(** * Further properties of the client *)
(* ================================================================== *)

Module ClientFacts.
Import Client Spec ClientSpec StringFacts.

Lemma prefix_append (p s : string) : String.prefix p (p +:+ s) = true.
Proof.
  induction p as [|a p IH]; [destruct s; reflexivity|].
  rewrite app_cons. simpl. destruct (ascii_dec a a); [exact IH|congruence].
Qed.

Lemma request_error_suggestion path method err :
  is_Some (suggestion (request_error path method err)).
Proof.
  unfold request_error.
  repeat match goal with |- context [if ?b then _ else _] => destruct b end;
    simpl; eauto.
Qed.

Lemma behaves_pure (c : BitbucketClient) {A} (r : Result A) :
  (forall e, r <> Throw (ThrowBitbucket e)) -> Behaves c 0 (lift r).
Proof.
  intros Hr w t. exists []. simpl. rewrite app_nil_r.
  split; [reflexivity|]. split; [lia|]. split; [constructor|].
  intros e H. exfalso. exact (Hr e H).
Qed.

Lemma behaves_weaken (c : BitbucketClient) (n n' : nat) {A} (m : M A) :
  (n <= n')%nat -> Behaves c n m -> Behaves c n' m.
Proof.
  intros Hn H w t. destruct (H w t) as (ext & He & Hl & Hf & Hx).
  exists ext. split; [exact He|]. split; [lia|]. split; [exact Hf|exact Hx].
Qed.

Lemma behaves_request (c : BitbucketClient) path init :
  (if isCloud c then cloud_path path else server_path path) = true ->
  default GET (init_method init) <> DELETE ->
  (default GET (init_method init) = GET -> init_body init = None) ->
  Behaves c 1 (request c path init).
Proof.
  intros Hp Hm Hb w t.
  exists [AxiosCall (baseUrl c) (default GET (init_method init)) path (init_body init)].
  split; [apply ClientProps.request_trace|]. split; [simpl; lia|].
  split; [repeat constructor; assumption|].
  intros e He. split; [discriminate|].
  unfold request in He. destruct (axios_reply _ _ _); simpl in He; [discriminate|].
  injection He as <-. apply request_error_suggestion.
Qed.

Lemma behaves_bind (c : BitbucketClient) (n1 n2 : nat) {A B} (m : M A) (k : A -> M B) :
  Behaves c n1 m -> (forall a, Behaves c n2 (k a)) -> Behaves c (n1 + n2) (m ≫= k).
Proof.
  intros Hm Hk w t. unfold_m.
  destruct (Hm w t) as (ext1 & He1 & Hl1 & Hf1 & Hx1).
  destruct (m w t) as [[a|x] t1] eqn:Em; simpl in He1, Hx1; subst t1.
  - destruct (Hk a w (t ++ ext1)) as (ext2 & He2 & Hl2 & Hf2 & Hx2).
    exists (ext1 ++ ext2). rewrite He2, app_assoc. split; [reflexivity|].
    split; [rewrite length_app; lia|]. split; [apply Forall_app; auto|].
    intros e He. destruct (Hx2 e He) as [Hne Hs]. split; [|exact Hs].
    destruct ext1; [exact Hne|discriminate].
  - exists ext1. simpl. split; [reflexivity|]. split; [lia|]. split; [exact Hf1|].
    intros e He. injection He as ->. apply Hx1. reflexivity.
Qed.

Lemma behaves_promise_all (c : BitbucketClient) (reqs : list (string * RequestInit)) :
  Forall (fun r => Behaves c 1 (request c (fst r) (snd r))) reqs ->
  Behaves c (length reqs) (promise_all (map (fun r => request c (fst r) (snd r)) reqs)).
Proof.
  intros Hall w t.
  exists (map (fun u => call_of c (fst u) (snd u)) reqs).
  split; [apply ClientProps.promise_all_trace|].
  split; [rewrite length_map; lia|]. split.
  - apply Forall_map. apply (Forall_impl _ _ _ Hall). intros [path init] Hr.
    destruct (Hr w t) as (ext & He & _ & Hf & _). cbn [fst snd] in He |- *.
    rewrite ClientProps.request_trace in He. apply app_inv_head in He. subst ext.
    inversion Hf; assumption.
  - intros e He.
    apply ClientProps.promise_all_thrown in He as (k & [path init] & Hk & Hr).
    split; [destruct reqs; discriminate|].
    cbn [fst snd] in Hr. unfold reply_of in Hr.
    destruct (axios_reply _ _ _); [discriminate|].
    injection Hr as <-. apply request_error_suggestion.
Qed.


Lemma prop_not_bitbucket (v : jsval) (k : string) (e : BitbucketError) :
  prop v k <> Throw (ThrowBitbucket e).
Proof. destruct v; discriminate. Qed.

Lemma map_text_not_bitbucket (ls : list jsval) (e : BitbucketError) :
  map_text ls <> Throw (ThrowBitbucket e).
Proof.
  induction ls as [|l ls IH]; simpl; [discriminate|].
  destruct (prop l "text") eqn:E; [|intros H; injection H as ->; exact (prop_not_bitbucket _ _ _ E)].
  destruct (map_text ls); [discriminate|]. intros H. apply IH. exact H.
Qed.

Lemma lines_content_not_bitbucket (response : jsval) (e : BitbucketError) :
  lines_content response <> Throw (ThrowBitbucket e).
Proof.
  unfold lines_content.
  destruct (prop response "lines") as [lines|x] eqn:E;
    [|intros H; injection H as ->; exact (prop_not_bitbucket _ _ _ E)].
  destruct lines; try discriminate.
  destruct (map_text xs) eqn:Em; [discriminate|].
  intros H. injection H as ->. exact (map_text_not_bitbucket _ _ Em).
Qed.

Ltac behaves_side Hc :=
  first
    [ discriminate
    | (intros; first [reflexivity | discriminate])
    | (rewrite Hc; unfold cloud_path, server_path; rewrite ?prefix_append; reflexivity) ].

Ltac behaves Hc :=
  repeat first
    [ apply behaves_request; [behaves_side Hc | behaves_side Hc | behaves_side Hc]
    | apply (behaves_bind _ 0 1);
      [apply behaves_pure; intros ?; first [apply prop_not_bitbucket | discriminate]|intros ?]
    | match goal with
      | |- Behaves _ _ (request _ (if ?b then _ else _) _) => destruct b
      | |- Behaves _ _ (if ?b then _ else _) => destruct b
      end ].

Lemma behaves_fetch_file (c : BitbucketClient)
    (workspace repoSlug filePath commitHash : jsval) :
  isCloud c = true ->
  Behaves c 1 (getFileContent c workspace repoSlug filePath commitHash).
Proof.
  intros Hc w t. unfold getFileContent. rewrite Hc. unfold_m. unfold fetch.
  eexists [FetchCall _].
  destruct (fetch_reply w (length t) _) as [status text|msg]; simpl.
  - destruct (negb (response_ok status)); simpl.
    + split; [reflexivity|]. split; [lia|]. split.
      * constructor; [split; [exact Hc|rewrite <- append_assoc; apply prefix_append]|constructor].
      * intros e He. split; [discriminate|]. injection He as <-.
        unfold file_fetch_error.
        destruct (status =? 404); [simpl; eauto|]. destruct (status =? 401); simpl; eauto.
    + split; [destruct text; reflexivity|]. split; [lia|]. split.
      * constructor; [split; [exact Hc|rewrite <- append_assoc; apply prefix_append]|constructor].
      * intros e He. destruct text; discriminate.
  - split; [reflexivity|]. split; [lia|]. split.
    + constructor; [split; [exact Hc|rewrite <- append_assoc; apply prefix_append]|constructor].
    + intros e He. discriminate.
Qed.

Lemma perform_behaves (c : BitbucketClient) (op : Operation) :
  Behaves c (call_bound c op) (perform c op).
Proof.
  destruct (isCloud c) eqn:Hc;
    destruct op; simpl;
    try (unfold getRepo, listPullRequests, createPullRequest, listBranches,
           createBranch, listWorkspaces, listRepositories, getPullRequest,
           getPullRequestDiff, getPullRequestChanges, addPullRequestComment,
           listCommits, approvePullRequest, declinePullRequest,
           mergePullRequest, updatePullRequest, listPullRequestComments,
           getCommit, getCommitDiff, compareBranches,
           addInlineCommentAfterReview;
         rewrite Hc; cbv zeta; solve [behaves Hc]).
  - apply behaves_fetch_file, Hc.
  - unfold addPullRequestReviewers.
    destruct reviewers; try rewrite Hc;
      try solve [behaves Hc];
      try solve
        [apply (behaves_weaken c 0 1); [lia|];
         first
           [ apply (behaves_pure c); discriminate
           | apply (behaves_bind _ 0 0);
             [apply behaves_pure; intros ?; apply prop_not_bitbucket
             |intros ?; apply (behaves_pure c (Ok JUndefined)); discriminate] ]].
  - unfold getFileContent. rewrite Hc.
    apply (behaves_bind c 1 0); [behaves Hc|].
    intros response. apply behaves_pure. intros e. apply lines_content_not_bitbucket.
  - unfold addPullRequestReviewers.
    destruct reviewers; try rewrite Hc;
      try solve
        [apply (behaves_weaken c 0 1); [lia|];
         first
           [ apply (behaves_pure c); discriminate
           | apply (behaves_bind _ 0 0);
             [apply behaves_pure; intros ?; apply prop_not_bitbucket
             |intros ?; apply (behaves_pure c (Ok JUndefined)); discriminate] ]].
    rewrite <- (Nat.add_0_r (length xs)).
    apply behaves_bind; [|intros l; apply (behaves_pure c (Ok (JArr l))); discriminate].
    rewrite <- (length_map
      (fun username =>
         ("/projects/" +:+ enc workspace +:+ "/repos/" +:+ enc repoSlug
          +:+ "/pull-requests/" +:+ ToString prId +:+ "/participants",
          post (JObj [("user", JObj [("name", username)]);
                      ("role", JStr "REVIEWER")]))) xs).
    rewrite <- (map_map
      (fun username =>
         ("/projects/" +:+ enc workspace +:+ "/repos/" +:+ enc repoSlug
          +:+ "/pull-requests/" +:+ ToString prId +:+ "/participants",
          post (JObj [("user", JObj [("name", username)]);
                      ("role", JStr "REVIEWER")])))
      (fun r => request c (fst r) (snd r))).
    apply behaves_promise_all. apply Forall_map. apply Forall_forall. intros u _. simpl.
    behaves Hc.
Qed.

(** X6. Every operation of the client issues at most one call, except
    adding reviewers on the Server dialect, which issues at most one per
    reviewer; nothing is retried and nothing is removed from the trace. *)
Theorem operations_call_at_most_once
    (c : BitbucketClient) (op : Operation) (w : World) (t : Trace) :
  exists ext,
    snd (perform c op w t) = t ++ ext /\ (length ext <= call_bound c op)%nat.
Proof.
  destruct (perform_behaves c op w t) as (ext & He & Hl & _). eauto.
Qed.

(** X7. Every call an operation issues is the client's own: it goes through
    the instance of its base URL on a path of its dialect ([/repositories/...]
    or [/workspaces] on Cloud, [/projects...] on Server), it is never a
    DELETE, and a GET carries no body; a fetch is only made by a Cloud
    client, below [/repositories/] of its base URL. *)
Theorem operations_stay_in_dialect
    (c : BitbucketClient) (op : Operation) (w : World) (t : Trace) :
  exists ext,
    snd (perform c op w t) = t ++ ext /\ Forall (own_call c) ext.
Proof.
  destruct (perform_behaves c op w t) as (ext & He & _ & Hf & _). eauto.
Qed.

(** X8. An operation throws a [BitbucketError] only after it has issued a
    call: what fails before the network (a missing argument) is never
    reported as a structured error. Every structured error comes with a
    suggestion. *)
Theorem structured_errors_follow_a_call
    (c : BitbucketClient) (op : Operation) (w : World) (t : Trace) (e : BitbucketError) :
  fst (perform c op w t) = Throw (ThrowBitbucket e) ->
  (length t < length (snd (perform c op w t)))%nat /\ is_Some (suggestion e).
Proof.
  intros He. destruct (perform_behaves c op w t) as (ext & Ht & _ & _ & Hx).
  destruct (Hx e He) as [Hne Hs]. split; [|exact Hs].
  rewrite Ht, length_app. destruct ext; [congruence|simpl; lia].
Qed.

Lemma structured_errors_follow_a_call_witness :
  exists e,
    fst (perform server_client (OpGetRepo (JStr "ws") (JStr "repo")) (status_world 404) [])
    = Throw (ThrowBitbucket e)
    /\ is_Some (suggestion e).
Proof.
  eexists. split; [reflexivity|].
  exact (proj2 (structured_errors_follow_a_call server_client
                  (OpGetRepo (JStr "ws") (JStr "repo")) (status_world 404) [] _ eq_refl)).
Defined.

(** X9. [testConnection] never throws and issues exactly the
    list-workspaces call; it reports success exactly when that call is
    resolved, and otherwise returns an error. *)
Theorem testConnection_reports (c : BitbucketClient) (w : World) (t : Trace) :
  let call :=
    AxiosCall (baseUrl c) GET (if isCloud c then "/workspaces" else "/projects")%string
      None in
  exists r,
    testConnection c w t = (Ok r, t ++ [call])
    /\ (success r = true <-> exists st d, axios_reply w (length t) call = AxiosResolved st d)
    /\ (success r = false <-> is_Some (error r)).
Proof.
  intros call. unfold testConnection, listWorkspaces. unfold_m.
  assert (Hreq : forall p, p = (if isCloud c then "/workspaces" else "/projects")%string ->
            request c p no_init w t
            = (match axios_reply w (length t) call with
               | AxiosResolved _ d => Ok d
               | AxiosRejected err => Throw (ThrowBitbucket (request_error p GET err))
               end, t ++ [call])).
  { intros p ->. unfold request. simpl. fold call.
    destruct (axios_reply w (length t) call); reflexivity. }
  destruct (isCloud c); rewrite (Hreq _ eq_refl);
    destruct (axios_reply w (length t) call) as [st d|err]; simpl;
    eexists; (split; [reflexivity|]); simpl;
    (split; [split; [eauto; discriminate| intros (? & ? & ?); congruence]
            |split; [eauto; discriminate|intros [? ?]; congruence]]).
Qed.

(** X10. [request] turns every rejection of the axios call into a
    [BitbucketError]: its retryability is a function of its kind, its
    details name the path and the method of the call, it carries the status
    of the response when there is one, and a failure without a response is
    a NETWORK_ERROR (codes ENOTFOUND, ECONNREFUSED), a TIMEOUT_ERROR
    (ETIMEDOUT) or an UNKNOWN_ERROR, with no status. *)
Theorem request_rejection
    (c : BitbucketClient) (path : string) (init : RequestInit)
    (w : World) (t : Trace) (err : AxiosError) :
  let method := default GET (init_method init) in
  axios_reply w (length t) (AxiosCall (baseUrl c) method path (init_body init))
  = AxiosRejected err ->
  exists e,
    fst (request c path init w t) = Throw (ThrowBitbucket e)
    /\ isRetryable e = retryable_kind (errorType e)
    /\ get (details e) "path" = JStr path
    /\ get (details e) "method" = JStr (Method_name method)
    /\ match err with
       | BadStatus st _ _ => statusCode e = Some st
       | NoResponse code _ => statusCode e = None /\ errorType e = no_response_kind code
       end.
Proof.
  intros method Hr. unfold request. fold method. rewrite Hr. simpl.
  eexists. split; [reflexivity|].
  destruct err as [st d m|code m].
  - destruct (ClientProps.request_error_table path method st d m) as [Hs _].
    cbv zeta in Hs.
    assert (H : let e := request_error path method (BadStatus st d m) in
                isRetryable e = retryable_kind (errorType e)
                /\ get (details e) "path" = JStr path
                /\ get (details e) "method" = JStr (Method_name method)).
    { unfold request_error, error_status, error_code, status_is, code_is.
      cbv zeta.
      repeat match goal with
             | |- context [if ?b then _ else _] => destruct b
             end; repeat split. }
    cbv zeta in H. destruct H as (H1 & H2 & H3). auto.
  - unfold request_error, error_status, error_code, status_is, code_is, no_response_kind.
    cbv zeta. cbn [negb andb].
    destruct code as [code|]; [|repeat split].
    destruct (String.eqb code "ENOTFOUND"), (String.eqb code "ECONNREFUSED"),
      (String.eqb code "ETIMEDOUT"); repeat split.
Qed.

Lemma request_rejection_witness :
  exists e,
    fst (request server_client "/projects" no_init (status_world 429) [])
    = Throw (ThrowBitbucket e)
    /\ isRetryable e = retryable_kind (errorType e)
    /\ get (details e) "path" = JStr "/projects"
    /\ get (details e) "method" = JStr "GET"
    /\ statusCode e = Some 429.
Proof.
  exact (request_rejection server_client "/projects" no_init (status_world 429) []
           (BadStatus 429 JNull "Request failed") eq_refl).
Defined.

Lemma promise_all_requests {U} (c : BitbucketClient) (path : U -> string)
    (init : U -> RequestInit) (us : list U) (w : World) (t : Trace) :
  snd (promise_all (map (fun u => request c (path u) (init u)) us) w t)
  = t ++ map (fun u => AxiosCall (baseUrl c) (default GET (init_method (init u)))
                         (path u) (init_body (init u))) us.
Proof. exact (ClientProps.promise_all_trace c path init us w t). Qed.

Lemma promise_all_resolved {U} (c : BitbucketClient) (path : U -> string)
    (init : U -> RequestInit) (us : list U) (w : World) (t : Trace) :
  (forall i u, us !! i = Some u ->
     exists st d,
       axios_reply w (length t + i)
         (AxiosCall (baseUrl c) (default GET (init_method (init u)))
            (path u) (init_body (init u)))
       = AxiosResolved st d) ->
  exists ds,
    fst (promise_all (map (fun u => request c (path u) (init u)) us) w t) = Ok ds
    /\ length ds = length us.
Proof.
  intros Hall. unfold promise_all. rewrite ClientProps.start_all_requests.
  destruct (ClientProps.first_rejection_none w
              (imap (fun k u => ((length t + k)%nat,
                                 reply_of c w (length t + k) (path u) (init u))) us))
    as [-> Hl].
  - intros j r Hin.
    apply ClientProps.promises_elem in Hin as (k & u & Hu & -> & ->).
    destruct (Hall k u Hu) as (st & d & Hr).
    exists d. unfold reply_of, call_of. rewrite Hr. reflexivity.
  - eexists. split; [reflexivity|]. rewrite Hl. apply length_imap.
Qed.

(** X11. On the Server dialect [addPullRequestReviewers] issues one POST to
    the participants of the pull request per reviewer, in the order of the
    list and whatever the replies are (a failing call does not stop the
    later ones; an empty list issues no call); when every call is resolved,
    it returns an array with one entry per reviewer. *)
Theorem server_reviewers_one_post_each
    (c : BitbucketClient) (ws rs : string) (prId : Z) (users : list string)
    (w : World) (t : Trace) :
  isCloud c = false ->
  let m := addPullRequestReviewers c (JStr ws) (JStr rs) (JNum prId)
             (JArr (map JStr users)) in
  snd (m w t) = t ++ map (reviewer_call c ws rs prId) users
  /\ ((forall i u, users !! i = Some u ->
         exists st d,
           axios_reply w (length t + i) (reviewer_call c ws rs prId u)
           = AxiosResolved st d) ->
      exists ds, fst (m w t) = Ok (JArr ds) /\ length ds = length users).
Proof.
  intros Hs m. unfold m, addPullRequestReviewers. rewrite Hs. unfold_m.
  rewrite map_map.
  set (path := fun _ : string =>
         ("/projects/" +:+ enc (JStr ws) +:+ "/repos/" +:+ enc (JStr rs)
          +:+ "/pull-requests/" +:+ ToString (JNum prId) +:+ "/participants")%string).
  set (init := fun u : string =>
         post (JObj [("user", JObj [("name", JStr u)]); ("role", JStr "REVIEWER")])).
  pose proof (promise_all_requests c path init users w t) as Htr.
  pose proof (promise_all_resolved c path init users w t) as Hok.
  change (promise_all (map _ users))
    with (promise_all (map (fun u => request c (path u) (init u)) users)).
  destruct (promise_all _ w t) as [r t'] eqn:E. cbn [fst snd] in Htr, Hok.
  split.
  - destruct r; cbn [snd]; exact Htr.
  - intros Hall. destruct Hok as (ds & -> & Hlen); [exact Hall|].
    exists ds. split; [reflexivity|exact Hlen].
Qed.

Lemma server_reviewers_one_post_each_witness :
  isCloud server_client = false
  /\ snd (addPullRequestReviewers server_client (JStr "PRJ") (JStr "repo") (JNum 7)
            (JArr (map JStr ["ann"; "bob"]%string)) (status_world 500) [])
     = map (reviewer_call server_client "PRJ" "repo" 7) ["ann"; "bob"]%string.
Proof.
  split; [reflexivity|].
  exact (proj1 (server_reviewers_one_post_each server_client "PRJ" "repo" 7
                  ["ann"; "bob"]%string (status_world 500) [] eq_refl)).
Defined.

(** X12. On the Cloud dialect [mergePullRequest] issues a single POST to the
    merge path of the pull request. Its body has [close_source_branch]
    whenever the option is given (also when it is false), and
    [merge_strategy] and [message] only when they are non-empty strings;
    when no property is left the request has no body at all. *)
Theorem cloud_merge_body
    (c : BitbucketClient) (ws rs : string) (prId : Z)
    (closeSourceBranch : option bool) (mergeStrategy message : option string)
    (w : World) (t : Trace) :
  isCloud c = true ->
  let fields :=
    field "close_source_branch" (JBool <$> closeSourceBranch)
    ++ sent "merge_strategy" mergeStrategy ++ sent "message" message in
  snd (mergePullRequest c (JStr ws) (JStr rs) (JNum prId)
         (merge_options closeSourceBranch mergeStrategy message) w t)
  = t ++ [AxiosCall (baseUrl c) POST
            ("/repositories/" +:+ encodeURIComponent ws +:+ "/"
             +:+ encodeURIComponent rs +:+ "/pullrequests/" +:+ pretty prId
             +:+ "/merge")
            (match fields with [] => None | _ => Some (JObj fields) end)].
Proof.
  intros Hc fields. unfold fields, mergePullRequest.
  rewrite Hc, ClientProps.request_trace.
  destruct closeSourceBranch as [[|]|], mergeStrategy as [[|c1 s1]|],
    message as [[|c2 s2]|]; reflexivity.
Qed.

Lemma cloud_merge_body_witness :
  isCloud cloud_client = true
  /\ snd (mergePullRequest cloud_client (JStr "ws") (JStr "repo") (JNum 7)
            (merge_options (Some false) (Some ""%string) None) quiet_world [])
     = [AxiosCall (baseUrl cloud_client) POST "/repositories/ws/repo/pullrequests/7/merge"
          (Some (JObj [("close_source_branch", JBool false)]))].
Proof.
  split; [reflexivity|].
  exact (cloud_merge_body cloud_client "ws" "repo" 7 (Some false) (Some ""%string) None
           quiet_world [] eq_refl).
Defined.

Lemma percent_decode_char (c : ascii) (x : string) :
  percent_decode
    ((if is_alnum c || char_in c "-_.!~*'()" then String c "" else percent c) +:+ x)
  = match percent_decode x with Some r => Some (String c r) | None => None end.
Proof.
  destruct c as [[] [] [] [] [] [] [] []]; reflexivity.
Qed.

Lemma percent_decode_encode (s : string) :
  percent_decode (encodeURIComponent s) = Some s.
Proof.
  induction s as [|c s IH]; [reflexivity|].
  cbn [encodeURIComponent]. rewrite percent_decode_char, IH. reflexivity.
Qed.

Lemma encodeURIComponent_inj (a b : string) :
  encodeURIComponent a = encodeURIComponent b -> a = b.
Proof.
  intros H. apply (f_equal percent_decode) in H.
  rewrite !percent_decode_encode in H. congruence.
Qed.

Lemma encodeURIComponent_no_slash (s : string) :
  GitSpec.lacks "/" (encodeURIComponent s) = true.
Proof.
  pose proof (ClientProps.encodeURIComponent_safe s) as H.
  unfold uri_safe in H. unfold GitSpec.lacks.
  induction (list_ascii_of_string (encodeURIComponent s)) as [|ch l IH];
    [reflexivity|].
  cbn [forallb] in *. apply andb_true_iff in H as [H1 H2].
  rewrite (IH H2), andb_true_r.
  destruct (Ascii.eqb ch "/") eqn:E; [|reflexivity].
  apply Ascii.eqb_eq in E. subst ch. discriminate H1.
Qed.

Lemma split_at_slash (a a' b b' : string) :
  GitSpec.lacks "/" a = true -> GitSpec.lacks "/" a' = true ->
  a +:+ String "/" b = a' +:+ String "/" b' -> a = a' /\ b = b'.
Proof.
  unfold GitSpec.lacks. revert a'.
  induction a as [|x a IH]; intros [|x' a'] Ha Ha' H.
  - change (String "/" b = String "/" b') in H. split; congruence.
  - change (String "/" b = String x' (a' +:+ String "/" b')) in H.
    injection H as <- _. discriminate Ha'.
  - change (String x (a +:+ String "/" b) = String "/" b') in H.
    injection H as -> _. discriminate Ha.
  - change (String x (a +:+ String "/" b) = String x' (a' +:+ String "/" b')) in H.
    injection H as -> H.
    cbn [list_ascii_of_string forallb] in Ha, Ha'.
    apply andb_true_iff in Ha as [_ Ha]. apply andb_true_iff in Ha' as [_ Ha'].
    destruct (IH a' Ha Ha' H) as [-> ->]. split; reflexivity.
Qed.

(** X13. Distinct repositories are never asked for with the same call:
    when [getRepo] issues the same call for [(ws, rs)] and [(ws', rs')] on
    one client, the two pairs are equal. (The percent-encoding of the two
    segments can be decoded, and no encoded segment holds a [/].) *)
Theorem getRepo_call_determines_repo
    (c : BitbucketClient) (ws rs ws' rs' : string) (w w' : World) (t t' : Trace)
    (call : NetCall) :
  snd (getRepo c (JStr ws) (JStr rs) w t) = t ++ [call] ->
  snd (getRepo c (JStr ws') (JStr rs') w' t') = t' ++ [call] ->
  ws = ws' /\ rs = rs'.
Proof.
  unfold getRepo, enc. cbn [ToString].
  destruct (isCloud c); rewrite !ClientProps.request_trace; intros H1 H2;
    apply app_inv_head in H1, H2; injection H1 as <-; injection H2 as H.
  - change (encodeURIComponent ws' +:+ String "/" (encodeURIComponent rs')
            = encodeURIComponent ws +:+ String "/" (encodeURIComponent rs)) in H.
    apply split_at_slash in H as [Ha Hb]; try apply encodeURIComponent_no_slash.
    split; apply encodeURIComponent_inj; congruence.
  - change (encodeURIComponent ws' +:+ String "/" ("repos/" +:+ encodeURIComponent rs')
            = encodeURIComponent ws +:+ String "/" ("repos/" +:+ encodeURIComponent rs))
      in H.
    apply split_at_slash in H as [Ha Hb]; try apply encodeURIComponent_no_slash.
    apply (inj (String.app "repos/")) in Hb.
    split; apply encodeURIComponent_inj; congruence.
Qed.

Lemma getRepo_call_determines_repo_witness :
  snd (getRepo cloud_client (JStr "my team") (JStr "repo") quiet_world [])
  = [AxiosCall (baseUrl cloud_client) GET "/repositories/my%20team/repo" None]
  /\ ("my team" = "my team" /\ "repo" = "repo")%string.
Proof.
  split; [reflexivity|].
  exact (getRepo_call_determines_repo cloud_client "my team" "repo" "my team" "repo"
           quiet_world (status_world 404) [] [] _ eq_refl eq_refl).
Defined.

End ClientFacts.

(* ================================================================== *)
(** * Further properties of the tools *)
(* ================================================================== *)

Module CliFacts.
Import Client Cli Spec ClientSpec CliSpec StringFacts ClientFacts.

Lemma behaves_ok_json (c : BitbucketClient) (data : jsval) : Behaves c 0 (ok_json data).
Proof. apply (behaves_pure c (Ok _)). discriminate. Qed.

Lemma getDefaultWorkspace_not_bitbucket (args : jsval) (e : BitbucketError) :
  getDefaultWorkspace args <> Throw (ThrowBitbucket e).
Proof. unfold getDefaultWorkspace. destruct (negb _); discriminate. Qed.

Lemma getDefaultRepoSlug_not_bitbucket (args : jsval) (e : BitbucketError) :
  getDefaultRepoSlug args <> Throw (ThrowBitbucket e).
Proof. unfold getDefaultRepoSlug. destruct (negb _); discriminate. Qed.

Lemma behaves_then_json (c : BitbucketClient) (n : nat) (m : M jsval) :
  Behaves c n m -> Behaves c n (data ← m; ok_json data).
Proof.
  intros H. rewrite <- (Nat.add_0_r n).
  apply behaves_bind; [exact H|intros data; apply behaves_ok_json].
Qed.

Lemma behaves_repo_tool (c : BitbucketClient) (n : nat) (args : jsval)
    (k : jsval -> jsval -> M ToolResult) :
  (forall w r, Behaves c n (k w r)) ->
  Behaves c n (w ← lift (getDefaultWorkspace args);
               r ← lift (getDefaultRepoSlug args);
               k w r).
Proof.
  intros H.
  apply (behaves_bind c 0 n);
    [apply behaves_pure; intros e; apply getDefaultWorkspace_not_bitbucket|intros w].
  apply (behaves_bind c 0 n);
    [apply behaves_pure; intros e; apply getDefaultRepoSlug_not_bitbucket|intros r].
  apply H.
Qed.

Ltac behaves_op c :=
  lazymatch goal with
  | |- Behaves _ _ (getRepo _ _ _) => exact (perform_behaves c (OpGetRepo _ _))
  | |- Behaves _ _ (listPullRequests _ _ _ _) => exact (perform_behaves c (OpListPullRequests _ _ _))
  | |- Behaves _ _ (createPullRequest _ _ _ _) => exact (perform_behaves c (OpCreatePullRequest _ _ _))
  | |- Behaves _ _ (listBranches _ _ _) => exact (perform_behaves c (OpListBranches _ _))
  | |- Behaves _ _ (createBranch _ _ _ _ _) => exact (perform_behaves c (OpCreateBranch _ _ _ _))
  | |- Behaves _ _ (listWorkspaces _) => exact (perform_behaves c OpListWorkspaces)
  | |- Behaves _ _ (listRepositories _ _) => exact (perform_behaves c (OpListRepositories _))
  | |- Behaves _ _ (getPullRequest _ _ _ _) => exact (perform_behaves c (OpGetPullRequest _ _ _))
  | |- Behaves _ _ (getPullRequestDiff _ _ _ _) => exact (perform_behaves c (OpGetPullRequestDiff _ _ _))
  | |- Behaves _ _ (getPullRequestChanges _ _ _ _) => exact (perform_behaves c (OpGetPullRequestChanges _ _ _))
  | |- Behaves _ _ (addPullRequestComment _ _ _ _ _) => exact (perform_behaves c (OpAddPullRequestComment _ _ _ _))
  | |- Behaves _ _ (getFileContent _ _ _ _ _) => exact (perform_behaves c (OpGetFileContent _ _ _ _))
  | |- Behaves _ _ (listCommits _ _ _ _) => exact (perform_behaves c (OpListCommits _ _ _))
  | |- Behaves _ _ (approvePullRequest _ _ _ _) => exact (perform_behaves c (OpApprovePullRequest _ _ _))
  | |- Behaves _ _ (declinePullRequest _ _ _ _) => exact (perform_behaves c (OpDeclinePullRequest _ _ _))
  | |- Behaves _ _ (mergePullRequest _ _ _ _ _) => exact (perform_behaves c (OpMergePullRequest _ _ _ _))
  | |- Behaves _ _ (updatePullRequest _ _ _ _ _) => exact (perform_behaves c (OpUpdatePullRequest _ _ _ _))
  | |- Behaves _ _ (listPullRequestComments _ _ _ _) => exact (perform_behaves c (OpListPullRequestComments _ _ _))
  | |- Behaves _ _ (getCommit _ _ _ _) => exact (perform_behaves c (OpGetCommit _ _ _))
  | |- Behaves _ _ (getCommitDiff _ _ _ _) => exact (perform_behaves c (OpGetCommitDiff _ _ _))
  | |- Behaves _ _ (compareBranches _ _ _ _ _) => exact (perform_behaves c (OpCompareBranches _ _ _ _))
  | |- Behaves _ _ (addInlineCommentAfterReview _ _ _ _ _ _ _ _) => exact (perform_behaves c (OpAddInlineComment _ _ _ _ _ _ _))
  end.

Lemma behaves_testConnection (c : BitbucketClient) :
  forall w t, exists ext,
    snd (testConnection c w t) = t ++ ext /\ (length ext <= 1)%nat
    /\ Forall (own_call c) ext
    /\ exists r, fst (testConnection c w t) = Ok r.
Proof.
  intros w t. unfold testConnection. unfold_m.
  destruct (perform_behaves c OpListWorkspaces w t) as (ext & He & Hl & Hf & _).
  cbn [perform call_bound] in He, Hl.
  exists ext. destruct (listWorkspaces c w t) as [[a|[e|n msg]] t1]; simpl in *; eauto.
Qed.

Lemma tools_behave (c : BitbucketClient) (d : jsval) (b : option string) :
  Forall (fun td => forall args,
            Behaves c (tool_bound c (name td) args) (handler td args))
    (tools c d b).
Proof.
  unfold tools.
  repeat (apply Forall_cons_2; [|]); try apply Forall_nil_2; intros args;
    try (apply behaves_repo_tool; intros w r; apply behaves_then_json;
         solve [behaves_op c]).
  - (* pr_create *)
    apply (behaves_repo_tool c 1). intros w r.
    apply (behaves_bind c 0 1).
    + destruct (negb _); [|apply (behaves_pure c (Ok _)); discriminate].
      destruct b; apply (behaves_pure c); discriminate.
    + intros sb. apply behaves_then_json. behaves_op c.
  - (* workspaces_list *)
    apply behaves_then_json. behaves_op c.
  - (* repos_list *)
    apply behaves_then_json. behaves_op c.
  - (* connection_test *)
    intros w t. destruct (behaves_testConnection c w t) as (ext & He & Hl & Hf & r & Hr).
    exists ext. cbn [handler connection_test name tool_bound]. unfold_m.
    destruct (testConnection c w t) as [res t1]. simpl in *. subst res t1.
    destruct (success r); simpl; (split; [reflexivity|]); (split; [exact Hl|]);
      (split; [exact Hf|]); intros e; discriminate.
  - (* pr_reviewers_add *)
    cbn [handler pr_reviewers_add name]. unfold tool_bound.
    change (String.eqb "pr_reviewers_add" "pr_reviewers_add") with true.
    cbn [andb].
    destruct (isCloud c) eqn:Hc; cbn [negb].
    + apply (behaves_repo_tool c 1). intros w r.
      destruct (get args "reviewers") as [| | | | |[|x xs]|] eqn:Er;
        try (apply (behaves_weaken c 0 1); [lia|apply (behaves_pure c); discriminate]).
      apply behaves_then_json.
      pose proof (perform_behaves c
                    (OpAddPullRequestReviewers w r (get args "prId") (JArr (x :: xs)))) as H.
      cbn [call_bound perform] in H. rewrite Hc in H. exact H.
    + destruct (get args "reviewers") as [| | | | |[|x xs]|] eqn:Er;
        try (apply behaves_repo_tool; intros w r;
             apply (behaves_weaken c 0); [lia|apply (behaves_pure c); discriminate]).
      apply behaves_repo_tool. intros w r. apply behaves_then_json.
      pose proof (perform_behaves c
                    (OpAddPullRequestReviewers w r (get args "prId") (JArr (x :: xs))))
        as H.
      cbn [call_bound perform] in H. rewrite Hc in H. exact H.
Qed.

(** X14. Whatever tool is invoked and whatever the arguments and the replies
    are, every call the session issues is the client's own (its base URL, a
    path of its dialect, never a DELETE, no body on a GET), and one
    invocation issues at most one call: nothing is retried and no further
    page is fetched. The one exception is [pr_reviewers_add] on the Server
    dialect, which issues at most one call per reviewer. *)
Theorem callTool_calls (c : BitbucketClient) (d : jsval) (b : option string)
    (req : CallToolRequest) (w : World) (t : Trace) :
  exists ext,
    snd (callTool (tools c d b) req w t) = t ++ ext
    /\ Forall (own_call c) ext
    /\ (length ext
        <= tool_bound c (req_name req) (js_or (req_arguments req) (JObj [])))%nat.
Proof.
  unfold callTool.
  destruct (find _ (tools c d b)) as [td|] eqn:Ef.
  - apply find_some in Ef as [Hin Hn]. apply String.eqb_eq in Hn.
    apply list_elem_of_In in Hin.
    pose proof (proj1 (Forall_forall _ _) (tools_behave c d b) td Hin
                  (js_or (req_arguments req) (JObj []))) as H.
    destruct (H w t) as (ext & He & Hl & Hf & _).
    exists ext. rewrite <- Hn. unfold_m.
    destruct (handler td _ w t) as [[r|[e|n msg]] t1]; simpl in *; auto.
  - exists []. unfold_m. simpl. rewrite app_nil_r.
    split; [reflexivity|]. split; [constructor|].
    unfold tool_bound. destruct (_ && _); [|lia].
    destruct (get _ "reviewers"); simpl; lia.
Qed.

Lemma output_bind {A} (m : M A) (k : A -> M ToolResult) :
  (forall a w t r, fst (k a w t) = Ok r -> tool_output r) ->
  forall w t r, fst ((m ≫= k) w t) = Ok r -> tool_output r.
Proof.
  intros Hk w t r. unfold_m. destruct (m w t) as [[a|x] t1]; [|discriminate].
  apply Hk.
Qed.

Lemma output_ok_json (data : jsval) (w : World) (t : Trace) (r : ToolResult) :
  fst (ok_json data w t) = Ok r -> tool_output r.
Proof. intros H. injection H as <-. left. eauto. Qed.

Ltac output_steps :=
  repeat first
    [ apply output_ok_json
    | apply output_bind; intros ? ].

Lemma tools_output (c : BitbucketClient) (d : jsval) (b : option string) :
  Forall (fun td => forall args w t r,
            fst (handler td args w t) = Ok r -> tool_output r)
    (tools c d b).
Proof.
  unfold tools.
  repeat (apply Forall_cons_2; [|]); try apply Forall_nil_2; intros args;
    cbn [handler repo_info pr_list pr_create branches_list branch_create
           workspaces_list repos_list pr_get pr_diff pr_changes pr_comment_add
           file_content connection_test commits_list pr_approve pr_decline
           pr_merge pr_update pr_reviewers_add pr_comments_list commit_get
           commit_diff branch_compare pr_inline_comment_add];
    try solve [output_steps].
  - (* connection_test *)
    apply output_bind. intros result w t r.
    destruct (success result); intros H; injection H as <-.
    + right. left. reflexivity.
    + right. right. destruct (error result); simpl; eauto.
  - (* pr_reviewers_add *)
    apply output_bind. intros ?. apply output_bind. intros ?.
    destruct (get args "reviewers") as [| | | | |[|x xs]|];
      try (intros w t r H; discriminate H).
    output_steps.
Qed.

(** X15. Every invocation is answered with exactly one text block. A reply
    that is not flagged as an error is what the tool itself returned: the
    JSON text of the data, or the success line of the connection test. *)
Theorem callTool_single_block (c : BitbucketClient) (d : jsval) (b : option string)
    (req : CallToolRequest) (w : World) (t : Trace) :
  exists r,
    fst (callTool (tools c d b) req w t) = Ok r
    /\ length (content r) = 1%nat
    /\ (isError r = false ->
        (exists data, content r = jsonOut data)
        \/ content r = [TextRaw "Connection successful"]).
Proof.
  unfold callTool.
  destruct (find _ (tools c d b)) as [td|] eqn:Ef.
  - apply find_some in Ef as [Hin _]. apply list_elem_of_In in Hin.
    pose proof (proj1 (Forall_forall _ _) (tools_output c d b) td Hin
                  (js_or (req_arguments req) (JObj [])) w t) as H.
    unfold_m.
    destruct (handler td _ w t) as [[r|[e|n msg]] t1]; simpl in *.
    + exists r. split; [reflexivity|].
      destruct (H r eq_refl) as [[data ->]|[->|[info ->]]]; simpl;
        (split; [reflexivity|]); intros Hr; try discriminate Hr; eauto.
    + eexists. split; [reflexivity|]. split; [reflexivity|]. discriminate.
    + eexists. split; [reflexivity|]. split; [reflexivity|]. discriminate.
  - eexists. split; [reflexivity|]. split; [reflexivity|]. discriminate.
Qed.

Lemma handler_workspace_repo {A} (args : jsval) (k : jsval -> jsval -> M A) (w : World)
    (t : Trace) :
  truthy (get args "workspace") = true ->
  truthy (get args "repoSlug") = true ->
  (ws ← lift (getDefaultWorkspace args); rs ← lift (getDefaultRepoSlug args); k ws rs) w t
  = k (get args "workspace") (get args "repoSlug") w t.
Proof.
  intros Hw Hr. unfold_m. unfold getDefaultWorkspace, getDefaultRepoSlug.
  rewrite Hw, Hr. reflexivity.
Qed.

(** X16. [pr_list] asks for the open pull requests whenever no state is
    given, or a falsy one: the query of its single GET is [state=OPEN]. *)
Theorem pr_list_defaults_to_open (c : BitbucketClient) (args : jsval) (w : World)
    (t : Trace) :
  truthy (get args "workspace") = true ->
  truthy (get args "repoSlug") = true ->
  truthy (get args "state") = false ->
  snd (handler (pr_list c) args w t)
  = t ++ [AxiosCall (baseUrl c) GET
            (if isCloud c then
               "/repositories/" +:+ enc (get args "workspace") +:+ "/"
               +:+ enc (get args "repoSlug") +:+ "/pullrequests?state=OPEN"
             else
               "/projects/" +:+ enc (get args "workspace") +:+ "/repos/"
               +:+ enc (get args "repoSlug") +:+ "/pull-requests?state=OPEN")
            None].
Proof.
  intros Hw Hr Hs. cbn [handler pr_list].
  rewrite handler_workspace_repo by assumption.
  unfold js_or. rewrite Hs. unfold_m. unfold listPullRequests. cbv zeta.
  destruct (isCloud c);
    match goal with
    | |- context [request c ?p ?i w t] =>
        pose proof (ClientProps.request_trace c p i w t) as Htr;
        destruct (request c p i w t) as [[data|x] t1]
    end; cbn [snd] in Htr |- *; subst t1; reflexivity.
Qed.

Lemma pr_list_defaults_to_open_witness :
  snd (handler (pr_list cloud_client)
         (JObj [("workspace", JStr "ws"); ("repoSlug", JStr "repo"); ("state", JStr "")])
         quiet_world [])
  = [AxiosCall (baseUrl cloud_client) GET "/repositories/ws/repo/pullrequests?state=OPEN"
       None].
Proof.
  exact (pr_list_defaults_to_open cloud_client
           (JObj [("workspace", JStr "ws"); ("repoSlug", JStr "repo"); ("state", JStr "")])
           quiet_world [] eq_refl eq_refl eq_refl).
Defined.
(** X17. [pr_create] fills in the branches that are not given: the source is
    the branch of the local checkout and the destination the configured
    default, an empty string counting as not given. With no source branch
    and no checkout it fails before any call is issued. *)
Theorem pr_create_branch_defaults
    (c : BitbucketClient) (dflt : string) (currentBranch : option string)
    (ws rs title : string) (sourceBranch destBranch : option string)
    (w : World) (t : Trace) :
  ws <> ""%string -> rs <> ""%string ->
  let run :=
    handler (pr_create c (JStr dflt) currentBranch)
      (pr_create_args ws rs title sourceBranch destBranch) w t in
  match or_else sourceBranch currentBranch with
  | Some src =>
      snd run
      = t ++ [pr_create_call c ws rs title src (default dflt (or_else destBranch None))]
  | None =>
      run = (Error "sourceBranch is required or must be in a git repository", t)
  end.
Proof.
  intros Hw Hr run. unfold run, pr_create_call.
  destruct ws as [|w1 ws]; [congruence|]. destruct rs as [|r1 rs]; [congruence|].
  cbn [handler pr_create].
  rewrite handler_workspace_repo by reflexivity.
  destruct sourceBranch as [[|s1 sb]|], currentBranch as [cb|],
    destBranch as [[|d1 db]|]; cbn [or_else str_nonempty default];
    try reflexivity;
    unfold_m; unfold createPullRequest; unfold_m;
    destruct (isCloud c); simpl;
    match goal with
    | |- context [request c ?p ?i w t] =>
        pose proof (ClientProps.request_trace c p i w t) as Htr;
        destruct (request c p i w t) as [[data|x] t1]
    end; cbn [snd] in Htr |- *; subst t1; reflexivity.
Qed.

Lemma pr_create_branch_defaults_witness :
  snd (handler (pr_create server_client (JStr "main") (Some "feature/x"%string))
         (pr_create_args "PRJ" "repo" "Add x" None (Some ""%string)) quiet_world [])
  = [pr_create_call server_client "PRJ" "repo" "Add x" "feature/x" "main"].
Proof.
  apply (pr_create_branch_defaults server_client "main" (Some "feature/x"%string)
           "PRJ" "repo" "Add x" None (Some ""%string) quiet_world []); discriminate.
Defined.

(** X18. A network failure of the Cloud file fetch reaches the caller of
    [file_content] as bare text: the failure envelope holds the message of
    the rejection, with no error type, no suggestion and no retry advice
    (the same failure of any other call is a retryable NETWORK_ERROR). *)
Theorem cloud_file_fetch_rejection_is_bare_text
    (c : BitbucketClient) (d : jsval) (b : option string)
    (fields : list (string * jsval)) (w : World) (t : Trace) (msg : string) :
  let args := JObj fields in
  let url :=
    baseUrl c +:+ "/repositories/" +:+ enc (get args "workspace") +:+ "/"
    +:+ enc (get args "repoSlug") +:+ "/src/" +:+ enc (get args "commitHash")
    +:+ "/" +:+ enc (get args "filePath") in
  isCloud c = true ->
  truthy (get args "workspace") = true ->
  truthy (get args "repoSlug") = true ->
  fetch_reply w (length t) (FetchCall url) = FetchRejected msg ->
  callTool (tools c d b) (mkRequest "file_content" args) w t
  = (Ok (mkResult [TextRaw (error_text "TypeError" msg)] true), t ++ [FetchCall url]).
Proof.
  intros args url Hc Hw Hr Hf. unfold callTool.
  change (find _ (tools c d b)) with (Some (file_content c)).
  cbn [req_arguments req_name]. cbv zeta.
  change (js_or args (JObj [])) with args.
  unfold try_catch. cbn [handler file_content].
  rewrite handler_workspace_repo by assumption.
  unfold_m. unfold getFileContent. rewrite Hc. unfold_m. unfold fetch.
  fold url. rewrite Hf. reflexivity.
Qed.

Lemma cloud_file_fetch_rejection_is_bare_text_witness :
  callTool (tools cloud_client (JStr "main") None)
    (mkRequest "file_content"
       (JObj [("workspace", JStr "ws"); ("repoSlug", JStr "repo");
              ("filePath", JStr "a.txt"); ("commitHash", JStr "abc")]))
    (mkWorld (fun _ _ => AxiosResolved 200 JNull) (fun _ _ => FetchRejected "fetch failed")
       (fun n => n))
    []
  = (Ok (mkResult [TextRaw "fetch failed"] true),
     [FetchCall "https://api.bitbucket.org/2.0/repositories/ws/repo/src/abc/a.txt"]).
Proof.
  exact (cloud_file_fetch_rejection_is_bare_text cloud_client (JStr "main") None
           [("workspace", JStr "ws"); ("repoSlug", JStr "repo");
            ("filePath", JStr "a.txt"); ("commitHash", JStr "abc")]
           (mkWorld (fun _ _ => AxiosResolved 200 JNull)
              (fun _ _ => FetchRejected "fetch failed") (fun n => n))
           [] "fetch failed" eq_refl eq_refl eq_refl eq_refl).
Defined.

(** X19. The options object that [pr_merge] builds from its arguments changes
    nothing in what is sent: the tool issues the call that
    [mergePullRequest] issues when it is given the arguments themselves.
    The same holds for [pr_update] and [updatePullRequest]. *)
Theorem merge_update_tools_pass_options
    (c : BitbucketClient) (args : jsval) (w : World) (t : Trace) :
  truthy (get args "workspace") = true ->
  truthy (get args "repoSlug") = true ->
  handler (pr_merge c) args w t
  = (data ← mergePullRequest c (get args "workspace") (get args "repoSlug")
              (get args "prId") args;
     ok_json data) w t
  /\ handler (pr_update c) args w t
     = (data ← updatePullRequest c (get args "workspace") (get args "repoSlug")
                 (get args "prId") args;
        ok_json data) w t.
Proof.
  intros Hw Hr. split.
  - cbn [handler pr_merge]. rewrite handler_workspace_repo by assumption.
    cbv zeta. unfold_m. unfold mergePullRequest. cbv zeta.
    destruct (get args "closeSourceBranch") eqn:E1;
      destruct (truthy (get args "mergeStrategy")) eqn:E2;
      destruct (truthy (get args "message")) eqn:E3;
      destruct (isCloud c); simpl; rewrite ?E1, ?E2, ?E3; reflexivity.
  - cbn [handler pr_update]. rewrite handler_workspace_repo by assumption.
    cbv zeta. unfold_m. unfold updatePullRequest. unfold_m.
    assert (Hargs : exists fs, args = JObj fs).
    { destruct args; try discriminate Hw. eauto. }
    destruct Hargs as [fs ->].
    destruct (truthy (get (JObj fs) "title")) eqn:E1;
      destruct (truthy (get (JObj fs) "description")) eqn:E2;
      destruct (isCloud c); simpl; simpl in E1, E2; rewrite ?E1, ?E2; reflexivity.
Qed.

Lemma merge_update_tools_pass_options_witness :
  handler (pr_merge cloud_client)
    (JObj [("workspace", JStr "ws"); ("repoSlug", JStr "repo"); ("prId", JNum 7);
           ("closeSourceBranch", JBool false); ("message", JStr "")])
    quiet_world []
  = (data ← mergePullRequest cloud_client (JStr "ws") (JStr "repo") (JNum 7)
              (JObj [("workspace", JStr "ws"); ("repoSlug", JStr "repo");
                     ("prId", JNum 7); ("closeSourceBranch", JBool false);
                     ("message", JStr "")]);
     ok_json data) quiet_world [].
Proof.
  exact (proj1 (merge_update_tools_pass_options cloud_client
                  (JObj [("workspace", JStr "ws"); ("repoSlug", JStr "repo");
                         ("prId", JNum 7); ("closeSourceBranch", JBool false);
                         ("message", JStr "")])
                  quiet_world [] eq_refl eq_refl)).
Defined.

(** X23. The names of the registered tools are pairwise distinct: looking a
    registered tool up by its name, as the call-tool handler does, finds
    that very tool, whatever the position of the tool in the registry. *)
Theorem registered_tool_is_found (c : BitbucketClient) (d : jsval) (b : option string)
    (td : ToolDef) :
  td ∈ tools c d b ->
  find (fun t => String.eqb (name t) (name td)) (tools c d b) = Some td.
Proof.
  unfold tools. intros H.
  repeat (apply elem_of_cons in H as [->|H]; [reflexivity|]).
  inversion H.
Qed.

Lemma registered_tool_is_found_witness :
  find (fun t => String.eqb (name t) "pr_inline_comment_add")
    (tools cloud_client (JStr "main") None)
  = Some (pr_inline_comment_add cloud_client).
Proof.
  apply (registered_tool_is_found cloud_client (JStr "main") None
           (pr_inline_comment_add cloud_client)).
  unfold tools. repeat constructor.
Defined.

End CliFacts.

(* ================================================================== *)
(** * Further properties of the checkout *)
(* ================================================================== *)

Module GitFacts.
Import Regex Git GitSpec CheckoutSpec StringFacts GitProps.

Lemma tail_values {R} (K : string -> R) (x : R) (s : string) :
  x ∈ ('(g3, r) ← plus_lazy dot s;
       '(_, r) ← opt (lit ".git") r;
       '(_, _) ← eos r;
       [K g3]) ->
  exists g3, x = K g3 /\ g3 <> ""%string.
Proof.
  intros H.
  unbind H as [g3 r1] H1. unbind H as [o r2] H2. unbind H as [u r3] H3.
  apply elem_of_plus_lazy in H1 as (_ & Hne & _).
  apply list_elem_of_singleton in H. eauto.
Qed.

Lemma path_values {R} (K : string -> string -> R) (x : R) (s : string) :
  x ∈ ('(g2, r) ← plus_greedy (not_char "/") s;
       '(_, r) ← lit "/" r;
       '(g3, r) ← plus_lazy dot r;
       '(_, r) ← opt (lit ".git") r;
       '(_, _) ← eos r;
       [K g2 g3]) ->
  exists g2 g3,
    x = K g2 g3 /\ g2 <> ""%string /\ lacks "/" g2 = true /\ g3 <> ""%string.
Proof.
  intros H. unbind H as [g2 r1] H1. unbind H as [u r2] H2.
  apply elem_of_plus_greedy in H1 as (_ & Hne & Hl).
  apply (tail_values (K g2)) in H as (g3 & -> & H3). eauto 8.
Qed.

Lemma ssh_re_values (s : string) (x : string * string * string) :
  x ∈ ssh_re s ->
  exists h w r,
    x = (h, w, r) /\ h <> ""%string /\ lacks ":" h = true
    /\ w <> ""%string /\ lacks "/" w = true /\ r <> ""%string.
Proof.
  unfold ssh_re. intros H.
  unbind H as [u0 r0] H0. unbind H as [g1 r1] H1. unbind H as [u2 r2] H2.
  apply elem_of_plus_greedy in H1 as (_ & Hh & Hlh).
  apply (path_values (fun g2 g3 => (g1, g2, g3))) in H
    as (w & r & -> & Hw & Hlw & Hr).
  exists g1, w, r. auto 8.
Qed.

Lemma https_re_values (s : string) (x : string * string * string) :
  x ∈ https_re s ->
  exists h w r,
    x = (h, w, r) /\ h <> ""%string /\ lacks "/" h = true
    /\ w <> ""%string /\ lacks "/" w = true /\ r <> ""%string.
Proof.
  unfold https_re. intros H.
  unbind H as [u0 r0] H0. unbind H as [o1 r1] H1. unbind H as [u2 r2] H2.
  unbind H as [o3 r3] H3. unbind H as [g1 r4] H4. unbind H as [u5 r5] H5.
  apply elem_of_plus_greedy in H4 as (_ & Hh & Hlh).
  apply (path_values (fun g2 g3 => (g1, g2, g3))) in H
    as (w & r & -> & Hw & Hlw & Hr).
  exists g1, w, r. auto 8.
Qed.

(** X21. Whatever [parseBitbucketRemote] returns has a host and a workspace
    that are not empty, and a workspace without [/]. The repository slug of
    an HTTPS remote is not empty either; that of an SSH remote can be,
    since a final [.git] is cut off a second time. *)
Theorem parseBitbucketRemote_output (s : string) (d : RemoteDescriptor) :
  parseBitbucketRemote s = Ok d ->
  host d <> ""%string
  /\ workspace d <> ""%string
  /\ lacks "/" (workspace d) = true
  /\ (exec (ssh_re s) = None -> repoSlug d <> ""%string).
Proof.
  unfold parseBitbucketRemote, exec. intros H.
  destruct (head (ssh_re s)) as [[[h w] r]|] eqn:E1.
  - injection H as <-. apply head_Some_elem_of in E1.
    apply ssh_re_values in E1 as (h' & w' & r' & Hx & Hh & _ & Hw & Hlw & _).
    injection Hx as -> -> ->. cbn [host workspace]. split; [exact Hh|].
    split; [exact Hw|]. split; [exact Hlw|]. discriminate.
  - destruct (head (https_re s)) as [[[h w] r]|] eqn:E2; [|discriminate].
    injection H as <-. apply head_Some_elem_of in E2.
    apply https_re_values in E2 as (h' & w' & r' & Hx & Hh & _ & Hw & Hlw & Hr).
    injection Hx as -> -> ->. cbn [host workspace repoSlug]. auto.
Qed.

Lemma parseBitbucketRemote_output_witness :
  parseBitbucketRemote "git@bitbucket.org:myteam/.git"
  = Ok (mkRemote "bitbucket.org" "myteam" "")
  /\ lacks "/" "myteam" = true.
Proof.
  split; [reflexivity|].
  exact (proj1 (proj2 (proj2
           (parseBitbucketRemote_output "git@bitbucket.org:myteam/.git"
              (mkRemote "bitbucket.org" "myteam" "") eq_refl)))).
Defined.

Lemma iter_fixed {A} (f : A -> A) (x : A) (k : nat) : f x = x -> Nat.iter k f x = x.
Proof. intros H. induction k as [|k IH]; simpl; [reflexivity|]. rewrite IH. exact H. Qed.

Lemma iter_shift {A} (f : A -> A) (x : A) (k : nat) :
  Nat.iter k f (f x) = Nat.iter (S k) f x.
Proof. induction k as [|k IH]; simpl; [reflexivity|]. rewrite IH. reflexivity. Qed.

Lemma ancestors_cons (dirname : string -> string) (n : nat) (dir : string) :
  ancestors dirname (S n) dir = dir :: ancestors dirname n (dirname dir).
Proof.
  unfold ancestors. cbn [seq map Nat.iter]. f_equal.
  rewrite <- seq_shift, map_map. f_equal.
  apply map_ext. intros k. rewrite iter_shift. reflexivity.
Qed.

Lemma find_ancestors_fixed (dirname : string -> string) (has_git : string -> bool)
    (n : nat) (dir : string) :
  dirname dir = dir -> has_git dir = false -> find has_git (ancestors dirname n dir) = None.
Proof.
  intros Hd Hg. unfold ancestors.
  induction (seq 0 (S n)) as [|k l IH]; [reflexivity|].
  cbn [map find]. rewrite iter_fixed by exact Hd. rewrite Hg. exact IH.
Qed.

(** X22. [findRepoRoot] returns the nearest directory, from the start
    directory upwards, that holds [.git], the start directory included; it
    throws when no directory up to the root does. The loop ends: if the
    root (the directory that is its own parent) is reached after [n] steps,
    [n + 1] iterations are enough. *)
Theorem findRepoRoot_nearest
    (dirname : string -> string) (has_git : string -> bool)
    (n fuel : nat) (dir : string) :
  dirname (Nat.iter n dirname dir) = Nat.iter n dirname dir ->
  (n < fuel)%nat ->
  findRepoRoot dirname has_git fuel dir
  = Some (match find has_git (ancestors dirname n dir) with
          | Some root => Ok root
          | None => Error "No git repository found from current directory upwards"
          end).
Proof.
  revert fuel dir. induction n as [|n IH]; intros fuel dir Hroot Hfuel;
    (destruct fuel as [|fuel]; [lia|]); cbn [findRepoRoot].
  - change (dirname dir = dir) in Hroot.
    change (ancestors dirname 0 dir) with [dir]. cbn [find].
    destruct (has_git dir); [reflexivity|].
    rewrite Hroot, String.eqb_refl. reflexivity.
  - rewrite ancestors_cons. cbn [find].
    destruct (has_git dir) eqn:Hg; [reflexivity|].
    destruct (String.eqb (dirname dir) dir) eqn:Hd.
    + apply String.eqb_eq in Hd.
      rewrite Hd, (find_ancestors_fixed dirname has_git n dir Hd Hg). reflexivity.
    + apply IH; [|lia]. rewrite iter_shift. exact Hroot.
Qed.

Lemma findRepoRoot_nearest_witness :
  findRepoRoot home_dirname (String.eqb "/home/dev/repo") 5 "/home/dev/repo/src"
  = Some (Ok "/home/dev/repo"%string)
  /\ findRepoRoot home_dirname (fun _ => false) 5 "/home/dev/repo/src"
     = Some (Error "No git repository found from current directory upwards").
Proof.
  split.
  - apply (findRepoRoot_nearest home_dirname (String.eqb "/home/dev/repo") 4 5
             "/home/dev/repo/src"); [reflexivity|lia].
  - apply (findRepoRoot_nearest home_dirname (fun _ => false) 4 5
             "/home/dev/repo/src"); [reflexivity|lia].
Defined.

End GitFacts.
